(** * ClawKangsar: the session store, the agent router, the browser handle,
      URL normalisation, the gateways, the status tracker and the
      configuration, embedded from the Go sources.

    Go strings are byte sequences: they are modelled as [string] (one [ascii]
    per byte).  Maps are stdpp's [gmap].  Heap objects mutated through a
    pointer ([*SessionStore], [*Agent], [*Browser]) are modelled by explicit
    state passing; the file system, the clock and the outcome of system calls
    form an explicit [World]. *)

From Stdlib Require Import Ascii String NArith ZArith List Lia DecimalString.
From Stdlib Require DecimalPos DecimalZ.
From stdpp Require Import gmap strings list sorting.

(** ** Part I.  The Go [strings] functions the sources call *)

Module GoStrings.

Local Open Scope N_scope.

Definition byte (c : ascii) : N := N_of_ascii c.

(** [unicode.IsSpace] on the UTF-8 encoding: the six ASCII white-space
    bytes, U+0085 and U+00A0 (two bytes), U+1680, U+2000..U+200A, U+2028,
    U+2029, U+202F, U+205F and U+3000 (three bytes). *)
Definition isSpace1 (c : ascii) : bool :=
  ((9 <=? byte c) && (byte c <=? 13)) || (byte c =? 32).

Definition isSpace2 (c1 c2 : ascii) : bool :=
  (byte c1 =? 0xC2) && ((byte c2 =? 0x85) || (byte c2 =? 0xA0)).

Definition isSpace3 (c1 c2 c3 : ascii) : bool :=
  ((byte c1 =? 0xE1) && (byte c2 =? 0x9A) && (byte c3 =? 0x80))
  || ((byte c1 =? 0xE2) && (byte c2 =? 0x80)
      && (((0x80 <=? byte c3) && (byte c3 <=? 0x8A))
          || (byte c3 =? 0xA8) || (byte c3 =? 0xA9) || (byte c3 =? 0xAF)))
  || ((byte c1 =? 0xE2) && (byte c2 =? 0x81) && (byte c3 =? 0x9F))
  || ((byte c1 =? 0xE3) && (byte c2 =? 0x80) && (byte c3 =? 0x80)).

(** Drops every leading white-space rune.  With [backwards] the list is a
    reversed string, so the bytes of a rune arrive last byte first. *)
Fixpoint strip (backwards : bool) (l : list ascii) : list ascii :=
  match l with
  | [] => []
  | c1 :: r1 =>
      if isSpace1 c1 then strip backwards r1
      else match r1 with
           | [] => l
           | c2 :: r2 =>
               if (if backwards then isSpace2 c2 c1 else isSpace2 c1 c2)
               then strip backwards r2
               else match r2 with
                    | [] => l
                    | c3 :: r3 =>
                        if (if backwards then isSpace3 c3 c2 c1
                            else isSpace3 c1 c2 c3)
                        then strip backwards r3
                        else l
                    end
           end
  end.

Definition trimLeft (l : list ascii) : list ascii := strip false l.
Definition trimRight (l : list ascii) : list ascii := rev (strip true (rev l)).

(** [strings.TrimSpace]: leading, then trailing white-space runes go. *)
Definition TrimSpace (s : string) : string :=
  string_of_list_ascii (trimRight (trimLeft (list_ascii_of_string s))).

(** [strings.ToLower] restricted to the ASCII letters.  Go lowers other
    runes too, but no rune outside ASCII lowers to a byte of "/status",
    "/fetch " or "/browse ", the only strings the result is matched
    against, so the prefix tests of [Process] are the same. *)
Definition lowerByte (c : ascii) : ascii :=
  if (65 <=? byte c) && (byte c <=? 90) then ascii_of_N (byte c + 32) else c.

Fixpoint ToLower (s : string) : string :=
  match s with
  | EmptyString => EmptyString
  | String c r => String (lowerByte c) (ToLower r)
  end.

Fixpoint prefixb (pre s : string) : bool :=
  match pre, s with
  | EmptyString, _ => true
  | String a p, String b r => Ascii.eqb a b && prefixb p r
  | String _ _, EmptyString => false
  end.

(** [strings.HasPrefix] *)
Definition HasPrefix (s pre : string) : bool := prefixb pre s.

(** [strings.Contains] *)
Fixpoint Contains (s sub : string) : bool :=
  prefixb sub s
  || match s with
     | EmptyString => false
     | String _ r => Contains r sub
     end.

Fixpoint hasByte (chars : string) (c : ascii) : bool :=
  match chars with
  | EmptyString => false
  | String d r => Ascii.eqb c d || hasByte r c
  end.

(** [strings.ContainsAny] for a set of one-byte characters *)
Fixpoint ContainsAny (s chars : string) : bool :=
  match s with
  | EmptyString => false
  | String c r => hasByte chars c || ContainsAny r chars
  end.

(** [s[n:]] and [s[:n]] for [n <= len(s)] (Go panics beyond). *)
Fixpoint sliceFrom (n : nat) (s : string) : string :=
  match n, s with
  | S k, String _ r => sliceFrom k r
  | _, _ => s
  end.

Fixpoint sliceTo (n : nat) (s : string) : string :=
  match n, s with
  | S k, String c r => String c (sliceTo k r)
  | _, _ => EmptyString
  end.

(** [strings.ReplaceAll s old new] for a non-empty [old]: scanning from the
    left, each non-overlapping occurrence is replaced.  [skip] counts the
    bytes of an occurrence still to be passed over. *)
Fixpoint replaceFrom (old new : string) (skip : nat) (s : string) : string :=
  match s with
  | EmptyString => EmptyString
  | String c r =>
      match skip with
      | S k => replaceFrom old new k r
      | O =>
          if prefixb old s
          then new +:+ replaceFrom old new (Nat.pred (String.length old)) r
          else String c (replaceFrom old new O r)
      end
  end.

Definition ReplaceAll (s old new : string) : string := replaceFrom old new O s.

(** [strings.Cut s sep] for a one-byte separator: the text before the
    first [sep], the text after it, and whether [sep] was found. *)
Fixpoint Cut (s : string) (sep : ascii) : string * string * bool :=
  match s with
  | EmptyString => (EmptyString, EmptyString, false)
  | String c r =>
      if Ascii.eqb c sep then (EmptyString, r, true)
      else let '(a, b, found) := Cut r sep in (String c a, b, found)
  end.

(** [fmt.Sprintf("%d", n)] for a non-negative [n]. *)
Definition itoa (n : nat) : string := NilEmpty.string_of_uint (Nat.to_uint n).

End GoStrings.
Import GoStrings.


(** ** Part II.  [internal/core]: messages, the session store, the agent *)

(** [time.Time] as an instant; [0] is the zero time ([IsZero]). *)
Definition Time := Z.
Bind Scope Z_scope with Time.

(** [core.Message] *)
Record Message := {
  Channel : string;
  UserID : string;
  ChatID : string;
  Text : string;
  Timestamp : Time
}.

(** [core.Session] *)
Record Session := {
  Key : string;
  Messages : list Message;
  Created : Time;
  Updated : Time
}.

(** [core.SessionStore]; the mutex guards [sessions] and has no state of its
    own in a sequential run. *)
Record SessionStore := {
  storage : string;
  sessions : gmap string Session
}.

Inductive error :=
| ErrInvalid                                   (* os.ErrInvalid *)
| ErrMarshal                                   (* json.MarshalIndent failed *)
| ErrSyscall (call : string)                   (* a file operation failed *)
| ErrText (text : string)                      (* errors.New(text) *)
| ErrWrap (context : string) (cause : error).  (* fmt.Errorf("...: %w", cause) *)

(** *** The file system under the storage root

    The directory [storage] is a map from file name to content.  Only the
    operations [Save] performs are modelled; each is atomic, as the
    operating system makes it. *)
Inductive FsOp :=
| OpCreate (name : string)
| OpWrite (name data : string)
| OpChmod (name : string)
| OpSync (name : string)
| OpClose (name : string)
| OpRename (oldname newname : string)
| OpRemove (name : string).

Definition applyOp (d : gmap string string) (op : FsOp) : gmap string string :=
  match op with
  | OpCreate name => <[name := ""]> d
  | OpWrite name data =>
      match d !! name with
      | Some old => <[name := old +:+ data]> d
      | None => d
      end
  | OpChmod _ | OpSync _ | OpClose _ => d
  | OpRename oldname newname =>
      match d !! oldname with
      | Some content => <[newname := content]> (delete oldname d)
      | None => d
      end
  | OpRemove name => delete name d
  end.

Definition applyOps (d : gmap string string) (ops : list FsOp) : gmap string string :=
  fold_left applyOp ops d.

(** Which calls of one [Save] fail.  [rands] are the random numbers
    [os.CreateTemp] draws; [writeFails = Some n] is a [Write] that fails
    after [n] bytes reached the file. *)
Record SaveFaults := {
  rands : list nat;
  createFails : bool;
  writeFails : option nat;
  chmodFails : bool;
  syncFails : bool;
  closeFails : bool;
  renameFails : bool;
  removeFails : bool
}.

(** What lies outside the program: the files under the storage root, the
    clock ([clock n] is what the [n]-th call of [time.Now] returns), the
    outcome of the file operations of the [n]-th [Save] that reaches the
    disk, and [json.MarshalIndent] on a session. *)
Record World := {
  disk : gmap string string;
  ticks : nat;
  clock : nat -> Time;
  saves : nat;
  faults : nat -> SaveFaults;
  marshal : Session -> option string
}.

Definition time_Now (w : World) : Time * World :=
  (clock w (ticks w),
   {| disk := disk w; ticks := S (ticks w); clock := clock w;
      saves := saves w; faults := faults w; marshal := marshal w |}).

Definition afterSave (w : World) (d : gmap string string) : World :=
  {| disk := d; ticks := ticks w; clock := clock w;
     saves := S (saves w); faults := faults w; marshal := marshal w |}.

(** *** [path/filepath] on a Unix host *)

(** [strings.Split(path, "/")] *)
Fixpoint parts (path : string) : list string :=
  match path with
  | EmptyString => [EmptyString]
  | String c r =>
      if Ascii.eqb c "/" then EmptyString :: parts r
      else match parts r with
           | p :: ps => String c p :: ps
           | [] => [String c EmptyString]
           end
  end.

Definition isDots (part : string) : bool :=
  String.eqb part "." || String.eqb part "..".

(** One element of [filepath.Clean] on a path that is not rooted; [out] is
    the cleaned path so far, last element first. *)
Definition cleanStep (out : list string) (part : string) : list string :=
  if String.eqb part "" || String.eqb part "." then out
  else if String.eqb part ".." then
    match out with
    | top :: rest => if String.eqb top ".." then part :: out else rest
    | [] => [part]
    end
  else part :: out.

(** [filepath.Clean] on a path that is not rooted. *)
Definition Clean (path : string) : string :=
  match rev (fold_left cleanStep (parts path) []) with
  | [] => "."
  | p :: ps => fold_left (fun acc q => acc +:+ "/" +:+ q) ps p
  end.

(** [filepath.IsLocal] (unixIsLocal) *)
Definition IsLocal (path : string) : bool :=
  if HasPrefix path "/" || String.eqb path "" then false
  else
    let path := if existsb isDots (parts path) then Clean path else path in
    negb (String.eqb path ".." || HasPrefix path "../").

(** *** session_store.go *)

Definition sanitizeSessionFilename (key : string) : string :=
  ReplaceAll (TrimSpace key) ":" "_".

Definition tempName (r : nat) : string := "session-" +:+ itoa r +:+ ".tmp".

(** The attempts of [os.CreateTemp] before it gives up: 10000. *)
Definition createTempTries : nat := 10 * 1000.

(** [os.CreateTemp(dir, "session-*.tmp")]: draws until a name is free; the
    file is created empty. *)
Definition CreateTemp (f : SaveFaults) (d : gmap string string) : option string :=
  if createFails f then None
  else
    option_map tempName
      (List.find (fun r => bool_decide (d !! tempName r = None))
                 (take createTempTries (rands f))).

(** The body of [Save] from [os.CreateTemp] on: the error returned and the
    file operations that took effect, in order.  The deferred [os.Remove]
    comes last on every failing path, and its own failure is ignored. *)
Definition writeSnapshot (f : SaveFaults) (d : gmap string string)
    (payload targetPath : string) : option error * list FsOp :=
  match CreateTemp f d with
  | None => (Some (ErrSyscall "createtemp"), [])
  | Some tmpPath =>
      let cleanup := if removeFails f then [] else [OpRemove tmpPath] in
      match writeFails f with
      | Some n =>
          (Some (ErrSyscall "write"),
           [OpCreate tmpPath; OpWrite tmpPath (sliceTo n payload); OpClose tmpPath]
             ++ cleanup)
      | None =>
          let written := [OpCreate tmpPath; OpWrite tmpPath payload] in
          if chmodFails f then
            (Some (ErrSyscall "chmod"), written ++ [OpClose tmpPath] ++ cleanup)
          else if syncFails f then
            (Some (ErrSyscall "sync"),
             written ++ [OpChmod tmpPath; OpClose tmpPath] ++ cleanup)
          else if closeFails f then
            (Some (ErrSyscall "close"),
             written ++ [OpChmod tmpPath; OpSync tmpPath] ++ cleanup)
          else if renameFails f then
            (Some (ErrSyscall "rename"),
             written ++ [OpChmod tmpPath; OpSync tmpPath; OpClose tmpPath] ++ cleanup)
          else
            (None,
             written ++ [OpChmod tmpPath; OpSync tmpPath; OpClose tmpPath;
                         OpRename tmpPath targetPath])
      end
  end.

Definition invalidFilename (filename : string) : bool :=
  String.eqb filename "." || negb (IsLocal filename) || ContainsAny filename "/\".

(** [Save sessionKey] up to its return: the error, and the file operations
    that took effect ([None] when it returns before [os.CreateTemp]). *)
Definition SaveOps (sessionKey : string) (s : SessionStore) (w : World)
    : option error * option (list FsOp) :=
  if String.eqb (storage s) "" then (None, None)
  else
    let filename := sanitizeSessionFilename sessionKey in
    if invalidFilename filename then (Some ErrInvalid, None)
    else
      match sessions s !! sessionKey with
      | None => (None, None)
      | Some session =>
          let snapshot :=
            {| Key := Key session; Messages := Messages session;
               Created := Created session; Updated := Updated session |} in
          match marshal w snapshot with
          | None => (Some ErrMarshal, None)
          | Some payload =>
              let '(err, ops) :=
                writeSnapshot (faults w (saves w)) (disk w) payload
                              (filename +:+ ".json") in
              (err, Some ops)
          end
      end.

(** [SessionStore.Save] *)
Definition Save (sessionKey : string) (s : SessionStore) (w : World)
    : option error * World :=
  match SaveOps sessionKey s w with
  | (err, None) => (err, w)
  | (err, Some ops) => (err, afterSave w (applyOps (disk w) ops))
  end.

Definition storeKey (sessionKey : string) : string :=
  let key := TrimSpace sessionKey in
  if String.eqb key "" then "global" else key.

(** The part of [AddMessage] between [s.mu.Lock()] and [s.mu.Unlock()]:
    the session of [key] is created when absent, the message appended and
    [Updated] set. *)
Definition appendMessage (key : string) (msg : Message)
    (s : SessionStore) (w : World) : SessionStore * World :=
  let '(session, w) :=
    match sessions s !! key with
    | Some session => (session, w)
    | None =>
        let '(created, w) := time_Now w in
        let '(updated, w) := time_Now w in
        ({| Key := key; Messages := []; Created := created; Updated := updated |}, w)
    end in
  let '(updated, w) := time_Now w in
  let session :=
    {| Key := Key session; Messages := Messages session ++ [msg];
       Created := Created session; Updated := updated |} in
  ({| storage := storage s; sessions := <[key := session]> (sessions s) |}, w).

(** [SessionStore.AddMessage] on a store that is not nil *)
Definition AddMessage (sessionKey : string) (msg : Message)
    (s : SessionStore) (w : World) : option error * SessionStore * World :=
  let key := storeKey sessionKey in
  let '(s, w) := appendMessage key msg s w in
  let '(err, w) := Save key s w in
  (err, s, w).

(** [SessionStore.History]; a nil slice and an empty one are both [[]]. *)
Definition History (sessionKey : string) (s : SessionStore) : list Message :=
  match sessions s !! storeKey sessionKey with
  | Some session => Messages session
  | None => []
  end.

Definition SessionCount (s : SessionStore) : nat := size (sessions s).

Definition TotalMessageCount (s : SessionStore) : nat :=
  map_fold (fun _ session total => total + length (Messages session)) 0
           (sessions s).

(** *** agent.go *)

(** [BrowserTool.Browse] and [WebFetchTool.Fetch] as seen from the agent:
    the text and the error the call returns for a target. *)
Definition Tool := string -> string * option error.

Record AgentStats := {
  InMemoryMessages : nat;
  StoredSessions : nat;
  StoredMessages : nat
}.

(** [core.Agent]; [sessionStore] is the store the pointer [sessions] refers
    to, [None] for a nil pointer. *)
Record Agent := {
  systemPrompt : string;
  browser : option Tool;
  webFetch : option Tool;
  sessionStore : option SessionStore;
  memory : list Message;
  maxMemory : nat
}.

Definition defaultSystemPrompt : string :=
  "You are ClawKangsar, a professional assistant running on a Raspberry Pi. Keep responses concise and use your browser tool only when real-time data is needed.".

Definition NewAgent (prompt : string) (browser webFetch : option Tool)
    (sessions : option SessionStore) : Agent :=
  {| systemPrompt :=
       if String.eqb (TrimSpace prompt) "" then defaultSystemPrompt else prompt;
     browser := browser;
     webFetch := webFetch;
     sessionStore := sessions;
     memory := [];
     maxMemory := 128 |}.

Definition messageSessionKey (msg : Message) : string :=
  if negb (String.eqb (TrimSpace (Channel msg)) "")
     && negb (String.eqb (TrimSpace (ChatID msg)) "")
  then Channel msg +:+ ":" +:+ ChatID msg
  else if negb (String.eqb (TrimSpace (UserID msg)) "")
  then "user:" +:+ TrimSpace (UserID msg)
  else "global".

Definition truncate (text : string) (max : nat) : string :=
  if String.length text <=? max then text
  else sliceTo max text +:+ "...".

Definition withMemory (a : Agent) (mem : list Message) : Agent :=
  {| systemPrompt := systemPrompt a; browser := browser a; webFetch := webFetch a;
     sessionStore := sessionStore a; memory := mem; maxMemory := maxMemory a |}.

Definition withStore (a : Agent) (s : SessionStore) : Agent :=
  {| systemPrompt := systemPrompt a; browser := browser a; webFetch := webFetch a;
     sessionStore := Some s; memory := memory a; maxMemory := maxMemory a |}.

(** [Agent.remember]: the errors of both [AddMessage] calls are dropped. *)
Definition remember (msg : Message) (a : Agent) (w : World) : nat * Agent * World :=
  let mem := memory a ++ [msg] in
  let mem :=
    if maxMemory a <? length mem then drop (length mem - maxMemory a) mem else mem in
  let a := withMemory a mem in
  let currentSize := length mem in
  match sessionStore a with
  | None => (currentSize, a, w)
  | Some s =>
      let sessionKey := messageSessionKey msg in
      let '(_, s, w) := AddMessage sessionKey msg s w in
      if negb (String.eqb sessionKey "global") then
        let '(_, s, w) := AddMessage "global" msg s w in
        (currentSize, withStore a s, w)
      else (currentSize, withStore a s, w)
  end.

(** [Agent.Stats] *)
Definition Stats (a : Agent) : AgentStats :=
  {| InMemoryMessages := length (memory a);
     StoredSessions := from_option SessionCount 0 (sessionStore a);
     StoredMessages := from_option TotalMessageCount 0 (sessionStore a) |}.

Definition statusReply (stats : AgentStats) : string :=
  "ClawKangsar status: memory=" +:+ itoa (InMemoryMessages stats)
  +:+ " sessions=" +:+ itoa (StoredSessions stats)
  +:+ " stored_messages=" +:+ itoa (StoredMessages stats).

Definition readyReply (channel : string) (memorySize : nat) : string :=
  "ClawKangsar ready. Channel=" +:+ channel +:+ " memory=" +:+ itoa memorySize.

(** The message as [Process] keeps it: text trimmed, a zero timestamp
    replaced by the current time. *)
Definition normalize (msg : Message) (w : World) : Message * World :=
  let text := TrimSpace (Text msg) in
  let '(ts, w) :=
    if Z.eqb (Timestamp msg) 0 then time_Now w else (Timestamp msg, w) in
  ({| Channel := Channel msg; UserID := UserID msg; ChatID := ChatID msg;
      Text := text; Timestamp := ts |}, w).

(** The command dispatch of [Process], after [remember]. *)
Definition dispatch (msg : Message) (memorySize : nat) (a : Agent)
    : string * option error :=
  let lower := ToLower (Text msg) in
  if HasPrefix lower "/status" then (statusReply (Stats a), None)
  else
    match (if HasPrefix lower "/fetch " then webFetch a else None) with
    | Some fetch =>
        let target := TrimSpace (sliceFrom (String.length "/fetch ") (Text msg)) in
        if String.eqb target "" then ("Provide a URL after /fetch.", None)
        else
          match fetch target with
          | (_, Some err) => ("", Some err)
          | (text, None) => (truncate text 1200, None)
          end
    | None =>
        if HasPrefix lower "/browse " then
          let target := TrimSpace (sliceFrom (String.length "/browse ") (Text msg)) in
          if String.eqb target "" then ("Provide a URL after /browse.", None)
          else
            let fetched :=
              match webFetch a with
              | Some fetch =>
                  match fetch target with
                  | (text, None) =>
                      if negb (String.eqb (TrimSpace text) "") then Some text else None
                  | (_, Some _) => None
                  end
              | None => None
              end in
            match fetched with
            | Some text => (truncate text 1200, None)
            | None =>
                match browser a with
                | None => ("Browser tool unavailable.", None)
                | Some browse =>
                    match browse target with
                    | (_, Some err) => ("", Some (ErrWrap "browse failed: " err))
                    | (text, None) => (truncate text 1200, None)
                    end
                end
            end
        else (readyReply (Channel msg) memorySize, None)
    end.

(** [Agent.Process] *)
Definition Process (msg : Message) (a : Agent) (w : World)
    : (string * option error) * Agent * World :=
  let '(msg, w) := normalize msg w in
  if String.eqb (Text msg) "" then (("", None), a, w)
  else
    let '(memorySize, a, w) := remember msg a w in
    (dispatch msg memorySize a, a, w).

(** The agent and the world after the messages of [msgs], one [Process]
    after the other. *)
Definition ProcessAll (msgs : list Message) (a : Agent) (w : World) : Agent * World :=
  fold_left (fun st msg => let '(_, a, w) := Process msg (fst st) (snd st) in (a, w))
            msgs (a, w).

(** ** Part III.  [net/url] as [normalizeWebURL] and [normalizeURL] use it

    [url.Parse] and [URL.String] of the Go standard library (go 1.24, the
    version of go.mod), without the query-component mode, which neither
    uses. *)

Module GoURL.

Local Open Scope N_scope.

Record Userinfo := {
  username : string;
  password : string;
  passwordSet : bool
}.

Record URL := {
  Scheme : string;
  Opaque : string;
  User : option Userinfo;
  Host : string;
  Path : string;
  RawPath : string;
  OmitHost : bool;
  ForceQuery : bool;
  RawQuery : string;
  Fragment : string;
  RawFragment : string
}.

Inductive encoding :=
  encodePath | encodeHost | encodeZone | encodeUserPassword | encodeFragment.

Definition isAlpha (c : ascii) : bool :=
  ((97 <=? byte c) && (byte c <=? 122)) || ((65 <=? byte c) && (byte c <=? 90)).
Definition isDigit (c : ascii) : bool := (48 <=? byte c) && (byte c <=? 57).

Definition ishex (c : ascii) : bool :=
  isDigit c || ((97 <=? byte c) && (byte c <=? 102))
  || ((65 <=? byte c) && (byte c <=? 70)).

Definition unhex (c : ascii) : N :=
  if isDigit c then byte c - 48
  else if (97 <=? byte c) && (byte c <=? 102) then byte c - 97 + 10
  else if (65 <=? byte c) && (byte c <=? 70) then byte c - 65 + 10
  else 0.

Definition upperhex (n : N) : ascii :=
  if n <? 10 then ascii_of_N (48 + n) else ascii_of_N (65 + n - 10).

Definition isHostMode (mode : encoding) : bool :=
  match mode with encodeHost | encodeZone => true | _ => false end.

Definition shouldEscape (c : ascii) (mode : encoding) : bool :=
  if isAlpha c || isDigit c then false
  else if isHostMode mode
          && (hasByte "!$&'()*+,;=:[]<>" c || (byte c =? 34)) then false
  else if hasByte "-_.~" c then false
  else if hasByte "$&+,/:;=?@" c then
    match mode with
    | encodePath => Ascii.eqb c "?"
    | encodeUserPassword => hasByte "@/?:" c
    | encodeFragment => false
    | encodeHost | encodeZone => true
    end
  else
    match mode with
    | encodeFragment => negb (hasByte "!()*" c)
    | _ => true
    end.

(** [unescape]: [None] is an [EscapeError] or an [InvalidHostError]. *)
Fixpoint unescape (s : string) (mode : encoding) : option string :=
  match s with
  | EmptyString => Some EmptyString
  | String c r =>
      if Ascii.eqb c "%" then
        match r with
        | String h1 (String h2 r2) =>
            if negb (ishex h1 && ishex h2) then None
            else
              let v := unhex h1 * 16 + unhex h2 in
              if match mode with
                 | encodeHost => (unhex h1 <? 8) && negb (v =? 0x25)
                 | encodeZone =>
                     negb (v =? 0x25) && negb (v =? 32)
                     && shouldEscape (ascii_of_N v) encodeHost
                 | _ => false
                 end
              then None
              else option_map (String (ascii_of_N v)) (unescape r2 mode)
        | _ => None
        end
      else if isHostMode mode && (byte c <? 0x80) && shouldEscape c encodeHost
      then None
      else option_map (String c) (unescape r mode)
  end.

Fixpoint escape (s : string) (mode : encoding) : string :=
  match s with
  | EmptyString => EmptyString
  | String c r =>
      if shouldEscape c mode
      then String "%" (String (upperhex (byte c / 16))
                         (String (upperhex (byte c mod 16)) (escape r mode)))
      else String c (escape r mode)
  end.

Fixpoint validEncoded (s : string) (mode : encoding) : bool :=
  match s with
  | EmptyString => true
  | String c r =>
      (hasByte "!$&'()*+,;=:@[]%" c || negb (shouldEscape c mode))
      && validEncoded r mode
  end.

Inductive schemeResult :=
| SchemeMissing                          (* "missing protocol scheme" *)
| NoScheme
| HasScheme (scheme rest : string).

(** [getScheme]; [atStart] is [i == 0]. *)
Fixpoint getScheme (atStart : bool) (rawURL : string) : schemeResult :=
  match rawURL with
  | EmptyString => NoScheme
  | String c r =>
      if isAlpha c || (negb atStart && (isDigit c || hasByte "+-." c)) then
        match getScheme false r with
        | HasScheme scheme rest => HasScheme (String c scheme) rest
        | other => other
        end
      else if Ascii.eqb c ":" then
        if atStart then SchemeMissing else HasScheme EmptyString r
      else NoScheme
  end.

Fixpoint stringContainsCTLByte (s : string) : bool :=
  match s with
  | EmptyString => false
  | String c r => (byte c <? 32) || (byte c =? 0x7f) || stringContainsCTLByte r
  end.

(** The text before the last [c] and the text after it. *)
Fixpoint lastCut (s : string) (c : ascii) : option (string * string) :=
  match s with
  | EmptyString => None
  | String d r =>
      match lastCut r c with
      | Some (a, b) => Some (String d a, b)
      | None => if Ascii.eqb d c then Some (EmptyString, r) else None
      end
  end.

(** The text before the first occurrence of [sub], and the text from it on. *)
Fixpoint cutAt (sub s : string) : option (string * string) :=
  if prefixb sub s then Some (EmptyString, s)
  else match s with
       | EmptyString => None
       | String c r => option_map (fun '(a, b) => (String c a, b)) (cutAt sub r)
       end.

Fixpoint allDigits (s : string) : bool :=
  match s with
  | EmptyString => true
  | String c r => isDigit c && allDigits r
  end.

Definition validOptionalPort (port : string) : bool :=
  match port with
  | EmptyString => true
  | String c r => Ascii.eqb c ":" && allDigits r
  end.

Definition parseHost (host : string) : option string :=
  if HasPrefix host "[" then
    match lastCut host "]" with
    | None => None
    | Some (literal, colonPort) =>
        if negb (validOptionalPort colonPort) then None
        else
          match cutAt "%25" literal with
          | Some (host1, zone) =>
              match unescape host1 encodeHost, unescape zone encodeZone,
                    unescape (String "]" colonPort) encodeHost with
              | Some h1, Some h2, Some h3 => Some (h1 +:+ h2 +:+ h3)
              | _, _, _ => None
              end
          | None => unescape host encodeHost
          end
    end
  else
    match lastCut host ":" with
    | Some (_, port) =>
        if negb (validOptionalPort (String ":" port)) then None
        else unescape host encodeHost
    | None => unescape host encodeHost
    end.

Fixpoint validUserinfo (s : string) : bool :=
  match s with
  | EmptyString => true
  | String c r =>
      (isAlpha c || isDigit c || hasByte "-._:~!$&'()*+,;=%@" c)
      && validUserinfo r
  end.

Definition parseAuthority (authority : string) : option (option Userinfo * string) :=
  match lastCut authority "@" with
  | None => option_map (fun host => (None, host)) (parseHost authority)
  | Some (userinfo, hostport) =>
      match parseHost hostport with
      | None => None
      | Some host =>
          if negb (validUserinfo userinfo) then None
          else
            let '(name, pass, found) := Cut userinfo ":" in
            match unescape name encodeUserPassword,
                  unescape pass encodeUserPassword with
            | Some name, Some pass =>
                Some (Some {| username := name; password := pass;
                              passwordSet := found |}, host)
            | _, _ => None
            end
      end
  end.

Fixpoint countByte (s : string) (c : ascii) : nat :=
  match s with
  | EmptyString => O
  | String d r => ((if Ascii.eqb d c then 1 else 0) + countByte r c)%nat
  end.

Definition HasSuffix (s suf : string) : bool :=
  String.eqb (sliceFrom (String.length s - String.length suf) s) suf
  && Nat.leb (String.length suf) (String.length s).

(** The text before the first [c] and the text from it on ([s[:i]],
    [s[i:]]); all of [s] and nothing when there is none. *)
Fixpoint splitAt (s : string) (c : ascii) : string * string :=
  match s with
  | EmptyString => (EmptyString, EmptyString)
  | String d r =>
      if Ascii.eqb d c then (EmptyString, s)
      else let '(a, b) := splitAt r c in (String d a, b)
  end.

(** [parse(rawURL, false)] *)
Definition parse (rawURL : string) : option URL :=
  if stringContainsCTLByte rawURL then None
  else if String.eqb rawURL "*" then
    Some {| Scheme := ""; Opaque := ""; User := None; Host := ""; Path := "*";
            RawPath := ""; OmitHost := false; ForceQuery := false;
            RawQuery := ""; Fragment := ""; RawFragment := "" |}
  else
    match getScheme true rawURL with
    | SchemeMissing => None
    | sr =>
        let '(scheme, rest) :=
          match sr with
          | HasScheme scheme rest => (ToLower scheme, rest)
          | _ => (EmptyString, rawURL)
          end in
        let '(rest, rawQuery, forceQuery) :=
          if HasSuffix rest "?" && Nat.eqb (countByte rest "?") 1
          then (sliceTo (String.length rest - 1) rest, EmptyString, true)
          else let '(a, b, _) := Cut rest "?" in (a, b, false) in
        if negb (HasPrefix rest "/") && negb (String.eqb scheme "") then
          Some {| Scheme := scheme; Opaque := rest; User := None; Host := "";
                  Path := ""; RawPath := ""; OmitHost := false;
                  ForceQuery := forceQuery; RawQuery := rawQuery;
                  Fragment := ""; RawFragment := "" |}
        else if negb (HasPrefix rest "/")
                && Contains (fst (fst (Cut rest "/"))) ":" then None
        else
          let hasAuthority :=
            (negb (String.eqb scheme "") || negb (HasPrefix rest "///"))
            && HasPrefix rest "//" in
          let '(authority, rest) :=
            if hasAuthority then splitAt (sliceFrom 2 rest) "/"
            else (EmptyString, rest) in
          match (if hasAuthority then parseAuthority authority
                 else Some (None, EmptyString)) with
          | None => None
          | Some (user, host) =>
              match unescape rest encodePath with
              | None => None
              | Some path =>
                  Some {| Scheme := scheme; Opaque := ""; User := user;
                          Host := host; Path := path;
                          RawPath := if String.eqb rest (escape path encodePath)
                                     then "" else rest;
                          OmitHost := negb hasAuthority
                                      && negb (String.eqb scheme "")
                                      && HasPrefix rest "/";
                          ForceQuery := forceQuery; RawQuery := rawQuery;
                          Fragment := ""; RawFragment := "" |}
              end
          end
    end.

(** [url.Parse] *)
Definition Parse (rawURL : string) : option URL :=
  let '(u, frag, _) := Cut rawURL "#" in
  match parse u with
  | None => None
  | Some url =>
      if String.eqb frag "" then Some url
      else
        match unescape frag encodeFragment with
        | None => None
        | Some fragment =>
            Some {| Scheme := Scheme url; Opaque := Opaque url; User := User url;
                    Host := Host url; Path := Path url; RawPath := RawPath url;
                    OmitHost := OmitHost url; ForceQuery := ForceQuery url;
                    RawQuery := RawQuery url; Fragment := fragment;
                    RawFragment := if String.eqb frag (escape fragment encodeFragment)
                                   then "" else frag |}
        end
  end.

Definition EscapedPath (u : URL) : string :=
  if negb (String.eqb (RawPath u) "") && validEncoded (RawPath u) encodePath
     && bool_decide (unescape (RawPath u) encodePath = Some (Path u))
  then RawPath u
  else if String.eqb (Path u) "*" then "*"
  else escape (Path u) encodePath.

Definition EscapedFragment (u : URL) : string :=
  if negb (String.eqb (RawFragment u) "") && validEncoded (RawFragment u) encodeFragment
     && bool_decide (unescape (RawFragment u) encodeFragment = Some (Fragment u))
  then RawFragment u
  else escape (Fragment u) encodeFragment.

Definition userString (ui : Userinfo) : string :=
  escape (username ui) encodeUserPassword
  +:+ (if passwordSet ui then ":" +:+ escape (password ui) encodeUserPassword
       else "").

(** [URL.String] *)
Definition String_ (u : URL) : string :=
  let head := if String.eqb (Scheme u) "" then "" else Scheme u +:+ ":" in
  let body :=
    if negb (String.eqb (Opaque u) "") then head +:+ Opaque u
    else
      let hasUser := match User u with Some _ => true | None => false end in
      let auth :=
        if negb (String.eqb (Scheme u) "") || negb (String.eqb (Host u) "") || hasUser
        then
          if OmitHost u && String.eqb (Host u) "" && negb hasUser then ""
          else
            (if negb (String.eqb (Host u) "") || negb (String.eqb (Path u) "")
                || hasUser then "//" else "")
            +:+ match User u with Some ui => userString ui +:+ "@" | None => "" end
            +:+ escape (Host u) encodeHost
        else "" in
      let path := EscapedPath u in
      let sep :=
        match path with
        | String c _ =>
            if negb (Ascii.eqb c "/") && negb (String.eqb (Host u) "") then "/" else ""
        | EmptyString => ""
        end in
      let buf := head +:+ auth +:+ sep in
      let dot :=
        if String.eqb buf "" && Contains (fst (fst (Cut path "/"))) ":"
        then "./" else "" in
      buf +:+ dot +:+ path in
  body
  +:+ (if ForceQuery u || negb (String.eqb (RawQuery u) "")
       then "?" +:+ RawQuery u else "")
  +:+ (if negb (String.eqb (Fragment u) "") then "#" +:+ EscapedFragment u else "").

End GoURL.

(** ** Part IV.  [internal/tools]: URL normalisation and the browser handle *)

(** [normalizeWebURL] of webfetch.go *)
Definition normalizeWebURL (rawURL : string) : string * option error :=
  let value := TrimSpace rawURL in
  if String.eqb value "" then ("", Some (ErrText "url is required"))
  else
    let value := if negb (Contains value "://") then "https://" +:+ value else value in
    match GoURL.Parse value with
    | None => ("", Some (ErrWrap "invalid url: " (ErrText "parse")))
    | Some parsed =>
        if negb (String.eqb (GoURL.Scheme parsed) "http")
           && negb (String.eqb (GoURL.Scheme parsed) "https")
        then ("", Some (ErrText "only http/https urls are supported"))
        else if String.eqb (GoURL.Host parsed) ""
        then ("", Some (ErrText "url host is required"))
        else (GoURL.String_ parsed, None)
    end.

(** [normalizeURL] of browser.go *)
Definition normalizeURL (rawURL : string) : string * option error :=
  let value := TrimSpace rawURL in
  if String.eqb value "" then ("", Some (ErrText "url is required"))
  else
    let value := if negb (Contains value "://") then "https://" +:+ value else value in
    match GoURL.Parse value with
    | None => ("", Some (ErrWrap "invalid url: " (ErrText "parse")))
    | Some parsed =>
        if negb (String.eqb (GoURL.Scheme parsed) "http")
           && negb (String.eqb (GoURL.Scheme parsed) "https")
        then ("", Some (ErrText "only http/https urls are supported"))
        else if String.eqb (GoURL.Host parsed) ""
        then ("", Some (ErrText "url host is required"))
        else (GoURL.String_ parsed, None)
    end.

(** *** browser.go

    Every method of [Browser] that touches the handle runs between
    [b.mu.Lock()] and [b.mu.Unlock()], so concurrent calls take effect one
    after the other, in the order they get the lock: a run of concurrent
    calls is a list of calls applied in that order. *)

Module Browser.

(** The Chromium processes of the host: [launches] counts the processes
    started so far (the count names the next one), [launchFails n] is the
    error of [chromedp.Run] on the [n]-th, [running] lists the processes
    alive, and [navigate] is what a page load and text extraction give. *)
Record Chrome := {
  launches : nat;
  launchFails : nat -> option error;
  running : list nat;
  navigate : string -> string * option error
}.

(** [tools.Browser]: [browserCtx] is the handle ([None] for nil), which
    stands for [allocCancel] and [browserCancel] too; [watchdog] tells
    whether the watchdog goroutine runs. *)
Record Browser := {
  idleTimeout : Z;
  browserCtx : option nat;
  lastUsed : Time;
  watchdog : bool
}.

Definition defaultIdleTimeout : Z := 5 * 60 * 1000000000.
Definition maxBodySize : nat := 4000.

Definition NewBrowser (idle : Z) : Browser :=
  {| idleTimeout := if (idle <=? 0)%Z then defaultIdleTimeout else idle;
     browserCtx := None; lastUsed := 0%Z; watchdog := true |}.

Definition spawn (c : Chrome) : nat * Chrome :=
  (launches c,
   {| launches := S (launches c); launchFails := launchFails c;
      running := launches c :: running c; navigate := navigate c |}).

(** [browserCancel(); allocCancel()] *)
Definition cancel (h : nat) (c : Chrome) : Chrome :=
  {| launches := launches c; launchFails := launchFails c;
     running := filter (fun p => p ≠ h) (running c); navigate := navigate c |}.

Definition setHandle (b : Browser) (ctx : option nat) (used : Time) : Browser :=
  {| idleTimeout := idleTimeout b; browserCtx := ctx; lastUsed := used;
     watchdog := watchdog b |}.

(** [Browser.acquireBrowser], [now] being the value of [time.Now()] *)
Definition acquireBrowser (now : Time) (b : Browser) (c : Chrome)
    : (option nat * option error) * Browser * Chrome :=
  match browserCtx b with
  | Some h => ((Some h, None), setHandle b (Some h) now, c)
  | None =>
      let '(h, c) := spawn c in
      match launchFails c h with
      | Some err => ((None, Some (ErrWrap "start browser: " err)), b, cancel h c)
      | None => ((Some h, None), setHandle b (Some h) now, c)
      end
  end.

Definition touch (now : Time) (b : Browser) : Browser :=
  setHandle b (browserCtx b) now.

Definition killLocked (b : Browser) (c : Chrome) : Browser * Chrome :=
  match browserCtx b with
  | None => (b, c)
  | Some h => (setHandle b None 0%Z, cancel h c)
  end.

Definition KillIfIdle (now : Time) (b : Browser) (c : Chrome)
    : bool * Browser * Chrome :=
  match browserCtx b with
  | None => (false, b, c)
  | Some _ =>
      if (now - lastUsed b <? idleTimeout b)%Z then (false, b, c)
      else let '(b, c) := killLocked b c in (true, b, c)
  end.

Definition Close (b : Browser) (c : Chrome) : Browser * Chrome :=
  let b := {| idleTimeout := idleTimeout b; browserCtx := browserCtx b;
              lastUsed := lastUsed b; watchdog := false |} in
  killLocked b c.

(** [Browser.Browse]; [now] is read by [acquireBrowser], [later] by [touch]. *)
Definition Browse (rawURL : string) (now later : Time) (b : Browser) (c : Chrome)
    : (string * option error) * Browser * Chrome :=
  match normalizeURL rawURL with
  | (_, Some err) => (("", Some err), b, c)
  | (target, None) =>
      match acquireBrowser now b c with
      | ((_, Some err), b, c) => (("", Some err), b, c)
      | ((_, None), b, c) =>
          let b := touch later b in
          match navigate c target with
          | (_, Some err) =>
              (("", Some (ErrWrap ("browse " +:+ target +:+ ": ") err)), b, c)
          | (body, None) =>
              let body := TrimSpace body in
              ((if maxBodySize <? String.length body
                then sliceTo maxBodySize body else body, None), b, c)
          end
      end
  end.

(** Concurrent [acquireBrowser] calls, in the order they get the lock;
    [nows] holds the clock value each one reads. *)
Fixpoint acquireAll (nows : list Time) (b : Browser) (c : Chrome)
    : list (option nat * option error) * Browser * Chrome :=
  match nows with
  | [] => ([], b, c)
  | now :: rest =>
      let '(r, b, c) := acquireBrowser now b c in
      let '(rs, b, c) := acquireAll rest b c in
      (r :: rs, b, c)
  end.

(** The calls that reach the handle, for runs that mix them. *)
Inductive Call :=
| CallAcquire (now : Time)
| CallTouch (now : Time)
| CallKillIfIdle (now : Time)
| CallClose
| CallBrowse (rawURL : string) (now later : Time).

Definition step (st : Browser * Chrome) (call : Call) : Browser * Chrome :=
  let '(b, c) := st in
  match call with
  | CallAcquire now => let '(_, b, c) := acquireBrowser now b c in (b, c)
  | CallTouch now => (touch now b, c)
  | CallKillIfIdle now => let '(_, b, c) := KillIfIdle now b c in (b, c)
  | CallClose => Close b c
  | CallBrowse rawURL now later =>
      let '(_, b, c) := Browse rawURL now later b c in (b, c)
  end.

Definition run (calls : list Call) (st : Browser * Chrome) : Browser * Chrome :=
  fold_left step calls st.

(** The handle [b] holds is the one process alive, and none is alive when
    it holds none. *)
Definition consistent (st : Browser * Chrome) : Prop :=
  running (snd st) = match browserCtx (fst st) with Some h => [h] | None => [] end.

(** How many of the next [n] launches fail before one succeeds, [from]
    being the number of the next launch. *)
Fixpoint failedStarts (fails : nat -> option error) (from n : nat) : nat :=
  match n with
  | O => O
  | S m =>
      match fails from with
      | None => O
      | Some _ => S (failedStarts fails (S from) m)
      end
  end.

End Browser.

(** [WebFetcher.Fetch] up to the request: [http] gives, for the normalised
    target, the error of the request or the text of the body after HTML
    stripping and trimming; [requests] records the targets requested. *)
Record Network := {
  requests : list string;
  http : string -> string * option error
}.

Definition Fetch (maxChars : nat) (rawURL : string) (net : Network)
    : (string * option error) * Network :=
  match normalizeWebURL rawURL with
  | (_, Some err) => (("", Some err), net)
  | (target, None) =>
      let net' := {| requests := requests net ++ [target]; http := http net |} in
      match http net target with
      | (_, Some err) => (("", Some err), net')
      | (text, None) =>
          if String.eqb text "" then
            (("", Some (ErrText ("fetch " +:+ target +:+ ": empty body text"))), net')
          else
            ((if maxChars <? String.length text then sliceTo maxChars text else text,
              None), net')
      end
  end.

(** ** Part V.  The rest of the code: loading, gateways, status, config *)

(** *** session_store.go: [NewSessionStore] and [loadSessions] *)

(** [filepath.Ext]: the suffix from the last dot of the last path element. *)
Fixpoint Ext (path : string) : string :=
  match path with
  | EmptyString => EmptyString
  | String c r =>
      if Ascii.eqb c "." && negb (hasByte r ".") && negb (hasByte r "/")
      then path else Ext r
  end.

(** What start-up meets outside the program: [json.Unmarshal] into a
    [Session], the files [os.ReadFile] cannot read, and whether
    [os.MkdirAll] and [os.ReadDir] fail. *)
Record LoadEnv := {
  unmarshal : string -> option Session;
  readFails : string -> bool;
  mkdirFails : bool;
  readDirFails : bool
}.

(** The session one directory entry contributes in [loadSessions], if any.
    The directory holds regular files only, so [entry.IsDir()] is false. *)
Definition parseEntry (env : LoadEnv) (d : gmap string string) (name : string)
    : option Session :=
  if negb (String.eqb (Ext name) ".json") then None
  else if readFails env name then None
  else
    match d !! name with
    | None => None
    | Some payload =>
        match unmarshal env payload with
        | None => None
        | Some session =>
            if String.eqb (TrimSpace (Key session)) "" then None else Some session
        end
    end.

Definition loadEntry (env : LoadEnv) (d : gmap string string)
    (sessions : gmap string Session) (name : string) : gmap string Session :=
  match parseEntry env d name with
  | Some session => <[Key session := session]> sessions
  | None => sessions
  end.

(** [os.ReadDir]: the entries sorted by file name. *)
Definition ReadDir (d : gmap string string) : list string :=
  merge_sort String.le (fst <$> map_to_list d).

(** [SessionStore.loadSessions] *)
Definition loadSessions (env : LoadEnv) (d : gmap string string)
    (sessions : gmap string Session) : option error * gmap string Session :=
  if readDirFails env then (Some (ErrSyscall "readdir"), sessions)
  else (None, fold_left (loadEntry env d) (ReadDir d) sessions).

(** [NewSessionStore]; the files under the storage root are [disk w], none
    when [os.MkdirAll] has just made the directory. *)
Definition NewSessionStore (env : LoadEnv) (root : string) (w : World)
    : option SessionStore * option error :=
  let root := TrimSpace root in
  if String.eqb root "" then (Some {| storage := root; sessions := ∅ |}, None)
  else if mkdirFails env then (None, Some (ErrSyscall "mkdir"))
  else
    match loadSessions env (disk w) ∅ with
    | (Some err, _) => (None, Some err)
    | (None, loaded) => (Some {| storage := root; sessions := loaded |}, None)
    end.

(** *** webfetch.go: [NewWebFetcher] *)

Record WebFetcher := {
  timeout : Z;
  maxChars : Z
}.

Definition NewWebFetcher (timeout maxChars : Z) : WebFetcher :=
  {| timeout := if (timeout <=? 0)%Z then (20 * 1000000000)%Z else timeout;
     maxChars := if (maxChars <=? 0)%Z then 4000%Z else maxChars |}.

(** [WebFetcher.Fetch] on the fetcher's own limit. *)
Definition fetchWith (f : WebFetcher) (rawURL : string) (net : Network)
    : (string * option error) * Network :=
  Fetch (Z.to_nat (maxChars f)) rawURL net.

(** *** gateway/telegram *)

Module Telegram.

(** [Gateway]: the allow list, a set of user identifiers. *)
Record Gateway := {
  allowList : gset Z
}.

(** [update.Message] of an update that has a message with a sender. *)
Record Incoming := {
  fromID : Z;
  chatID : Z;
  text : string
}.

(** [strconv.FormatInt(n, 10)] *)
Definition FormatInt (n : Z) : string := NilEmpty.string_of_int (Z.to_int n).

Definition isAllowed (g : Gateway) (userID : Z) : bool :=
  if Nat.eqb (size (allowList g)) 0 then false
  else bool_decide (userID ∈ allowList g).

(** The message [handleUpdate] hands to the processor. *)
Definition inbound (m : Incoming) (now : Time) : Message :=
  {| Channel := "telegram"; UserID := FormatInt (fromID m);
     ChatID := FormatInt (chatID m); Text := TrimSpace (text m);
     Timestamp := now |}.

(** [Gateway.handleUpdate]: the messages sent (chat and text), the agent and
    the world after.  [None] is an update that is nil or has no message or
    no sender.  A failed [SendMessage] is only logged. *)
Definition handleUpdate (g : Gateway) (update : option Incoming)
    (a : Agent) (w : World) : list (Z * string) * Agent * World :=
  match update with
  | None => ([], a, w)
  | Some m =>
      if negb (isAllowed g (fromID m)) then ([(chatID m, "Unauthorized.")], a, w)
      else if String.eqb (TrimSpace (text m)) "" then ([], a, w)
      else
        let '(now, w) := time_Now w in
        let '((reply, err), a, w) := Process (inbound m now) a w in
        let reply := match err with Some _ => "Request failed." | None => reply end in
        if String.eqb (TrimSpace reply) "" then ([], a, w)
        else ([(chatID m, reply)], a, w)
  end.

End Telegram.

(** *** gateway/whatsapp *)

Module WhatsApp.

(** [waProto.Message] as [extractText] reads it: [GetConversation()] and
    the [GetText()] of the extended text message, [None] when it has none. *)
Record ProtoMessage := {
  Conversation : string;
  ExtendedText : option string
}.

(** [events.Message]; [Sender] and [Chat] hold the [String()] of the two
    identifiers, [EventMessage] is [None] for a nil message. *)
Record Event := {
  IsFromMe : bool;
  Sender : string;
  Chat : string;
  EventTimestamp : Time;
  EventMessage : option ProtoMessage
}.

Definition extractText (message : option ProtoMessage) : string :=
  match message with
  | None => ""
  | Some m =>
      if negb (String.eqb (TrimSpace (Conversation m)) "")
      then TrimSpace (Conversation m)
      else
        match ExtendedText m with
        | Some text =>
            if negb (String.eqb (TrimSpace text) "") then TrimSpace text else ""
        | None => ""
        end
  end.

(** The message [handleEvent] hands to the processor. *)
Definition inbound (event : Event) : Message :=
  {| Channel := "whatsapp"; UserID := Sender event; ChatID := Chat event;
     Text := extractText (EventMessage event);
     Timestamp := EventTimestamp event |}.

(** [Gateway.handleEvent]: the messages sent (chat and text), the agent and
    the world after.  [None] is an event that is no [*events.Message].  A
    failed [SendMessage] is only logged. *)
Definition handleEvent (rawEvent : option Event) (a : Agent) (w : World)
    : list (string * string) * Agent * World :=
  match rawEvent with
  | None => ([], a, w)
  | Some event =>
      if IsFromMe event then ([], a, w)
      else if String.eqb (extractText (EventMessage event)) "" then ([], a, w)
      else
        let '((reply, err), a, w) := Process (inbound event) a w in
        let reply := match err with Some _ => "Request failed." | None => reply end in
        let reply := TrimSpace reply in
        if String.eqb reply "" then ([], a, w)
        else ([(Chat event, reply)], a, w)
  end.

End WhatsApp.

(** *** cmd/clawkangsar: the status tracker *)

Module StatusTracker.

Record gatewayRuntime := {
  Configured : bool;
  Running : bool;
  LastError : string;
  LastChange : Time
}.

(** [statusTracker], without the pointers to the agent and the browser. *)
Record statusTracker := {
  app : string;
  version : string;
  started : Time;
  gateways : gmap string gatewayRuntime
}.

(** [newStatusTracker]; [runners] are the names of the runners. *)
Definition newStatusTracker (app version : string) (runners : list string)
    (w : World) : statusTracker * World :=
  let '(gateways, w) :=
    fold_left
      (fun (st : gmap string gatewayRuntime * World) name =>
         let '(now, w) := time_Now (snd st) in
         (<[name := {| Configured := true; Running := false; LastError := "";
                       LastChange := now |}]> (fst st), w))
      runners (∅, w) in
  let '(now, w) := time_Now w in
  ({| app := app; version := version; started := now; gateways := gateways |}, w).

Definition withGateways (s : statusTracker) (g : gmap string gatewayRuntime)
    : statusTracker :=
  {| app := app s; version := version s; started := started s; gateways := g |}.

(** The record [setRunning] and [setError] work on: the one of [name], or a
    new one marked configured. *)
Definition stateOf (s : statusTracker) (name : string) : gatewayRuntime :=
  match gateways s !! name with
  | Some state => state
  | None => {| Configured := true; Running := false; LastError := "";
               LastChange := 0 |}
  end.

Definition setRunning (name : string) (running : bool) (now : Time)
    (s : statusTracker) : statusTracker :=
  let state := stateOf s name in
  withGateways s
    (<[name := {| Configured := Configured state; Running := running;
                  LastError := if running then "" else LastError state;
                  LastChange := now |}]> (gateways s)).

(** [setError]; [None] is a nil error, [Some text] one whose [Error()] is
    [text]. *)
Definition setError (name : string) (err : option string) (now : Time)
    (s : statusTracker) : statusTracker :=
  match err with
  | None => s
  | Some text =>
      let state := stateOf s name in
      withGateways s
        (<[name := {| Configured := Configured state; Running := Running state;
                      LastError := text; LastChange := now |}]> (gateways s))
  end.

Definition countIf (test : gatewayRuntime -> bool)
    (g : gmap string gatewayRuntime) : nat :=
  map_fold (fun _ gateway n => if test gateway then S n else n) 0 g.

Definition ready (s : statusTracker) : bool :=
  let configured := countIf Configured (gateways s) in
  let running := countIf Running (gateways s) in
  if Nat.eqb configured 0 then true else Nat.ltb 0 running.

(** [health.Server.handleReady]: the status code and the "status" field;
    [None] is a nil [ReadyFunc]. *)
Definition handleReady (ready : option bool) : nat * string :=
  match ready with
  | None | Some true => (200, "ready")
  | Some false => (503, "not_ready")
  end.

(** The calls that change the tracker after [newStatusTracker]. *)
Inductive Change :=
| SetRunning (name : string) (running : bool) (now : Time)
| SetError (name : string) (err : option string) (now : Time).

Definition change (s : statusTracker) (c : Change) : statusTracker :=
  match c with
  | SetRunning name running now => setRunning name running now s
  | SetError name err now => setError name err now s
  end.

Definition changes (cs : list Change) (s : statusTracker) : statusTracker :=
  fold_left change cs s.

(** The calls one runner goroutine of [main] makes on the tracker:
    [result] is what the gateway's [start] returned ([None] for nil or
    [context.Canceled]), [t0], [t1] and [t2] the clock values read. *)
Definition runnerChanges (name : string) (result : option string) (t0 t1 t2 : Time)
    : list Change :=
  match result with
  | Some err =>
      [SetRunning name true t0; SetRunning name false t1; SetError name (Some err) t2]
  | None => [SetRunning name true t0; SetRunning name false t1]
  end.

End StatusTracker.

(** *** internal/config *)

Module Config.

Record WhatsAppConfig := { waEnabled : bool; SessionDSN : string }.
Record TelegramConfig := { tgEnabled : bool; Token : string; AllowList : list Z }.
Record BrowserConfig := { IdleTimeoutSeconds : Z }.
Record StorageConfig := { SessionDir : string }.
Record HealthConfig := { hEnabled : bool; Host : string; Port : Z }.
Record ToolsConfig := { WebFetchTimeoutSeconds : Z; WebFetchMaxChars : Z }.

(** [config.Config]; a nil allow list and an empty one are both [[]]. *)
Record Config := {
  LogLevel : string;
  SystemPrompt : string;
  WhatsApp : WhatsAppConfig;
  Telegram : TelegramConfig;
  Browser : BrowserConfig;
  Storage : StorageConfig;
  Health : HealthConfig;
  Tools : ToolsConfig
}.

Definition Default : Config :=
  {| LogLevel := "INFO";
     SystemPrompt := defaultSystemPrompt;
     WhatsApp := {| waEnabled := false;
                    SessionDSN := "file:clawkangsar_whatsapp.db?_foreign_keys=on" |};
     Telegram := {| tgEnabled := false; Token := ""; AllowList := [] |};
     Browser := {| IdleTimeoutSeconds := 300 |};
     Storage := {| SessionDir := "data/sessions" |};
     Health := {| hEnabled := true; Host := "0.0.0.0"; Port := 18080 |};
     Tools := {| WebFetchTimeoutSeconds := 20; WebFetchMaxChars := 4000 |} |}.

Definition orDefault (value fallback : string) : string :=
  if String.eqb value "" then fallback else value.

Definition positiveOr (value fallback : Z) : Z :=
  if (value <=? 0)%Z then fallback else value.

(** [Config.Normalize] *)
Definition Normalize (c : Config) : Config :=
  {| LogLevel := orDefault (LogLevel c) (LogLevel Default);
     SystemPrompt := orDefault (SystemPrompt c) (SystemPrompt Default);
     WhatsApp := {| waEnabled := waEnabled (WhatsApp c);
                    SessionDSN := orDefault (SessionDSN (WhatsApp c))
                                            (SessionDSN (WhatsApp Default)) |};
     Telegram := Telegram c;
     Browser := {| IdleTimeoutSeconds :=
                     positiveOr (IdleTimeoutSeconds (Browser c))
                                (IdleTimeoutSeconds (Browser Default)) |};
     Storage := {| SessionDir := orDefault (SessionDir (Storage c))
                                           (SessionDir (Storage Default)) |};
     Health := {| hEnabled := hEnabled (Health c);
                  Host := orDefault (Host (Health c)) (Host (Health Default));
                  Port := positiveOr (Port (Health c)) (Port (Health Default)) |};
     Tools := {| WebFetchTimeoutSeconds :=
                   positiveOr (WebFetchTimeoutSeconds (Tools c))
                              (WebFetchTimeoutSeconds (Tools Default));
                 WebFetchMaxChars :=
                   positiveOr (WebFetchMaxChars (Tools c))
                              (WebFetchMaxChars (Tools Default)) |} |}.

(** What [os.ReadFile] gives for the configuration path. *)
Inductive fileRead :=
| NotExist
| ReadError (err : error)
| Content (payload : string).

(** [config.Load]; [decode payload c] is [json.Unmarshal(payload, &c)]: the
    configuration [c] with the fields of the payload written over it, or
    [None] for a payload that does not parse. *)
Definition Load (file : fileRead) (decode : string -> Config -> option Config)
    : option Config * option error :=
  match file with
  | NotExist => (Some Default, None)
  | ReadError err => (None, Some (ErrWrap "read config file: " err))
  | Content payload =>
      match decode payload Default with
      | None => (None, Some (ErrWrap "parse config file: " (ErrText "json")))
      | Some c => (Some (Normalize c), None)
      end
  end.

End Config.

(** ** Part VI.  The vocabulary of the properties *)

(** A byte that white-space trimming can remove: an ASCII white-space byte,
    or a byte of a multi-byte rune. *)
Definition spacey (c : ascii) : Prop := isSpace1 c = true \/ (128 <= byte c)%N.

(** [s] holds the byte ":". *)
Definition hasColon (s : string) : Prop := In ":"%char (list_ascii_of_string s).

(** Empty once trimmed. *)
Definition blank (s : string) : Prop := TrimSpace s = "".

(** The file of a session under the storage root. *)
Definition targetOf (sessionKey : string) : string :=
  sanitizeSessionFilename sessionKey +:+ ".json".

(** The operations on the temporary file of a [Save]. *)
Definition onTemp (op : FsOp) : Prop :=
  match op with
  | OpRename _ _ => False
  | OpCreate name | OpWrite name _ | OpChmod name | OpSync name | OpClose name
  | OpRemove name => exists r, name = tempName r
  end.

(** The three results of [AddMessage]. *)
Definition storeAfter (r : option error * SessionStore * World) : SessionStore :=
  snd (fst r).

Definition errorOf (r : option error * SessionStore * World) : option error :=
  fst (fst r).

Definition worldAfter (r : option error * SessionStore * World) : World := snd r.

(** Keys that name no file under the storage root: those with a path
    separator, and those that trim to "." or "..". *)
Definition unsafeKey (sessionKey : string) : Prop :=
  ContainsAny sessionKey "/\" = true
  \/ TrimSpace sessionKey = "." \/ TrimSpace sessionKey = "..".

(** The message [Process] keeps for an inbound message: the same channel,
    user and chat, the text trimmed, the timestamp kept unless it is zero. *)
Definition sameMessage (m n : Message) : Prop :=
  Channel n = Channel m /\ UserID n = UserID m /\ ChatID n = ChatID m
  /\ Text n = TrimSpace (Text m)
  /\ (Timestamp m <> 0%Z -> Timestamp n = Timestamp m).

Definition nonblank (m : Message) : Prop := TrimSpace (Text m) <> "".

(** The last [n] elements of [l]. *)
Definition keepLast {A} (n : nat) (l : list A) : list A := drop (length l - n) l.

(** The histories a message is appended to. *)
Definition reaches (k : string) (n : Message) : Prop :=
  storeKey k = "global" \/ storeKey k = storeKey (messageSessionKey n).

Definition agentAfter (r : (string * option error) * Agent * World) : Agent :=
  snd (fst r).

(** The replies [Process] builds itself. *)
Definition fixedReply (reply : string) : Prop :=
  reply = "" \/ reply = "Provide a URL after /fetch."
  \/ reply = "Provide a URL after /browse." \/ reply = "Browser tool unavailable."
  \/ (exists stats, reply = statusReply stats)
  \/ (exists channel size, reply = readyReply channel size).

(** [text] is what the fetch tool or the browser tool of [a] returned,
    without error, for some target. *)
Definition toolText (a : Agent) (text : string) : Prop :=
  exists tool target,
    (webFetch a = Some tool \/ browser a = Some tool) /\ tool target = (text, None).

(** A text of [n] bytes. *)
Fixpoint filler (n : nat) : string :=
  match n with
  | O => ""
  | S k => String "a" (filler k)
  end.

(** The address [normalizeWebURL] hands to [url.Parse]. *)
Definition candidate (rawURL : string) : string :=
  let value := TrimSpace rawURL in
  if Contains value "://" then value else "https://" +:+ value.

(** The operations on the file [name], short of renaming it. *)
Definition onFile (name : string) (op : FsOp) : Prop :=
  match op with
  | OpRename _ _ => False
  | OpCreate n | OpWrite n _ | OpChmod n | OpSync n | OpClose n | OpRemove n =>
      n = name
  end.

(** File names [Save] refuses: empty, ".", "..", or with a separator. *)
Definition badFilename (filename : string) : Prop :=
  filename = "" \/ filename = "." \/ filename = ".."
  \/ ContainsAny filename "/\" = true.

(** The files under the storage root hold the store: each session has its
    key as [Key], a key that is not blank, and a file that decodes to it;
    every ".json" file is the file of a session; no two sessions share a
    file. *)
Definition persisted (env : LoadEnv) (s : SessionStore) (d : gmap string string)
    : Prop :=
  (forall k session,
     sessions s !! k = Some session ->
     Key session = k /\ TrimSpace k <> ""
     /\ exists payload,
          d !! targetOf k = Some payload /\ unmarshal env payload = Some session)
  /\ (forall name,
        Ext name = ".json" -> is_Some (d !! name) ->
        exists k, is_Some (sessions s !! k) /\ name = targetOf k)
  /\ (forall k1 k2,
        is_Some (sessions s !! k1) -> is_Some (sessions s !! k2) ->
        targetOf k1 = targetOf k2 -> k1 = k2).

(** The counts of [Stats] once [msg] is remembered: the buffer holds one
    more message, up to its bound; the store has the session of the message
    and the global one; it holds the message once, or twice when the
    message has a session of its own. *)
Definition countsWith (msg : Message) (a : Agent) : AgentStats :=
  {| InMemoryMessages := Nat.min (maxMemory a) (S (length (memory a)));
     StoredSessions :=
       match sessionStore a with
       | Some s =>
           size ({["global"]} ∪ {[storeKey (messageSessionKey msg)]}
                 ∪ dom (sessions s) : gset string)
       | None => 0
       end;
     StoredMessages :=
       match sessionStore a with
       | Some s =>
           TotalMessageCount s
           + (if decide (messageSessionKey msg = "global") then 1 else 2)
       | None => 0
       end |}.

(** The bytes of a decimal number with a sign, as [strconv.FormatInt]
    writes one. *)
Definition decimalByte (c : ascii) : Prop := hasByte "-0123456789" c = true.

(** No call of a [Save] fails: [os.CreateTemp] works and draws a free
    name within its attempts, and the write, chmod, sync, close and rename
    work. *)
Definition noFault (f : SaveFaults) (d : gmap string string) : Prop :=
  createFails f = false
  /\ (exists r, In r (take createTempTries (rands f)) /\ d !! tempName r = None)
  /\ writeFails f = None /\ chmodFails f = false /\ syncFails f = false
  /\ closeFails f = false /\ renameFails f = false.

(** The byte [sanitizeSessionFilename] writes for a byte of the key. *)
Definition colonToUnderscore (c : ascii) : ascii :=
  if Ascii.eqb c ":" then "_"%char else c.

(** ** Part VII.  Properties *)

(** *** Strings *)

Lemma isSpace2_high c1 c2 :
  isSpace2 c1 c2 = true -> (128 <= byte c1)%N /\ (128 <= byte c2)%N.
Proof.
  unfold isSpace2. rewrite andb_true_iff, orb_true_iff, !N.eqb_eq. lia.
Qed.

Lemma isSpace3_high c1 c2 c3 :
  isSpace3 c1 c2 c3 = true ->
  (128 <= byte c1)%N /\ (128 <= byte c2)%N /\ (128 <= byte c3)%N.
Proof.
  unfold isSpace3.
  rewrite !orb_true_iff, !andb_true_iff, !orb_true_iff, !andb_true_iff,
    !N.eqb_eq, !N.leb_le.
  lia.
Qed.

Lemma strip_decomp backwards n : forall l : list ascii,
  length l <= n ->
  exists pre, l = pre ++ strip backwards l /\ Forall spacey pre.
Proof.
  induction n as [|n IH]; intros l Hl.
  - destruct l; [|simpl in Hl; lia]. exists []. split; [reflexivity|constructor].
  - destruct l as [|c1 r1]; [exists []; split; [reflexivity|constructor]|].
    simpl in Hl. simpl.
    destruct (isSpace1 c1) eqn:E1.
    { destruct (IH r1) as (pre & Hpre & Hsp); [lia|].
      exists (c1 :: pre). split; [simpl; congruence|].
      constructor; [left; exact E1|exact Hsp]. }
    destruct r1 as [|c2 r2]; [exists []; split; [reflexivity|constructor]|].
    simpl in Hl.
    destruct (if backwards then isSpace2 c2 c1 else isSpace2 c1 c2) eqn:E2.
    { destruct (IH r2) as (pre & Hpre & Hsp); [lia|].
      exists (c1 :: c2 :: pre). split; [simpl; congruence|].
      assert (H : (128 <= byte c1)%N /\ (128 <= byte c2)%N)
        by (destruct backwards; apply isSpace2_high in E2; tauto).
      constructor; [right; tauto|]. constructor; [right; tauto|]. exact Hsp. }
    destruct r2 as [|c3 r3]; [exists []; split; [reflexivity|constructor]|].
    simpl in Hl.
    destruct (if backwards then isSpace3 c3 c2 c1 else isSpace3 c1 c2 c3) eqn:E3.
    { destruct (IH r3) as (pre & Hpre & Hsp); [lia|].
      exists (c1 :: c2 :: c3 :: pre). split; [simpl; congruence|].
      assert (H : (128 <= byte c1)%N /\ (128 <= byte c2)%N /\ (128 <= byte c3)%N)
        by (destruct backwards; apply isSpace3_high in E3; tauto).
      constructor; [right; tauto|]. constructor; [right; tauto|].
      constructor; [right; tauto|]. exact Hsp. }
    exists []. split; [reflexivity|constructor].
Qed.

Lemma TrimSpace_decomp s :
  exists pre post,
    list_ascii_of_string s = pre ++ list_ascii_of_string (TrimSpace s) ++ post
    /\ Forall spacey pre /\ Forall spacey post.
Proof.
  unfold TrimSpace, trimRight, trimLeft.
  rewrite list_ascii_of_string_of_list_ascii.
  set (l := list_ascii_of_string s).
  destruct (strip_decomp false (length l) l) as (pre & Hpre & Hsp); [lia|].
  set (m := strip false l) in *.
  destruct (strip_decomp true (length (rev m)) (rev m)) as (post & Hpost & Hsq); [lia|].
  exists pre, (rev post). split; [|split; [exact Hsp|]].
  - rewrite Hpre at 1. f_equal.
    rewrite <- (rev_involutive m) at 1. rewrite Hpost at 1.
    now rewrite rev_app_distr.
  - apply List.Forall_forall. intros c Hc. rewrite <- in_rev in Hc.
    rewrite List.Forall_forall in Hsq. now apply Hsq.
Qed.

(** Trimming keeps every byte that is neither white space nor part of a
    multi-byte rune. *)
Lemma TrimSpace_keeps c s :
  ~ spacey c ->
  In c (list_ascii_of_string s) -> In c (list_ascii_of_string (TrimSpace s)).
Proof.
  intros Hc Hin.
  destruct (TrimSpace_decomp s) as (pre & post & Heq & Hp & Hq).
  rewrite Heq in Hin. rewrite !in_app_iff in Hin.
  rewrite List.Forall_forall in Hp, Hq.
  destruct Hin as [H|[H|H]]; [exfalso; eauto|exact H|exfalso; eauto].
Qed.

Lemma list_ascii_app a b :
  list_ascii_of_string (a +:+ b) = list_ascii_of_string a ++ list_ascii_of_string b.
Proof. induction a as [|c a IH]; simpl; [reflexivity|now rewrite <- IH]. Qed.

Lemma colon_not_spacey : ~ spacey ":"%char.
Proof. intros [H|H]; [discriminate H|]. vm_compute in H. now apply H. Qed.

Lemma storeKey_colon k : hasColon k -> storeKey k = TrimSpace k /\ storeKey k <> "global".
Proof.
  intros H. apply (TrimSpace_keeps _ _ colon_not_spacey) in H.
  unfold storeKey. destruct (String.eqb_spec (TrimSpace k) "") as [E|E].
  - rewrite E in H. destruct H.
  - split; [reflexivity|]. intros E'. rewrite E' in H. simpl in H.
    repeat (destruct H as [H|H]; [discriminate H|]). exact H.
Qed.

Lemma length_append a b :
  String.length (a +:+ b) = String.length a + String.length b.
Proof. induction a as [|c a IH]; simpl; [reflexivity|now rewrite <- IH]. Qed.

Lemma length_sliceTo n : forall s,
  String.length (sliceTo n s) = Nat.min n (String.length s).
Proof.
  induction n as [|n IH]; intros [|c s]; simpl; try reflexivity.
  now rewrite IH.
Qed.

Lemma sliceTo_sliceFrom n : forall s, sliceTo n s +:+ sliceFrom n s = s.
Proof.
  induction n as [|n IH]; intros [|c s]; simpl; try reflexivity.
  change (String c (sliceTo n s +:+ sliceFrom n s) = String c s).
  now rewrite IH.
Qed.

(** *** Session keys *)

(** C4, as the claim states it, fails: a channel of one space is not empty,
    yet the key is not [channel:chat]; the user identifier is trimmed. *)
Lemma messageSessionKey_blank_channel :
  let msg := {| Channel := " "; UserID := " bob "; ChatID := "42";
                Text := "hi"; Timestamp := 0 |} in
  ~ (Channel msg <> "" /\ ChatID msg <> "" ->
     messageSessionKey msg = Channel msg +:+ ":" +:+ ChatID msg)
  /\ messageSessionKey msg = "user:bob".
Proof.
  split; [|reflexivity].
  intros H. assert (E : messageSessionKey
    {| Channel := " "; UserID := " bob "; ChatID := "42"; Text := "hi";
       Timestamp := 0 |} = " :42") by (apply H; split; discriminate).
  vm_compute in E. discriminate E.
Qed.

(** C4 (amended).  The derived session key is [channel:chat] when channel
    and chat identifier are both non-blank (non-empty once trimmed);
    otherwise it is "user:" followed by the trimmed user identifier when
    that is non-blank; otherwise it is "global". *)
Theorem messageSessionKey_cases (msg : Message) :
  (~ blank (Channel msg) /\ ~ blank (ChatID msg) ->
   messageSessionKey msg = Channel msg +:+ ":" +:+ ChatID msg)
  /\ ((blank (Channel msg) \/ blank (ChatID msg)) /\ ~ blank (UserID msg) ->
      messageSessionKey msg = "user:" +:+ TrimSpace (UserID msg))
  /\ ((blank (Channel msg) \/ blank (ChatID msg)) /\ blank (UserID msg) ->
      messageSessionKey msg = "global").
Proof.
  unfold messageSessionKey, blank.
  destruct (String.eqb_spec (TrimSpace (Channel msg)) "") as [Ec|Ec];
    destruct (String.eqb_spec (TrimSpace (ChatID msg)) "") as [Eh|Eh];
    destruct (String.eqb_spec (TrimSpace (UserID msg)) "") as [Eu|Eu];
    simpl; repeat split; intros H; try reflexivity; exfalso; tauto.
Qed.

Lemma messageSessionKey_cases_witness :
  messageSessionKey {| Channel := "telegram"; UserID := "7"; ChatID := "42";
                       Text := "hi"; Timestamp := 0 |} = "telegram:42"
  /\ messageSessionKey {| Channel := ""; UserID := " 7 "; ChatID := "42";
                          Text := "hi"; Timestamp := 0 |} = "user:7"
  /\ messageSessionKey {| Channel := "telegram"; UserID := " "; ChatID := "";
                          Text := "hi"; Timestamp := 0 |} = "global".
Proof.
  split; [|split].
  - apply (messageSessionKey_cases
             {| Channel := "telegram"; UserID := "7"; ChatID := "42";
                Text := "hi"; Timestamp := 0 |}).
    split; intros H; vm_compute in H; discriminate H.
  - apply (messageSessionKey_cases
             {| Channel := ""; UserID := " 7 "; ChatID := "42";
                Text := "hi"; Timestamp := 0 |}).
    split; [left; reflexivity|intros H; vm_compute in H; discriminate H].
  - apply (messageSessionKey_cases
             {| Channel := "telegram"; UserID := " "; ChatID := "";
                Text := "hi"; Timestamp := 0 |}).
    split; [right; reflexivity|reflexivity].
Defined.

Lemma messageSessionKey_shape msg :
  messageSessionKey msg = "global" \/ hasColon (messageSessionKey msg).
Proof.
  unfold messageSessionKey, hasColon.
  destruct (negb _ && negb _); [right|destruct (negb _); [right|left; reflexivity]].
  - rewrite !list_ascii_app. rewrite !in_app_iff. right. left. simpl. tauto.
  - rewrite list_ascii_app. rewrite in_app_iff. left. simpl. tauto.
Qed.

(** The key depends on channel, user and chat identifier only. *)
Lemma messageSessionKey_ext m n :
  Channel n = Channel m -> UserID n = UserID m -> ChatID n = ChatID m ->
  messageSessionKey n = messageSessionKey m.
Proof. unfold messageSessionKey. now intros -> -> ->. Qed.

(** *** Truncation *)

Lemma truncate_short text max :
  String.length text <= max -> truncate text max = text.
Proof.
  intros H. unfold truncate.
  destruct (Nat.leb_spec (String.length text) max); [reflexivity|lia].
Qed.

Lemma truncate_long text max :
  max < String.length text ->
  truncate text max = sliceTo max text +:+ "..."
  /\ String.length (sliceTo max text) = max
  /\ String.length (truncate text max) = max + 3.
Proof.
  intros H. unfold truncate.
  destruct (Nat.leb_spec (String.length text) max); [lia|].
  rewrite length_append, length_sliceTo. simpl. repeat split; lia.
Qed.

(** *** The session store *)

Lemma last_byte_append a b x :
  last (list_ascii_of_string b) = Some x ->
  last (list_ascii_of_string (a +:+ b)) = Some x.
Proof.
  intros H. induction a as [|c a IH]; [exact H|].
  change (last (c :: list_ascii_of_string (a +:+ b)) = Some x).
  destruct (list_ascii_of_string (a +:+ b)); [discriminate IH|exact IH].
Qed.

(** A temporary file is never the file of a session: the names end
    differently. *)
Lemma tempName_not_target r base : tempName r <> base +:+ ".json".
Proof.
  unfold tempName. intros H.
  apply (f_equal (fun s => last (list_ascii_of_string s))) in H.
  rewrite (last_byte_append "session-" _ "p"%char) in H
    by (apply last_byte_append; reflexivity).
  rewrite (last_byte_append base _ "n"%char) in H by reflexivity.
  discriminate H.
Qed.

Lemma applyOp_onTemp (d : gmap string string) op base :
  onTemp op -> applyOp d op !! (base +:+ ".json") = d !! (base +:+ ".json").
Proof.
  destruct op; simpl; try tauto; intros [r ->]; try reflexivity.
  - apply lookup_insert_ne, tempName_not_target.
  - destruct (d !! tempName r); [|reflexivity].
    apply lookup_insert_ne, tempName_not_target.
  - apply lookup_delete_ne, tempName_not_target.
Qed.

Lemma applyOps_onTemp ops base : forall d : gmap string string,
  Forall onTemp ops ->
  applyOps d ops !! (base +:+ ".json") = d !! (base +:+ ".json").
Proof.
  induction ops as [|op ops IH]; intros d H; [reflexivity|].
  inversion H; subst. unfold applyOps in *. simpl.
  rewrite IH by assumption. now apply applyOp_onTemp.
Qed.

Lemma CreateTemp_fresh f (d : gmap string string) tmp :
  CreateTemp f d = Some tmp -> (exists r, tmp = tempName r) /\ d !! tmp = None.
Proof.
  unfold CreateTemp. destruct (createFails f); [discriminate|].
  destruct (List.find _ _) as [r|] eqn:E; [|discriminate].
  intros [= <-]. apply List.find_some in E as [_ E].
  apply bool_decide_eq_true in E. eauto.
Qed.

Lemma writeSnapshot_spec f (d : gmap string string) payload target err ops :
  writeSnapshot f d payload target = (err, ops) ->
  match err with
  | Some _ => Forall onTemp ops
  | None =>
      exists tmp,
        (exists r, tmp = tempName r) /\ d !! tmp = None
        /\ ops = [OpCreate tmp; OpWrite tmp payload; OpChmod tmp; OpSync tmp;
                  OpClose tmp; OpRename tmp target]
  end.
Proof.
  unfold writeSnapshot.
  destruct (CreateTemp f d) as [tmp|] eqn:E.
  2: { intros [= <- <-]. constructor. }
  apply CreateTemp_fresh in E as [Hr Hfree].
  destruct (writeFails f), (chmodFails f), (syncFails f), (closeFails f),
    (renameFails f), (removeFails f); intros [= <- <-];
    solve [ repeat (constructor; [exact Hr|]); constructor
          | exists tmp; auto ].
Qed.

Lemma rename_commits (d : gmap string string) tmp payload target :
  d !! tmp = None ->
  applyOps d [OpCreate tmp; OpWrite tmp payload; OpChmod tmp; OpSync tmp;
              OpClose tmp; OpRename tmp target]
  = <[target := payload]> d.
Proof.
  intros Hfree. unfold applyOps. simpl.
  rewrite lookup_insert_eq. simpl. rewrite lookup_insert_eq.
  change ("" +:+ payload) with payload.
  now rewrite insert_insert_eq, delete_insert_eq, delete_id.
Qed.

Lemma snapshot_eta session :
  {| Key := Key session; Messages := Messages session;
     Created := Created session; Updated := Updated session |} = session.
Proof. now destruct session. Qed.

(** The append leaves the files alone and changes one session. *)
Lemma appendMessage_spec key msg s w :
  let s1 := fst (appendMessage key msg s w) in
  let w1 := snd (appendMessage key msg s w) in
  storage s1 = storage s
  /\ (exists session,
        sessions s1 = <[key := session]> (sessions s)
        /\ Messages session
           = match sessions s !! key with
             | Some old => Messages old
             | None => []
             end ++ [msg])
  /\ disk w1 = disk w /\ saves w1 = saves w /\ faults w1 = faults w
  /\ marshal w1 = marshal w.
Proof.
  unfold appendMessage.
  destruct (sessions s !! key) as [old|]; simpl; repeat split; eauto.
Qed.

Lemma AddMessage_unfold sessionKey msg s w :
  AddMessage sessionKey msg s w
  = let s1 := fst (appendMessage (storeKey sessionKey) msg s w) in
    let w1 := snd (appendMessage (storeKey sessionKey) msg s w) in
    (fst (Save (storeKey sessionKey) s1 w1), s1,
     snd (Save (storeKey sessionKey) s1 w1)).
Proof.
  unfold AddMessage. destruct (appendMessage _ _ _ _) as [s1 w1]. simpl.
  now destruct (Save _ _ _).
Qed.

(** What [History] returns after an [AddMessage]. *)
Lemma History_AddMessage sessionKey msg s w k :
  History k (storeAfter (AddMessage sessionKey msg s w))
  = if decide (storeKey k = storeKey sessionKey)
    then History sessionKey s ++ [msg] else History k s.
Proof.
  rewrite AddMessage_unfold. unfold storeAfter. simpl.
  destruct (appendMessage_spec (storeKey sessionKey) msg s w)
    as (_ & (session & Hs & Hm) & _).
  unfold History. rewrite Hs.
  destruct (decide (storeKey k = storeKey sessionKey)) as [->|Hne].
  - now rewrite lookup_insert_eq.
  - now rewrite lookup_insert_ne.
Qed.

Lemma total_comm (z1 z2 : Session) (y : nat) :
  y + length (Messages z2) + length (Messages z1)
  = y + length (Messages z1) + length (Messages z2).
Proof. lia. Qed.

Lemma total_insert (m : gmap string Session) k new :
  map_fold (fun _ session total => total + length (Messages session)) 0 (<[k := new]> m)
  + match m !! k with Some old => length (Messages old) | None => 0 end
  = map_fold (fun _ session total => total + length (Messages session)) 0 m
    + length (Messages new).
Proof.
  destruct (m !! k) as [old|] eqn:E.
  - rewrite <- insert_delete_eq.
    rewrite map_fold_insert_L;
      [|intros; apply total_comm|apply lookup_delete_eq].
    rewrite (map_fold_delete_L _ _ k old m);
      [|intros; apply total_comm|exact E].
    lia.
  - rewrite map_fold_insert_L; [|intros; apply total_comm|exact E]. lia.
Qed.

(** Every [AddMessage] adds one stored message. *)
Lemma AddMessage_total sessionKey msg s w :
  TotalMessageCount (storeAfter (AddMessage sessionKey msg s w))
  = S (TotalMessageCount s).
Proof.
  rewrite AddMessage_unfold. unfold storeAfter, TotalMessageCount. simpl.
  destruct (appendMessage_spec (storeKey sessionKey) msg s w)
    as (_ & (session & Hs & Hm) & _).
  rewrite Hs.
  pose proof (total_insert (sessions s) (storeKey sessionKey) session) as H.
  rewrite Hm, length_app in H. simpl in H.
  destruct (sessions s !! storeKey sessionKey); simpl in H; lia.
Qed.

Lemma Save_disk_elsewhere sessionKey s w :
  storage s = "" -> Save sessionKey s w = (None, w).
Proof. intros H. unfold Save, SaveOps. now rewrite H. Qed.

(** C10.  A blank session key (empty once trimmed) is the key "global":
    [AddMessage] appends the message to the history of "global" and to no
    other, [History] of the blank key is the history of "global" on every
    store, and the stored keys are those before plus "global". *)
Theorem blank_key_is_global sessionKey msg s w :
  TrimSpace sessionKey = "" ->
  let s' := storeAfter (AddMessage sessionKey msg s w) in
  History "global" s' = History "global" s ++ [msg]
  /\ (forall k, storeKey k <> "global" -> History k s' = History k s)
  /\ (forall store, History sessionKey store = History "global" store)
  /\ dom (sessions s') = {["global"]} ∪ dom (sessions s).
Proof.
  intros Hb. simpl.
  assert (Hk : storeKey sessionKey = "global")
    by (unfold storeKey; now rewrite Hb).
  assert (Hg : storeKey "global" = "global") by reflexivity.
  assert (Hh : forall store, History sessionKey store = History "global" store)
    by (intros store; unfold History; now rewrite Hk, Hg).
  split; [|split; [|split; [exact Hh|]]].
  - rewrite History_AddMessage, Hk, Hg, Hh. now destruct (decide _).
  - intros k Hne. rewrite History_AddMessage, Hk. now destruct (decide _).
  - rewrite AddMessage_unfold. unfold storeAfter. simpl.
    destruct (appendMessage_spec (storeKey sessionKey) msg s w)
      as (_ & (session & Hs & _) & _).
    rewrite Hs, Hk. apply dom_insert_L.
Qed.

Lemma blank_key_is_global_witness :
  let s := {| storage := ""; sessions := ∅ |} in
  let w := {| disk := ∅; ticks := 0; clock := fun n => Z.of_nat n; saves := 0;
              faults := fun _ => {| rands := []; createFails := false;
                                    writeFails := None; chmodFails := false;
                                    syncFails := false; closeFails := false;
                                    renameFails := false; removeFails := false |};
              marshal := fun _ => None |} in
  let msg := {| Channel := ""; UserID := ""; ChatID := ""; Text := "hi";
                Timestamp := 1 |} in
  History "global" (storeAfter (AddMessage "  " msg s w)) = [msg].
Proof.
  intros s w msg.
  apply (blank_key_is_global "  " msg s w). reflexivity.
Defined.

(** *** Session keys and file names *)

Lemma ContainsAny_In s chars :
  ContainsAny s chars = true
  <-> exists c, In c (list_ascii_of_string s) /\ hasByte chars c = true.
Proof.
  induction s as [|c s IH]; simpl.
  - split; [discriminate|intros (c & [] & _)].
  - rewrite orb_true_iff, IH. split.
    + intros [H|(x & Hx & Hc)]; [exists c; tauto|exists x; tauto].
    + intros (x & [->|Hx] & Hc); [tauto|right; eauto].
Qed.

Lemma replace_colon s :
  ReplaceAll s ":" "_"
  = string_of_list_ascii
      (map (fun c => if Ascii.eqb c ":" then "_"%char else c)
           (list_ascii_of_string s)).
Proof.
  unfold ReplaceAll. induction s as [|c s IH]; [reflexivity|].
  cbn [replaceFrom list_ascii_of_string map string_of_list_ascii prefixb
         String.length Nat.pred].
  rewrite andb_true_r, (Ascii.eqb_sym ":" c), <- IH.
  destruct (Ascii.eqb c ":"); reflexivity.
Qed.

Lemma string_of_list_ascii_inj_In c l :
  In c (list_ascii_of_string (string_of_list_ascii l)) <-> In c l.
Proof. now rewrite list_ascii_of_string_of_list_ascii. Qed.

(** The file name of a key holds no colon, and holds every other byte of
    the key that trimming keeps. *)
Lemma sanitize_no_colon key : ~ hasColon (sanitizeSessionFilename key).
Proof.
  unfold hasColon, sanitizeSessionFilename. rewrite replace_colon.
  rewrite string_of_list_ascii_inj_In, in_map_iff.
  intros (c & Hc & _). destruct (Ascii.eqb_spec c ":"); [discriminate Hc|auto].
Qed.

Lemma sanitize_keeps c key :
  ~ spacey c -> c <> ":"%char ->
  In c (list_ascii_of_string key) ->
  In c (list_ascii_of_string (sanitizeSessionFilename key)).
Proof.
  intros Hs Hc Hin. unfold sanitizeSessionFilename. rewrite replace_colon.
  rewrite string_of_list_ascii_inj_In, in_map_iff.
  exists c. split; [|now apply TrimSpace_keeps].
  destruct (Ascii.eqb_spec c ":"); [contradiction|reflexivity].
Qed.

Lemma separator_plain c :
  hasByte "/\" c = true -> ~ spacey c /\ c <> ":"%char.
Proof.
  simpl. rewrite !orb_true_iff, !Ascii.eqb_eq.
  intros [->|[->|H]]; [| |discriminate H];
    (split; [intros [H|H]; [discriminate H|vm_compute in H; now apply H]
            |discriminate]).
Qed.

Lemma TrimSpace_nonempty c s :
  ~ spacey c -> In c (list_ascii_of_string s) -> storeKey s = TrimSpace s.
Proof.
  intros Hc Hin. apply (TrimSpace_keeps _ _ Hc) in Hin.
  unfold storeKey. destruct (String.eqb_spec (TrimSpace s) "") as [E|E]; [|reflexivity].
  rewrite E in Hin. destruct Hin.
Qed.

Lemma unsafeKey_invalid sessionKey :
  unsafeKey sessionKey ->
  invalidFilename (sanitizeSessionFilename (storeKey sessionKey)) = true.
Proof.
  intros [H|[H|H]].
  - apply ContainsAny_In in H as (c & Hin & Hc).
    destruct (separator_plain c Hc) as [Hs Hne].
    rewrite (TrimSpace_nonempty c) by assumption.
    unfold invalidFilename. rewrite !orb_true_iff. right.
    apply ContainsAny_In. exists c. split; [|exact Hc].
    apply sanitize_keeps; try assumption. now apply TrimSpace_keeps.
  - unfold storeKey. rewrite H. reflexivity.
  - unfold storeKey. rewrite H. reflexivity.
Qed.

(** C8, as the claim states it, fails: a key with a path separator is
    refused with an error, yet its session was created and the message
    appended before. *)
Lemma AddMessage_invalid_key_has_effect :
  let s := {| storage := "data"; sessions := ∅ |} in
  let w := {| disk := ∅; ticks := 0; clock := fun n => Z.of_nat n; saves := 0;
              faults := fun _ => {| rands := [7]; createFails := false;
                                    writeFails := None; chmodFails := false;
                                    syncFails := false; closeFails := false;
                                    renameFails := false; removeFails := false |};
              marshal := fun session => Some (Key session) |} in
  let msg := {| Channel := "a/b"; UserID := ""; ChatID := "1"; Text := "hi";
                Timestamp := 1 |} in
  let r := AddMessage "a/b:1" msg s w in
  errorOf r = Some ErrInvalid
  /\ SessionCount s = 0 /\ SessionCount (storeAfter r) = 1
  /\ TotalMessageCount s = 0 /\ TotalMessageCount (storeAfter r) = 1
  /\ sessions (storeAfter r) <> sessions s.
Proof.
  repeat split; try (vm_compute; reflexivity).
  intros H. apply (f_equal size) in H. vm_compute in H. discriminate H.
Qed.

(** *** The agent: buffer and fan-out *)

Lemma normalize_same msg w :
  sameMessage msg (fst (normalize msg w))
  /\ Text (fst (normalize msg w)) = TrimSpace (Text msg).
Proof.
  unfold normalize, sameMessage.
  destruct (Z.eqb_spec (Timestamp msg) 0) as [E|E]; simpl; repeat split; tauto.
Qed.

Lemma keepLast_length {A} n (l : list A) : length (keepLast n l) = Nat.min n (length l).
Proof. unfold keepLast. rewrite length_drop. lia. Qed.

Lemma keepLast_short {A} n (l : list A) : length l <= n -> keepLast n l = l.
Proof. intros H. unfold keepLast. now replace (length l - n) with 0 by lia. Qed.

Lemma keepLast_app {A} n (l k : list A) :
  keepLast n (keepLast n l ++ k) = keepLast n (l ++ k).
Proof.
  destruct (Nat.le_gt_cases (length l) n) as [H|H].
  - now rewrite (keepLast_short n l).
  - unfold keepLast at 1 3. rewrite !length_app, keepLast_length.
    unfold keepLast.
    replace (Nat.min n (length l) + length k - n) with (length k) by lia.
    destruct (Nat.le_gt_cases (length k) n) as [Hk|Hk].
    + rewrite (drop_app_le (drop _ l)) by (rewrite length_drop; lia).
      rewrite (drop_app_le l) by lia.
      rewrite drop_drop. f_equal. f_equal. lia.
    + rewrite (drop_app_ge (drop _ l)) by (rewrite length_drop; lia).
      rewrite (drop_app_ge l) by lia.
      rewrite length_drop. f_equal. lia.
Qed.

Lemma remember_memory msg a w :
  let a' := snd (fst (remember msg a w)) in
  memory a' = keepLast (maxMemory a) (memory a ++ [msg])
  /\ fst (fst (remember msg a w)) = length (memory a')
  /\ maxMemory a' = maxMemory a /\ webFetch a' = webFetch a
  /\ browser a' = browser a.
Proof.
  unfold remember.
  assert (E : (if maxMemory a <? length (memory a ++ [msg])
               then drop (length (memory a ++ [msg]) - maxMemory a) (memory a ++ [msg])
               else memory a ++ [msg])
              = keepLast (maxMemory a) (memory a ++ [msg])).
  { destruct (Nat.ltb_spec (maxMemory a) (length (memory a ++ [msg])));
      [reflexivity|]. now rewrite keepLast_short. }
  rewrite E. simpl.
  destruct (sessionStore a) as [s|]; simpl; [|tauto].
  destruct (AddMessage _ _ _ _) as [[e1 s1] w1].
  destruct (negb _); [destruct (AddMessage _ _ _ _) as [[e2 s2] w2]|]; simpl; tauto.
Qed.

Lemma remember_store msg a w s :
  sessionStore a = Some s ->
  exists s', sessionStore (snd (fst (remember msg a w))) = Some s'
    /\ TotalMessageCount s'
       = TotalMessageCount s
         + (if decide (messageSessionKey msg = "global") then 1 else 2)
    /\ forall k, History k s'
                 = History k s ++ (if decide (reaches k msg) then [msg] else []).
Proof.
  intros Hs. unfold remember. simpl. rewrite Hs.
  pose proof (History_AddMessage (messageSessionKey msg) msg s w) as H1.
  pose proof (AddMessage_total (messageSessionKey msg) msg s w) as T1.
  destruct (AddMessage (messageSessionKey msg) msg s w) as [[e1 s1] w1].
  unfold storeAfter in H1, T1. simpl in H1, T1.
  destruct (String.eqb_spec (messageSessionKey msg) "global") as [Eg|Eg]; simpl.
  - exists s1. split; [reflexivity|].
    split; [rewrite decide_True by exact Eg; lia|].
    intros k. rewrite H1. unfold reaches.
    rewrite Eg. change (storeKey "global") with "global".
    destruct (decide (storeKey k = "global")) as [E|E].
    + rewrite decide_True by tauto. f_equal. unfold History. now rewrite E.
    + rewrite decide_False by tauto. now rewrite app_nil_r.
  - pose proof (History_AddMessage "global" msg s1 w1) as H2.
    pose proof (AddMessage_total "global" msg s1 w1) as T2.
    destruct (AddMessage "global" msg s1 w1) as [[e2 s2] w2].
    unfold storeAfter in H2, T2. simpl in H2, T2.
    exists s2. split; [reflexivity|].
    split; [rewrite decide_False by exact Eg; lia|].
    intros k. rewrite H2.
    change (storeKey "global") with "global".
    destruct (messageSessionKey_shape msg) as [?|Hc]; [contradiction|].
    apply storeKey_colon in Hc as [_ Hc].
    unfold reaches.
    destruct (decide (storeKey k = "global")) as [E|E].
    + rewrite decide_True by tauto. rewrite H1.
      change (storeKey "global") with "global".
      rewrite decide_False by congruence.
      f_equal. unfold History. now rewrite E.
    + rewrite H1.
      destruct (decide (storeKey k = storeKey (messageSessionKey msg))) as [E'|E'].
      * rewrite decide_True by tauto. f_equal. unfold History. now rewrite E'.
      * rewrite decide_False by tauto. now rewrite app_nil_r.
Qed.

Lemma remember_no_store msg a w :
  sessionStore a = None -> sessionStore (snd (fst (remember msg a w))) = None.
Proof. intros Hs. unfold remember. simpl. now rewrite Hs. Qed.

(** One [Process]: nothing changes for a blank message; otherwise the kept
    message is remembered. *)
Lemma Process_state msg a w :
  (~ nonblank msg -> agentAfter (Process msg a w) = a)
  /\ (nonblank msg ->
      exists n w1, sameMessage msg n
        /\ agentAfter (Process msg a w) = snd (fst (remember n a w1))).
Proof.
  unfold Process, agentAfter, nonblank.
  destruct (normalize_same msg w) as [Hsame Htext].
  destruct (normalize msg w) as [n w1]. simpl in *.
  rewrite Htext.
  destruct (String.eqb_spec (TrimSpace (Text msg)) "") as [E|E].
  - split; [reflexivity|tauto].
  - split; [tauto|]. intros _. exists n, w1. split; [exact Hsame|].
    now destruct (remember n a w1) as [[sz a1] w2].
Qed.

Lemma ProcessAll_cons msg msgs a w :
  ProcessAll (msg :: msgs) a w
  = ProcessAll msgs (agentAfter (Process msg a w)) (snd (Process msg a w)).
Proof.
  unfold ProcessAll, agentAfter. simpl.
  now destruct (Process msg a w) as [[r a1] w1].
Qed.

(** The agent after a run of messages: [arr] are the messages kept, in
    arrival order. *)
Lemma ProcessAll_state msgs : forall a w,
  length (memory a) <= maxMemory a ->
  let a' := fst (ProcessAll msgs a w) in
  exists arr,
    Forall2 sameMessage (filter nonblank msgs) arr
    /\ memory a' = keepLast (maxMemory a) (memory a ++ arr)
    /\ maxMemory a' = maxMemory a
    /\ match sessionStore a with
       | None => sessionStore a' = None
       | Some s =>
           exists s', sessionStore a' = Some s'
             /\ TotalMessageCount s'
                = TotalMessageCount s + length arr
                  + length (filter (fun n => messageSessionKey n <> "global") arr)
             /\ forall k, History k s'
                          = History k s ++ filter (reaches k) arr
       end.
Proof.
  induction msgs as [|msg msgs IH]; intros a w Hlen.
  - exists []. simpl. rewrite app_nil_r, keepLast_short by exact Hlen.
    repeat split; [constructor|].
    destruct (sessionStore a) as [s|]; [|reflexivity].
    exists s. split; [reflexivity|]. split; [simpl; lia|].
    intros k. now rewrite app_nil_r.
  - simpl. rewrite ProcessAll_cons.
    destruct (Process_state msg a w) as [Hblank Hkeep].
    destruct (decide (nonblank msg)) as [Hn|Hn].
    + destruct (Hkeep Hn) as (n & w1 & Hsame & Ha). rewrite Ha.
      destruct (remember_memory n a w1) as (Hmem & _ & Hmax & _).
      specialize (IH (snd (fst (remember n a w1))) (snd (Process msg a w))).
      simpl in IH. rewrite Hmax, Hmem in IH.
      destruct IH as (arr & Harr & Hm & Hx & Hst);
        [rewrite keepLast_length; lia|].
      exists (n :: arr). rewrite filter_cons_True by exact Hn.
      split; [now constructor|]. split; [|split; [exact Hx|]].
      * rewrite Hm, keepLast_app. now rewrite <- app_assoc.
      * destruct (sessionStore a) as [s|] eqn:Hs.
        -- destruct (remember_store n a w1 s Hs) as (s1 & Hs1 & Ht & Hh).
           rewrite Hs1 in Hst. destruct Hst as (s' & Hs' & Ht' & Hh').
           exists s'. split; [exact Hs'|]. split.
           { rewrite Ht', Ht. simpl.
             destruct (decide (messageSessionKey n = "global")) as [Eg|Eg].
             - rewrite filter_cons_False by tauto. lia.
             - rewrite filter_cons_True by exact Eg. simpl. lia. }
           intros k.
           rewrite Hh', Hh, <- app_assoc. f_equal.
           destruct (decide (reaches k n)) as [Hr|Hr].
           ++ now rewrite filter_cons_True.
           ++ now rewrite filter_cons_False.
        -- now rewrite (remember_no_store n a w1 Hs) in Hst.
    + rewrite (Hblank Hn). rewrite filter_cons_False by exact Hn.
      apply IH. exact Hlen.
Qed.

Lemma filter_all {A} (P : A -> Prop) `{forall x, Decision (P x)} (l : list A) :
  Forall P l -> filter P l = l.
Proof.
  induction 1 as [|x l Hx _ IH]; [reflexivity|].
  now rewrite filter_cons_True, IH.
Qed.

(** C5.  After a run of [M] messages with non-blank text through a new
    agent (capacity 128), the buffer holds [min M 128] messages: the last
    128 of the run when [M > 128], all of them otherwise, in arrival order
    (each as [Process] keeps it). *)
Theorem memory_bounded prompt browser webFetch sessions msgs w :
  Forall nonblank msgs ->
  let a' := fst (ProcessAll msgs (NewAgent prompt browser webFetch sessions) w) in
  length (memory a') = Nat.min (length msgs) 128
  /\ (128 < length msgs -> length (memory a') = 128)
  /\ (length msgs <= 128 -> Forall2 sameMessage msgs (memory a'))
  /\ Forall2 sameMessage (drop (length msgs - 128) msgs) (memory a').
Proof.
  intros Hnb.
  destruct (ProcessAll_state msgs (NewAgent prompt browser webFetch sessions) w)
    as (arr & Harr & Hmem & _); [simpl; lia|].
  rewrite (filter_all _ _ Hnb) in Harr.
  simpl in *. rewrite Hmem.
  pose proof (Forall2_length _ _ _ Harr) as Hlen.
  assert (Hkeep : Forall2 sameMessage (drop (length msgs - 128) msgs) (keepLast 128 arr)).
  { unfold keepLast. rewrite <- Hlen. now apply Forall2_drop. }
  rewrite keepLast_length, <- Hlen.
  split; [lia|]. split; [lia|]. split; [|exact Hkeep].
  intros Hle. rewrite keepLast_short by lia. exact Harr.
Qed.

Lemma memory_bounded_witness :
  let msg := {| Channel := "telegram"; UserID := "1"; ChatID := "42";
                Text := "hi"; Timestamp := 5 |} in
  let w := {| disk := ∅; ticks := 0; clock := fun n => Z.of_nat n; saves := 0;
              faults := fun _ => {| rands := []; createFails := false;
                                    writeFails := None; chmodFails := false;
                                    syncFails := false; closeFails := false;
                                    renameFails := false; removeFails := false |};
              marshal := fun _ => None |} in
  length (memory (fst (ProcessAll (replicate 130 msg) (NewAgent "" None None None) w)))
  = 128.
Proof.
  intros msg w.
  apply (memory_bounded "" None None None (replicate 130 msg) w).
  - apply Forall_replicate. intros H. vm_compute in H. discriminate H.
  - rewrite length_replicate. lia.
Defined.

(** C3, as the claim states it, fails: the store trims keys, so the history
    of the key "a:b" also holds a message whose derived key is " a:b". *)
Lemma History_merges_trimmed_keys :
  let m1 := {| Channel := " a"; UserID := "1"; ChatID := "b"; Text := "one";
               Timestamp := 5 |} in
  let m2 := {| Channel := "a"; UserID := "1"; ChatID := "b"; Text := "two";
               Timestamp := 6 |} in
  let w := {| disk := ∅; ticks := 0; clock := fun n => Z.of_nat n; saves := 0;
              faults := fun _ => {| rands := [7]; createFails := false;
                                    writeFails := None; chmodFails := false;
                                    syncFails := false; closeFails := false;
                                    renameFails := false; removeFails := false |};
              marshal := fun session => Some (Key session) |} in
  let store := {| storage := "data"; sessions := ∅ |} in
  let a' := fst (ProcessAll [m1; m2] (NewAgent "" None None (Some store)) w) in
  messageSessionKey m1 = " a:b" /\ messageSessionKey m2 = "a:b"
  /\ (History "a:b" <$> sessionStore a') = Some [m1; m2]
  /\ [m1; m2] <> filter (fun m => messageSessionKey m = "a:b") [m1; m2].
Proof.
  repeat split; try (vm_compute; reflexivity).
  vm_compute. discriminate.
Qed.

(** C3 (amended).  Every message with non-blank text is appended once to
    the history of "global" and, when its derived key is not "global", once
    more to the history of that key, which is then another session.  The
    store trims keys: after a run, [History k] for a key other than
    "global" is the history before followed by exactly the messages whose
    derived key equals [k] once both are trimmed, in arrival order, and
    [History "global"] is the history before followed by all messages; the
    number of stored messages grows by one per message and by one more per
    message whose derived key is not "global". *)
Theorem fan_out prompt browser webFetch store msgs w :
  let a' := fst (ProcessAll msgs (NewAgent prompt browser webFetch (Some store)) w) in
  exists store' arr,
    sessionStore a' = Some store'
    /\ Forall2 sameMessage (filter nonblank msgs) arr
    /\ History "global" store' = History "global" store ++ arr
    /\ (forall k, storeKey k <> "global" ->
        History k store'
        = History k store
          ++ filter (fun n => storeKey (messageSessionKey n) = storeKey k) arr)
    /\ Forall (fun n => messageSessionKey n = "global"
                        \/ storeKey (messageSessionKey n) <> "global") arr
    /\ TotalMessageCount store'
       = TotalMessageCount store + length arr
         + length (filter (fun n => messageSessionKey n <> "global") arr).
Proof.
  destruct (ProcessAll_state msgs (NewAgent prompt browser webFetch (Some store)) w)
    as (arr & Harr & _ & _ & store' & Hs & Ht & Hh); [simpl; lia|].
  exists store', arr. simpl in *.
  split; [exact Hs|]. split; [exact Harr|]. split; [|split; [|split; [|exact Ht]]].
  - rewrite Hh. f_equal. apply filter_all.
    apply Forall_forall. intros n _. left. reflexivity.
  - intros k Hk. rewrite Hh. f_equal. apply list_filter_iff.
    intros n. unfold reaches. split; [intros [?|?]; [contradiction|congruence]|].
    intros E. right. congruence.
  - apply Forall_forall. intros n _.
    destruct (messageSessionKey_shape n) as [?|Hc]; [now left|right].
    now apply storeKey_colon.
Qed.

(** *** The agent: replies *)

Local Arguments HasPrefix : simpl never.
Local Arguments TrimSpace : simpl never.
Local Arguments ToLower : simpl never.
Local Arguments truncate : simpl never.
Local Arguments sliceFrom : simpl never.

Lemma dispatch_origin msg size a reply :
  dispatch msg size a = (reply, None) ->
  fixedReply reply \/ exists text, toolText a text /\ reply = truncate text 1200.
Proof.
  unfold dispatch, fixedReply, toolText.
  destruct (HasPrefix _ "/status"); [intros [= <-]; left; eauto 10|].
  destruct (HasPrefix _ "/fetch "), (webFetch a) as [fetch|]; simpl;
    repeat match goal with
      | |- context [String.eqb ?x ""] => destruct (String.eqb x "")
      | |- context [match ?tool ?target with (_, _) => _ end] =>
          destruct (tool target) as [? [?|]] eqn:?
      | |- context [if HasPrefix ?x ?y then _ else _] => destruct (HasPrefix x y)
      | |- context [match browser a with Some _ => _ | None => _ end] =>
          destruct (browser a) eqn:?
      | |- _ => progress simpl
      end;
    intros H; try discriminate H; injection H as <-;
    try (left; eauto 10; fail);
    right; eexists; (split; [|reflexivity]);
    eexists _, _; (split; [|eassumption]); eauto.
Qed.

(** C7.  A reply of [Process] is either one it builds itself or the text a
    tool returned, cut by [truncate] at 1200 bytes: unchanged when the text
    has at most 1200 bytes, otherwise its first 1200 bytes followed by the
    marker "...". *)
Theorem tool_replies_truncated msg a w reply :
  fst (fst (Process msg a w)) = (reply, None) ->
  fixedReply reply
  \/ exists text,
       toolText a text
       /\ (String.length text <= 1200 -> reply = text)
       /\ (1200 < String.length text ->
           reply = sliceTo 1200 text +:+ "..."
           /\ String.length (sliceTo 1200 text) = 1200
           /\ String.length reply = 1200 + 3).
Proof.
  unfold Process. destruct (normalize msg w) as [n w1].
  destruct (String.eqb (Text n) "").
  { intros [= <-]. left. left. reflexivity. }
  destruct (remember_memory n a w1) as (_ & _ & _ & Hf & Hb).
  destruct (remember n a w1) as [[size a1] w2]. simpl in *.
  intros H. apply dispatch_origin in H as [H|(text & (tool & target & Ht & Hr) & ->)];
    [left; exact H|right].
  exists text. split.
  - exists tool, target. rewrite <- Hf, <- Hb. tauto.
  - split; [apply truncate_short|apply truncate_long].
Qed.

(** *** A trimmed command always has an argument *)

Lemma strip_length backwards (l : list ascii) :
  length (strip backwards l) <= length l.
Proof.
  destruct (strip_decomp backwards (length l) l) as (pre & Hpre & _); [lia|].
  rewrite Hpre at 2. rewrite length_app. lia.
Qed.

Lemma strip_idem backwards n : forall l : list ascii,
  length l <= n -> strip backwards (strip backwards l) = strip backwards l.
Proof.
  induction n as [|n IH]; intros l Hl.
  - destruct l; [reflexivity|simpl in Hl; lia].
  - destruct l as [|c1 r1]; [reflexivity|]. simpl in Hl.
    cbn [strip]. destruct (isSpace1 c1) eqn:E1; [apply IH; lia|].
    destruct r1 as [|c2 r2]; [cbn [strip]; now rewrite E1|]. simpl in Hl.
    destruct (if backwards then isSpace2 c2 c1 else isSpace2 c1 c2) eqn:E2;
      [apply IH; lia|].
    destruct r2 as [|c3 r3]; [cbn [strip]; now rewrite E1, E2|]. simpl in Hl.
    destruct (if backwards then isSpace3 c3 c2 c1 else isSpace3 c1 c2 c3) eqn:E3;
      [apply IH; lia|].
    cbn [strip]. now rewrite E1, E2, E3.
Qed.

(** When stripping consumes all of a non-empty [l], it consumes the head
    of [l] whatever follows. *)
Lemma strip_head backwards (l z : list ascii) :
  l <> [] -> strip backwards l = [] ->
  length (strip backwards (l ++ z)) < length (l ++ z).
Proof.
  intros Hne Hs. destruct l as [|c1 r1]; [contradiction|].
  cbn [strip] in Hs. cbn [app strip].
  destruct (isSpace1 c1) eqn:E1.
  { pose proof (strip_length backwards (r1 ++ z)). simpl. lia. }
  destruct r1 as [|c2 r2]; [discriminate Hs|]. cbn [app].
  destruct (if backwards then isSpace2 c2 c1 else isSpace2 c1 c2) eqn:E2.
  { pose proof (strip_length backwards (r2 ++ z)). simpl. lia. }
  destruct r2 as [|c3 r3]; [discriminate Hs|]. cbn [app].
  destruct (if backwards then isSpace3 c3 c2 c1 else isSpace3 c1 c2 c3) eqn:E3.
  { pose proof (strip_length backwards (r3 ++ z)). simpl. lia. }
  discriminate Hs.
Qed.

Lemma high_not_space1 c : (128 <= byte c)%N -> isSpace1 c = false.
Proof.
  unfold isSpace1. intros H.
  destruct (N.leb_spec 9 (byte c)), (N.leb_spec (byte c) 13),
    (N.eqb_spec (byte c) 32); simpl; try reflexivity; lia.
Qed.

Lemma isSpace3_middle c1 c2 c3 : isSpace3 c1 c2 c3 = true -> isSpace2 c2 c3 = false.
Proof.
  unfold isSpace3, isSpace2.
  rewrite !orb_true_iff, !andb_true_iff, !orb_true_iff, !andb_true_iff,
    !N.eqb_eq, !N.leb_le.
  intros H. destruct (N.eqb_spec (byte c2) 194); [exfalso; lia|reflexivity].
Qed.

(** A text made of white-space runes only ends, read backwards, with a
    white-space rune. *)
Lemma strip_all_backwards n : forall (l z : list ascii),
  length l <= n -> l <> [] -> strip false l = [] ->
  length (strip true (rev l ++ z)) < length (rev l ++ z).
Proof.
  induction n as [|n IH]; intros l z Hl Hne Hs.
  - destruct l; [contradiction|simpl in Hl; lia].
  - destruct l as [|c1 r1]; [contradiction|]. simpl in Hl.
    cbn [strip] in Hs.
    destruct (isSpace1 c1) eqn:E1.
    { destruct r1 as [|c r].
      - cbn [rev app strip]. rewrite E1.
        pose proof (strip_length true z). simpl. lia.
      - cbn [rev]. rewrite <- app_assoc. rewrite length_app.
        specialize (IH (c :: r) ([c1] ++ z)). cbn [rev] in IH.
        rewrite length_app in IH. apply IH; [simpl in *; lia|discriminate|exact Hs]. }
    destruct r1 as [|c2 r2]; [discriminate Hs|]. simpl in Hl.
    destruct (isSpace2 c1 c2) eqn:E2.
    { destruct (isSpace2_high _ _ E2) as [H1 H2].
      destruct r2 as [|c r].
      - cbn [rev app strip]. rewrite (high_not_space1 c2 H2), E2.
        pose proof (strip_length true z). simpl. lia.
      - change (rev (c1 :: c2 :: c :: r)) with ((rev (c :: r) ++ [c2]) ++ [c1]).
        rewrite <- !app_assoc. rewrite length_app.
        specialize (IH (c :: r) ([c2] ++ [c1] ++ z)).
        rewrite length_app in IH. apply IH; [simpl in *; lia|discriminate|exact Hs]. }
    destruct r2 as [|c3 r3]; [discriminate Hs|]. simpl in Hl.
    destruct (isSpace3 c1 c2 c3) eqn:E3; [|discriminate Hs].
    destruct (isSpace3_high _ _ _ E3) as (H1 & H2 & H3).
    destruct r3 as [|c r].
    + cbn [rev app strip].
      rewrite (high_not_space1 c3 H3), (isSpace3_middle _ _ _ E3), E3.
      pose proof (strip_length true z). simpl. lia.
    + change (rev (c1 :: c2 :: c3 :: c :: r))
        with (((rev (c :: r) ++ [c3]) ++ [c2]) ++ [c1]).
      rewrite <- !app_assoc. rewrite length_app.
      specialize (IH (c :: r) ([c3] ++ [c2] ++ [c1] ++ z)).
      rewrite length_app in IH. apply IH; [simpl in *; lia|discriminate|exact Hs].
Qed.

(** A trimmed text does not end with a white-space rune. *)
Lemma TrimSpace_right s :
  strip true (rev (list_ascii_of_string (TrimSpace s)))
  = rev (list_ascii_of_string (TrimSpace s)).
Proof.
  unfold TrimSpace, trimRight. rewrite list_ascii_of_string_of_list_ascii.
  rewrite rev_involutive. apply (strip_idem true _ _ (le_n _)).
Qed.

(** After a text that ends with a space, what is left of a trimmed text is
    not blank. *)
Lemma after_space_nonblank text (p : list ascii) rest :
  list_ascii_of_string (TrimSpace text) = (p ++ [" "%char]) ++ list_ascii_of_string rest ->
  TrimSpace rest <> "".
Proof.
  intros Hsplit Hblank.
  pose proof (TrimSpace_right text) as Hright.
  rewrite Hsplit in Hright.
  set (R := list_ascii_of_string rest) in *.
  assert (Hrev : rev ((p ++ [" "%char]) ++ R) = rev R ++ " "%char :: rev p).
  { rewrite !rev_app_distr. reflexivity. }
  rewrite Hrev in Hright.
  assert (Hshort : length (strip true (rev R ++ " "%char :: rev p))
                   < length (rev R ++ " "%char :: rev p)).
  { apply (f_equal list_ascii_of_string) in Hblank.
    unfold TrimSpace, trimRight, trimLeft in Hblank.
    rewrite list_ascii_of_string_of_list_ascii in Hblank. fold R in Hblank.
    change (list_ascii_of_string "") with (@nil ascii) in Hblank.
    apply (f_equal (@rev ascii)) in Hblank. rewrite rev_involutive in Hblank.
    change (rev []) with (@nil ascii) in Hblank.
    destruct (decide (R = [])) as [ER|ER].
    - rewrite ER. cbn [rev app strip]. change (isSpace1 " ") with true. cbn iota.
      pose proof (strip_length true (rev p)). simpl. lia.
    - destruct (strip false R) as [|c' r'] eqn:ES.
      + apply (strip_all_backwards (length R)); [lia|exact ER|exact ES].
      + destruct (strip_decomp false (length R) R) as (pre & Hpre & _); [lia|].
        rewrite ES in Hpre. rewrite Hpre. rewrite rev_app_distr, <- app_assoc.
        apply strip_head; [|exact Hblank].
        intros E. apply (f_equal (@length ascii)) in E.
        rewrite length_rev in E. discriminate E. }
  rewrite Hright in Hshort. lia.
Qed.

Lemma lowerByte_space c : lowerByte c = " "%char -> c = " "%char.
Proof.
  unfold lowerByte.
  destruct (N.leb_spec 65 (byte c)) as [Hlo|Hlo],
    (N.leb_spec (byte c) 90) as [Hhi|Hhi]; simpl; try tauto.
  intros E. apply (f_equal N_of_ascii) in E.
  rewrite N_ascii_embedding in E by (unfold byte in *; lia).
  unfold byte in *. simpl in E. lia.
Qed.

(** The branch of [Process] that returns "Provide a URL after /fetch."
    tests a condition that never holds: a trimmed text that starts with
    "/fetch " has a non-blank rest.  The same holds for "/browse ". *)
Lemma command_target_nonblank text :
  (HasPrefix (ToLower (TrimSpace text)) "/fetch " = true ->
   TrimSpace (sliceFrom (String.length "/fetch ") (TrimSpace text)) <> "")
  /\ (HasPrefix (ToLower (TrimSpace text)) "/browse " = true ->
      TrimSpace (sliceFrom (String.length "/browse ") (TrimSpace text)) <> "").
Proof.
  unfold HasPrefix. split; intros H.
  - destruct (TrimSpace text) as [|c0 [|c1 [|c2 [|c3 [|c4 [|c5 [|c6 rest]]]]]]] eqn:E;
      cbv [ToLower prefixb] in H;
      try (rewrite ?andb_false_r in H; discriminate H).
    rewrite !andb_true_iff in H.
    destruct H as (_ & _ & _ & _ & _ & _ & H6 & _).
    apply Ascii.eqb_eq in H6. symmetry in H6. apply lowerByte_space in H6. subst c6.
    apply (after_space_nonblank text [c0; c1; c2; c3; c4; c5]).
    rewrite E. reflexivity.
  - destruct (TrimSpace text)
      as [|c0 [|c1 [|c2 [|c3 [|c4 [|c5 [|c6 [|c7 rest]]]]]]]] eqn:E;
      cbv [ToLower prefixb] in H;
      try (rewrite ?andb_false_r in H; discriminate H).
    rewrite !andb_true_iff in H.
    destruct H as (_ & _ & _ & _ & _ & _ & _ & H7 & _).
    apply Ascii.eqb_eq in H7. symmetry in H7. apply lowerByte_space in H7. subst c7.
    apply (after_space_nonblank text [c0; c1; c2; c3; c4; c5; c6]).
    rewrite E. reflexivity.
Qed.

(** C9 (what the code does).  The bare command "/fetch", in any letter case
    and whatever the white space around it, is not matched by the prefix
    "/fetch " once the text is trimmed: [Process] answers with the default
    acknowledgment, not with the usage hint, whether or not a fetch tool is
    configured. *)
Theorem bare_fetch_falls_through msg a w :
  ToLower (TrimSpace (Text msg)) = "/fetch" ->
  fst (fst (Process msg a w))
  = (readyReply (Channel msg) (length (memory (agentAfter (Process msg a w)))), None).
Proof.
  intros Hl. unfold Process, agentAfter.
  destruct (normalize_same msg w) as [(Hc & _) Ht].
  destruct (normalize msg w) as [n w1]. simpl in Hc, Ht.
  destruct (String.eqb_spec (Text n) "") as [E|_].
  { rewrite Ht in E. rewrite E in Hl. discriminate Hl. }
  destruct (remember_memory n a w1) as (_ & Hsz & _).
  destruct (remember n a w1) as [[size a1] w2]. simpl in *.
  unfold dispatch. rewrite Ht, Hl, Hc, Hsz. reflexivity.
Qed.

(** With a fetch tool configured, "/fetch" and "/Fetch" followed by white
    space get the acknowledgment, not "Provide a URL after /fetch.". *)
Lemma bare_fetch_falls_through_witness :
  let w := {| disk := ∅; ticks := 0; clock := fun n => Z.of_nat n; saves := 0;
              faults := fun _ => {| rands := []; createFails := false;
                                    writeFails := None; chmodFails := false;
                                    syncFails := false; closeFails := false;
                                    renameFails := false; removeFails := false |};
              marshal := fun _ => None |} in
  let a := NewAgent "" None (Some (fun target => ("fetched", None))) None in
  let msg text := {| Channel := "telegram"; UserID := "1"; ChatID := "7";
                     Text := text; Timestamp := 5 |} in
  fst (fst (Process (msg "/fetch") a w))
  = ("ClawKangsar ready. Channel=telegram memory=1", None)
  /\ fst (fst (Process (msg "/Fetch   ") a w))
     = ("ClawKangsar ready. Channel=telegram memory=1", None).
Proof.
  intros w a msg. split.
  - apply (bare_fetch_falls_through (msg "/fetch") a w). reflexivity.
  - apply (bare_fetch_falls_through (msg "/Fetch   ") a w). reflexivity.
Defined.

Lemma tool_replies_truncated_witness :
  let w := {| disk := ∅; ticks := 0; clock := fun n => Z.of_nat n; saves := 0;
              faults := fun _ => {| rands := []; createFails := false;
                                    writeFails := None; chmodFails := false;
                                    syncFails := false; closeFails := false;
                                    renameFails := false; removeFails := false |};
              marshal := fun _ => None |} in
  let a := NewAgent "" None (Some (fun target => (filler 1201, None))) None in
  let msg := {| Channel := "telegram"; UserID := "1"; ChatID := "7";
                Text := "/fetch example.com"; Timestamp := 5 |} in
  let reply := filler 1200 +:+ "..." in
  fixedReply reply
  \/ exists text,
       toolText a text
       /\ (String.length text <= 1200 -> reply = text)
       /\ (1200 < String.length text ->
           reply = sliceTo 1200 text +:+ "..."
           /\ String.length (sliceTo 1200 text) = 1200
           /\ String.length reply = 1200 + 3).
Proof.
  intros w a msg reply.
  apply (tool_replies_truncated msg a w reply). vm_compute. reflexivity.
Defined.

(** *** The browser handle *)

Import Browser.

Lemma acquireAll_live nows : forall b c h,
  browserCtx b = Some h ->
  let r := acquireAll nows b c in
  fst (fst r) = replicate (length nows) (Some h, None)
  /\ browserCtx (snd (fst r)) = Some h /\ snd r = c.
Proof.
  induction nows as [|now rest IH]; intros b c h Hb; [now simpl|].
  simpl. unfold acquireBrowser. rewrite Hb.
  specialize (IH (setHandle b (Some h) now) c h eq_refl).
  destruct (acquireAll rest _ c) as [[rs b'] c']. simpl in *.
  destruct IH as (-> & -> & ->). auto.
Qed.

Lemma filter_ne_self (h : nat) : filter (fun p => p ≠ h) [h] = [].
Proof. now rewrite filter_cons_False, filter_nil by tauto. Qed.

Lemma acquireBrowser_consistent now b c :
  consistent (b, c) ->
  consistent (snd (fst (acquireBrowser now b c)), snd (acquireBrowser now b c)).
Proof.
  unfold consistent, acquireBrowser. simpl.
  destruct (browserCtx b) as [h|] eqn:Hb; simpl; [tauto|].
  intros Hr. destruct (launchFails c (launches c)); simpl.
  - rewrite Hb, Hr. apply filter_ne_self.
  - now rewrite Hr.
Qed.

Lemma killLocked_consistent b c :
  consistent (b, c) -> consistent (killLocked b c).
Proof.
  unfold consistent, killLocked. simpl.
  destruct (browserCtx b) as [h|] eqn:Hb; simpl; [|now rewrite Hb].
  intros Hr. rewrite Hr. apply filter_ne_self.
Qed.

Lemma step_consistent st call : consistent st -> consistent (step st call).
Proof.
  destruct st as [b c]. intros H. destruct call; simpl.
  - pose proof (acquireBrowser_consistent now b c H) as H'.
    now destruct (acquireBrowser now b c) as [[r b'] c'].
  - exact H.
  - unfold KillIfIdle. destruct (browserCtx b) eqn:Hb; [|exact H].
    destruct (_ <? _)%Z; [exact H|].
    pose proof (killLocked_consistent b c H) as H'.
    now destruct (killLocked b c).
  - unfold Close. apply killLocked_consistent. exact H.
  - unfold Browse. destruct (normalizeURL rawURL) as [target [err|]]; [exact H|].
    pose proof (acquireBrowser_consistent now b c H) as H'.
    destruct (acquireBrowser now b c) as [[[h [err|]] b'] c']; [exact H'|].
    destruct (navigate c' target) as [body [err|]]; exact H'.
Qed.

Lemma run_consistent calls : forall st, consistent st -> consistent (run calls st).
Proof.
  induction calls as [|call calls IH]; intros st H; [exact H|].
  apply IH, step_consistent, H.
Qed.

(** The results of [n] serialized [acquireBrowser] calls on an absent
    handle: a failure per failed launch, then the handle of the first
    launch that succeeds for every later call. *)
Lemma acquireAll_absent nows : forall b c,
  browserCtx b = None -> running c = [] ->
  let r := acquireAll nows b c in
  let k := failedStarts (launchFails c) (launches c) (length nows) in
  Forall2 (fun i res => exists err, launchFails c i = Some err
                          /\ res = (None, Some (ErrWrap "start browser: " err)))
          (seq (launches c) k) (take k (fst (fst r)))
  /\ drop k (fst (fst r)) = replicate (length nows - k) (Some (launches c + k), None)
  /\ launches (snd r) = launches c + k + (if k <? length nows then 1 else 0)
  /\ launchFails (snd r) = launchFails c.
Proof.
  induction nows as [|now rest IH]; intros b c Hb Hr.
  - simpl. repeat split; try constructor. lia.
  - simpl. unfold acquireBrowser. rewrite Hb. simpl.
    destruct (launchFails c (launches c)) as [err|] eqn:Hl.
    + match goal with |- context [acquireAll rest b ?x] => set (c1 := x) end.
      assert (H1 : running c1 = [])
        by (unfold c1, cancel; simpl; rewrite Hr; apply filter_ne_self).
      specialize (IH b c1 Hb H1).
      change (launches c1) with (S (launches c)) in IH.
      change (launchFails c1) with (launchFails c) in IH.
      destruct (acquireAll rest b c1) as [[rs b'] c']. simpl in *.
      destruct IH as (Hf & Hd & Hn & Hlf).
      split; [constructor; [eauto|exact Hf]|].
      split; [rewrite Hd; now rewrite Nat.add_succ_r|].
      split; [|exact Hlf].
      rewrite Hn.
      destruct (Nat.ltb_spec (failedStarts (launchFails c) (S (launches c)) (length rest))
                             (length rest));
        destruct (Nat.ltb_spec (S (failedStarts (launchFails c) (S (launches c)) (length rest)))
                               (S (length rest))); lia.
    + match goal with |- context [acquireAll rest ?y ?x] => set (c1 := x); set (b1 := y) end.
      pose proof (acquireAll_live rest b1 c1 (launches c) eq_refl) as Hlive.
      destruct (acquireAll rest b1 c1) as [[rs b'] c']. simpl in *.
      destruct Hlive as (-> & _ & ->). simpl.
      repeat split; try constructor.
      * now rewrite Nat.add_0_r.
      * lia.
Qed.

(** C2, as the claim states it, fails: when the first launch fails, the
    second of two concurrent calls launches again; two processes were
    started, one call got the error and the other a handle. *)
Lemma acquire_retries_after_failure :
  let c := {| launches := 0;
              launchFails := fun n => if Nat.eqb n 0 then Some (ErrText "exec: chromium not found")
                                      else None;
              running := []; navigate := fun _ => ("", None) |} in
  let r := acquireAll [10; 11]%Z (NewBrowser 0) c in
  fst (fst r) = [(None, Some (ErrWrap "start browser: " (ErrText "exec: chromium not found")));
                 (Some 1, None)]
  /\ launches (snd r) = 2
  /\ ~ (launches (snd r) = 1
        /\ exists res, Forall (fun x => x = res) (fst (fst r))).
Proof.
  repeat split. intros [H _]. vm_compute in H. discriminate H.
Qed.

(** C2 (amended).  Concurrent [acquireBrowser] calls are serialized by the
    mutex.  On an absent handle, each call launches a process until a launch
    succeeds: the calls before get the error of their own failed launch, the
    call whose launch succeeds and all later ones get that one handle, and
    the number of launches is the number of failures plus one for the
    success.  So when the first launch succeeds there is exactly one launch
    and all calls return the same handle.  In every run of calls on the
    browser, the processes alive are exactly the handle it holds: at most
    one. *)
Theorem acquire_serialized nows b c :
  browserCtx b = None -> running c = [] ->
  let r := acquireAll nows b c in
  let k := failedStarts (launchFails c) (launches c) (length nows) in
  Forall2 (fun i res => exists err, launchFails c i = Some err
                          /\ res = (None, Some (ErrWrap "start browser: " err)))
          (seq (launches c) k) (take k (fst (fst r)))
  /\ drop k (fst (fst r)) = replicate (length nows - k) (Some (launches c + k), None)
  /\ launches (snd r) = launches c + k + (if k <? length nows then 1 else 0)
  /\ (nows <> [] -> launchFails c (launches c) = None ->
      launches (snd r) = S (launches c)
      /\ fst (fst r) = replicate (length nows) (Some (launches c), None))
  /\ (forall calls,
        let st := run calls (b, c) in
        consistent st /\ length (running (snd st)) <= 1).
Proof.
  intros Hb Hr.
  destruct (acquireAll_absent nows b c Hb Hr) as (Hf & Hd & Hn & _).
  simpl in *. split; [exact Hf|]. split; [exact Hd|]. split; [exact Hn|]. split.
  - intros Hne Hok. destruct nows as [|now rest]; [contradiction|].
    remember (acquireAll (now :: rest) b c) as r eqn:Er. clear Er Hf.
    cbn [length failedStarts] in Hd, Hn. rewrite Hok in Hd, Hn.
    cbn in Hd, Hn. rewrite Nat.add_0_r in Hd, Hn. split; [lia|exact Hd].
  - intros calls.
    assert (H : consistent (run calls (b, c)))
      by (apply run_consistent; unfold consistent; simpl; now rewrite Hb, Hr).
    split; [exact H|]. unfold consistent in H. rewrite H.
    destruct (browserCtx (fst (run calls (b, c)))); simpl; lia.
Qed.

Lemma acquire_serialized_witness :
  let c := {| launches := 0; launchFails := fun _ => None; running := [];
              navigate := fun _ => ("", None) |} in
  let r := acquireAll [10; 11; 12]%Z (NewBrowser 0) c in
  launches (snd r) = 1 /\ fst (fst r) = replicate 3 (Some 0, None).
Proof.
  intros c r.
  apply (acquire_serialized [10; 11; 12]%Z (NewBrowser 0) c);
    [reflexivity|reflexivity|discriminate|reflexivity].
Defined.

(** *** URL normalisation *)

Lemma normalizeWebURL_accepts rawURL out :
  normalizeWebURL rawURL = (out, None)
  <-> TrimSpace rawURL <> ""
      /\ exists u, GoURL.Parse (candidate rawURL) = Some u
           /\ (GoURL.Scheme u = "http" \/ GoURL.Scheme u = "https")
           /\ GoURL.Host u <> "" /\ out = GoURL.String_ u.
Proof.
  unfold normalizeWebURL, candidate.
  destruct (String.eqb_spec (TrimSpace rawURL) "") as [E|E].
  { split; [discriminate|tauto]. }
  destruct (Contains (TrimSpace rawURL) "://"); simpl;
    destruct (GoURL.Parse _) as [u|].
  2, 4: split; [discriminate|intros (_ & u & H & _); discriminate H].
  all: destruct (String.eqb_spec (GoURL.Scheme u) "http") as [E1|E1];
    destruct (String.eqb_spec (GoURL.Scheme u) "https") as [E2|E2];
    destruct (String.eqb_spec (GoURL.Host u) "") as [E3|E3]; simpl;
    (split;
     [ intros H;
       first [ discriminate H
             | injection H as <-; split; [exact E|exists u; tauto] ]
     | intros (_ & u' & [= <-] & Hs & Hh & ->);
       first [ reflexivity | exfalso; tauto ] ]).
Qed.

Lemma normalizeURL_same rawURL : normalizeURL rawURL = normalizeWebURL rawURL.
Proof. reflexivity. Qed.

(** C6.  [normalizeWebURL] (and [normalizeURL], the same function) trims
    the input, puts "https://" in front when the trimmed input has no
    "://", and accepts exactly when the result parses with scheme http or
    https and a non-empty host; it returns the parsed address as text.
    "example.com" gives "https://example.com"; "", "ftp://x.com" and
    "https://" are refused.  [Fetch] and [Browse] return the error of a
    refused address without a request or a browser launch. *)
Theorem url_normalization :
  (forall rawURL out,
     normalizeWebURL rawURL = (out, None)
     <-> TrimSpace rawURL <> ""
         /\ exists u, GoURL.Parse (candidate rawURL) = Some u
              /\ (GoURL.Scheme u = "http" \/ GoURL.Scheme u = "https")
              /\ GoURL.Host u <> "" /\ out = GoURL.String_ u)
  /\ (forall rawURL,
        (exists out, normalizeWebURL rawURL = (out, None))
        \/ (exists err, normalizeWebURL rawURL = ("", Some err)))
  /\ (forall rawURL, normalizeURL rawURL = normalizeWebURL rawURL)
  /\ candidate "example.com" = "https://example.com"
  /\ candidate "  http://example.com/a " = "http://example.com/a"
  /\ normalizeWebURL "example.com" = ("https://example.com", None)
  /\ normalizeWebURL "" = ("", Some (ErrText "url is required"))
  /\ normalizeWebURL "ftp://x.com"
     = ("", Some (ErrText "only http/https urls are supported"))
  /\ normalizeWebURL "https://" = ("", Some (ErrText "url host is required"))
  /\ (forall maxChars rawURL net err,
        snd (normalizeWebURL rawURL) = Some err ->
        Fetch maxChars rawURL net = (("", Some err), net))
  /\ (forall rawURL now later b c err,
        snd (normalizeURL rawURL) = Some err ->
        Browser.Browse rawURL now later b c = (("", Some err), b, c)).
Proof.
  split; [exact normalizeWebURL_accepts|].
  split.
  { intros rawURL. unfold normalizeWebURL.
    destruct (String.eqb _ ""); [right; eauto|].
    destruct (GoURL.Parse _) as [u|]; [|right; eauto].
    destruct (negb _ && negb _); [right; eauto|].
    destruct (String.eqb _ ""); [right; eauto|left; eauto]. }
  split; [exact normalizeURL_same|].
  do 6 (split; [vm_compute; reflexivity|]).
  split.
  - intros maxChars rawURL net err H. unfold Fetch.
    destruct (normalizeWebURL rawURL) as [target [e|]]; simpl in H; congruence.
  - intros rawURL now later b c err H. unfold Browser.Browse.
    destruct (normalizeURL rawURL) as [target [e|]]; simpl in H; congruence.
Qed.

(** ** Part VIII.  Properties of the rest of the code *)

(** *** Keys are trimmed once and for all *)

Lemma strip_fixed_prefix backwards (l z : list ascii) :
  strip backwards (l ++ z) = l ++ z -> strip backwards l = l.
Proof.
  intros H.
  assert (Hlen : forall r : list ascii,
            strip backwards (l ++ z) = strip backwards (r ++ z) ->
            length r < length l -> False).
  { intros r E Hr. rewrite H in E.
    pose proof (strip_length backwards (r ++ z)) as Hs.
    rewrite <- E in Hs. rewrite !length_app in Hs. lia. }
  destruct l as [|c1 r1]; [reflexivity|].
  cbn [app strip] in Hlen. cbn [strip].
  destruct (isSpace1 c1) eqn:E1.
  { exfalso. apply (Hlen r1); [reflexivity|simpl; lia]. }
  destruct r1 as [|c2 r2]; [reflexivity|]. cbn [app] in Hlen.
  destruct (if backwards then isSpace2 c2 c1 else isSpace2 c1 c2) eqn:E2.
  { exfalso. apply (Hlen r2); [reflexivity|simpl; lia]. }
  destruct r2 as [|c3 r3]; [reflexivity|]. cbn [app] in Hlen.
  destruct (if backwards then isSpace3 c3 c2 c1 else isSpace3 c1 c2 c3) eqn:E3.
  { exfalso. apply (Hlen r3); [reflexivity|simpl; lia]. }
  reflexivity.
Qed.

Lemma TrimSpace_idem s : TrimSpace (TrimSpace s) = TrimSpace s.
Proof.
  pose proof (TrimSpace_right s) as Hright.
  unfold TrimSpace at 1. unfold trimRight, trimLeft.
  set (T := list_ascii_of_string (TrimSpace s)) in *.
  assert (Hleft : strip false T = T).
  { unfold T, TrimSpace, trimRight, trimLeft.
    rewrite list_ascii_of_string_of_list_ascii.
    set (M := strip false (list_ascii_of_string s)).
    destruct (strip_decomp true (length (rev M)) (rev M)) as (pre & Hpre & _); [lia|].
    apply (strip_fixed_prefix false _ (rev pre)).
    rewrite <- rev_app_distr, <- Hpre, rev_involutive.
    apply (strip_idem false _ _ (le_n _)). }
  rewrite Hleft, Hright, rev_involutive. unfold T.
  apply string_of_list_ascii_of_string.
Qed.

Lemma storeKey_cases k :
  (TrimSpace k = "" /\ storeKey k = "global")
  \/ (TrimSpace k <> "" /\ storeKey k = TrimSpace k).
Proof.
  unfold storeKey. destruct (String.eqb_spec (TrimSpace k) ""); [left|right]; auto.
Qed.

Lemma storeKey_idem k : storeKey (storeKey k) = storeKey k.
Proof.
  destruct (storeKey_cases k) as [[_ ->]|[E ->]]; [reflexivity|].
  destruct (storeKey_cases (TrimSpace k)) as [[E' _]|[_ ->]].
  - rewrite TrimSpace_idem in E'. contradiction.
  - apply TrimSpace_idem.
Qed.

(** X1.  The store knows a key only by its trimmed form: [History] and
    [AddMessage] give the same for a key, for the key trimmed and for the
    key under which it is stored, and the stored key of a session is never
    blank. *)
Theorem key_trimmed_once sessionKey :
  storeKey (TrimSpace sessionKey) = storeKey sessionKey
  /\ storeKey (storeKey sessionKey) = storeKey sessionKey
  /\ TrimSpace (storeKey sessionKey) = storeKey sessionKey
  /\ storeKey sessionKey <> ""
  /\ (forall s, History (TrimSpace sessionKey) s = History sessionKey s)
  /\ (forall msg s w,
        AddMessage (TrimSpace sessionKey) msg s w = AddMessage sessionKey msg s w)
  /\ (forall msg s w,
        is_Some (sessions (storeAfter (AddMessage sessionKey msg s w))
                 !! storeKey sessionKey)).
Proof.
  assert (H1 : storeKey (TrimSpace sessionKey) = storeKey sessionKey)
    by (unfold storeKey; now rewrite TrimSpace_idem).
  split; [exact H1|]. split; [apply storeKey_idem|].
  split; [|split; [|split; [|split]]].
  - unfold storeKey. destruct (String.eqb_spec (TrimSpace sessionKey) "");
      [reflexivity|apply TrimSpace_idem].
  - unfold storeKey. destruct (String.eqb_spec (TrimSpace sessionKey) "");
      [discriminate|assumption].
  - intros s. unfold History. now rewrite H1.
  - intros msg s w. unfold AddMessage. now rewrite H1.
  - intros msg s w. rewrite AddMessage_unfold. unfold storeAfter. simpl.
    destruct (appendMessage_spec (storeKey sessionKey) msg s w)
      as (_ & (session & Hs & _) & _).
    rewrite Hs, lookup_insert_eq. eauto.
Qed.

(** *** The store: appends and failing saves *)

(** X2.  [AddMessage] never loses the message, whatever [Save] does: the
    history of the key grows by the message at its end, no other history
    changes, the store gains one message and at most one session; on a
    store without storage root it returns nil and leaves the files and the
    save count alone. *)
Theorem AddMessage_always_appends sessionKey msg s w :
  let r := AddMessage sessionKey msg s w in
  History sessionKey (storeAfter r) = History sessionKey s ++ [msg]
  /\ (forall k, storeKey k <> storeKey sessionKey ->
      History k (storeAfter r) = History k s)
  /\ TotalMessageCount (storeAfter r) = S (TotalMessageCount s)
  /\ SessionCount (storeAfter r)
     = match sessions s !! storeKey sessionKey with
       | Some _ => SessionCount s
       | None => S (SessionCount s)
       end
  /\ storage (storeAfter r) = storage s
  /\ (storage s = "" ->
      errorOf r = None /\ disk (worldAfter r) = disk w
      /\ saves (worldAfter r) = saves w).
Proof.
  simpl. split; [|split; [|split; [apply AddMessage_total|]]].
  - rewrite History_AddMessage. now destruct (decide _).
  - intros k Hk. rewrite History_AddMessage. now destruct (decide _).
  - rewrite AddMessage_unfold. unfold storeAfter, errorOf, worldAfter, SessionCount.
    simpl.
    destruct (appendMessage_spec (storeKey sessionKey) msg s w)
      as (Hst & (session & Hs & _) & Hd & Hsv & _).
    split; [|split; [exact Hst|]].
    + rewrite Hs. destruct (sessions s !! storeKey sessionKey) eqn:E.
      * now apply map_size_insert_Some.
      * now apply map_size_insert_None.
    + intros Hmem. rewrite Save_disk_elsewhere by congruence. simpl. auto.
Qed.

Lemma applyOps_onFile tmp ops : forall d : gmap string string,
  Forall (onFile tmp) ops -> delete tmp (applyOps d ops) = delete tmp d.
Proof.
  induction ops as [|op ops IH]; intros d H; [reflexivity|].
  inversion H as [|? ? Hop Hops]; subst. unfold applyOps in *. simpl.
  rewrite IH by assumption.
  destruct op; simpl in Hop; try contradiction; subst; simpl; try reflexivity.
  - apply delete_insert_eq.
  - destruct (d !! tmp); [apply delete_insert_eq|reflexivity].
  - apply delete_delete_eq.
Qed.

Lemma writeSnapshot_failure f (d : gmap string string) payload target err ops :
  writeSnapshot f d payload target = (Some err, ops) ->
  ops = []
  \/ exists tmp body,
       (exists r, tmp = tempName r) /\ d !! tmp = None
       /\ Forall (onFile tmp) body
       /\ ops = body ++ (if removeFails f then [] else [OpRemove tmp]).
Proof.
  unfold writeSnapshot.
  destruct (CreateTemp f d) as [tmp|] eqn:E.
  2: { intros H. injection H as _ <-. now left. }
  apply CreateTemp_fresh in E as [Hr Hfree].
  intros H. right. exists tmp.
  assert (Hgoal : forall body,
            Forall (onFile tmp) body ->
            ops = body ++ (if removeFails f then [] else [OpRemove tmp]) ->
            exists body0, (exists r, tmp = tempName r) /\ d !! tmp = None
              /\ Forall (onFile tmp) body0
              /\ ops = body0 ++ (if removeFails f then [] else [OpRemove tmp])).
  { intros body Hb Ho. exists body. auto. }
  destruct (writeFails f) as [n|].
  { injection H as _ <-.
    apply (Hgoal [OpCreate tmp; OpWrite tmp (sliceTo n payload); OpClose tmp]);
      [repeat constructor|reflexivity]. }
  destruct (chmodFails f).
  { injection H as _ <-.
    apply (Hgoal [OpCreate tmp; OpWrite tmp payload; OpClose tmp]);
      [repeat constructor|reflexivity]. }
  destruct (syncFails f).
  { injection H as _ <-.
    apply (Hgoal [OpCreate tmp; OpWrite tmp payload; OpChmod tmp; OpClose tmp]);
      [repeat constructor|reflexivity]. }
  destruct (closeFails f).
  { injection H as _ <-.
    apply (Hgoal [OpCreate tmp; OpWrite tmp payload; OpChmod tmp; OpSync tmp]);
      [repeat constructor|reflexivity]. }
  destruct (renameFails f); [|discriminate H].
  injection H as _ <-.
  apply (Hgoal [OpCreate tmp; OpWrite tmp payload; OpChmod tmp; OpSync tmp;
                OpClose tmp]); [repeat constructor|reflexivity].
Qed.

(** X3.  A [Save] that returns an error changes no file but, at most, a
    temporary one it could not remove: every file whose name is not a
    temporary name is as before, and when [os.Remove] works the directory
    is exactly as before. *)
Theorem failed_Save_leaves_no_trace sessionKey s w err :
  fst (Save sessionKey s w) = Some err ->
  let d' := disk (snd (Save sessionKey s w)) in
  (forall name, (forall r, name <> tempName r) -> d' !! name = disk w !! name)
  /\ (removeFails (faults w (saves w)) = false -> d' = disk w).
Proof.
  unfold Save. destruct (SaveOps sessionKey s w) as [e [ops|]] eqn:E; simpl;
    [|intros _; split; reflexivity].
  intros ->. unfold SaveOps in E.
  destruct (String.eqb (storage s) ""); [discriminate E|].
  destruct (invalidFilename _); [discriminate E|].
  destruct (sessions s !! sessionKey); [|discriminate E].
  destruct (marshal w _) as [payload|]; [|discriminate E].
  destruct (writeSnapshot _ _ _ _) as [e ops'] eqn:Hw.
  injection E as -> ->.
  apply writeSnapshot_failure in Hw as [->|(tmp & body & [r ->] & Hfree & Hb & ->)];
    [split; reflexivity|].
  assert (Hdel : delete (tempName r) (applyOps (disk w) body) = disk w)
    by (rewrite applyOps_onFile by exact Hb; now apply delete_id).
  split.
  - intros name Hname.
    assert (Hother : forall m : gmap string string,
              delete (tempName r) m !! name = m !! name)
      by (intros m; apply lookup_delete_ne; auto).
    unfold applyOps. rewrite fold_left_app. fold (applyOps (disk w) body).
    rewrite <- Hdel at 2. rewrite Hother.
    destruct (removeFails _); simpl; [reflexivity|apply Hother].
  - intros ->. unfold applyOps. rewrite fold_left_app. exact Hdel.
Qed.

Lemma failed_Save_leaves_no_trace_witness :
  let w := {| disk := {["global.json" := "old"]}; ticks := 0;
              clock := fun n => Z.of_nat n; saves := 0;
              faults := fun _ => {| rands := [7]; createFails := false;
                                    writeFails := Some 3; chmodFails := false;
                                    syncFails := false; closeFails := false;
                                    renameFails := false; removeFails := false |};
              marshal := fun session => Some "payload" |} in
  let s := {| storage := "data";
              sessions := {["global" := {| Key := "global"; Messages := [];
                                            Created := 1; Updated := 1 |}]} |} in
  disk (snd (Save "global" s w)) = disk w.
Proof.
  intros w s.
  apply (failed_Save_leaves_no_trace "global" s w (ErrSyscall "write"));
    reflexivity.
Defined.

(** *** Which keys [Save] refuses *)

Lemma no_separator_byte c r :
  ContainsAny (String c r) "/\" = false ->
  Ascii.eqb c "/" = false /\ ContainsAny r "/\" = false.
Proof.
  cbn [ContainsAny hasByte]. rewrite !orb_false_iff. tauto.
Qed.

Lemma no_separator_parts f : ContainsAny f "/\" = false -> parts f = [f].
Proof.
  induction f as [|c r IH]; [reflexivity|].
  intros H. apply no_separator_byte in H as [Hc Hr].
  cbn [parts]. rewrite Hc, (IH Hr). reflexivity.
Qed.

Lemma no_separator_prefix f :
  ContainsAny f "/\" = false ->
  HasPrefix f "/" = false /\ HasPrefix f "../" = false.
Proof.
  unfold HasPrefix. intros H. split.
  - destruct f as [|c r]; [reflexivity|].
    apply no_separator_byte in H as [Hc _].
    cbn [prefixb]. now rewrite Ascii.eqb_sym, Hc.
  - destruct f as [|a [|b [|c r]]]; cbn [prefixb];
      rewrite ?andb_false_r; try reflexivity.
    apply no_separator_byte in H as [_ H].
    apply no_separator_byte in H as [_ H].
    apply no_separator_byte in H as [Hc _].
    now rewrite (Ascii.eqb_sym "/" c), Hc, !andb_false_r.
Qed.

Lemma invalidFilename_iff f : invalidFilename f = true <-> badFilename f.
Proof.
  unfold invalidFilename, badFilename.
  destruct (ContainsAny f "/\") eqn:Hsep.
  { rewrite orb_true_r. tauto. }
  rewrite orb_false_r.
  destruct (no_separator_prefix f Hsep) as [Hp1 Hp2].
  unfold IsLocal. rewrite Hp1, (no_separator_parts f Hsep). cbn [existsb orb].
  destruct (String.eqb_spec f "") as [->|Hne];
    [split; [tauto|reflexivity]|].
  destruct (String.eqb_spec f ".") as [->|Hd1];
    [split; [tauto|reflexivity]|].
  rewrite orb_false_r. unfold isDots.
  destruct (String.eqb_spec f ".") as [?|_]; [contradiction|].
  destruct (String.eqb_spec f "..") as [->|Hd2];
    [split; [tauto|reflexivity]|].
  cbn [orb]. rewrite Hp2.
  destruct (String.eqb_spec f "..") as [?|_]; [contradiction|].
  simpl. split; [discriminate|].
  intros [?|[?|[?|?]]]; try contradiction. discriminate.
Qed.

(** X4.  On a store with a storage root, [Save] returns [os.ErrInvalid]
    exactly for the keys whose file name (trimmed, colons replaced) is
    empty, ".", ".." or holds a slash or a backslash; it then leaves the
    world as it was. *)
Theorem Save_refuses_exactly sessionKey s w :
  storage s <> "" ->
  (fst (Save sessionKey s w) = Some ErrInvalid
   <-> badFilename (sanitizeSessionFilename sessionKey))
  /\ (fst (Save sessionKey s w) = Some ErrInvalid -> snd (Save sessionKey s w) = w).
Proof.
  intros Hs. rewrite <- invalidFilename_iff.
  unfold Save, SaveOps.
  destruct (String.eqb_spec (storage s) ""); [contradiction|].
  destruct (invalidFilename _); [split; [tauto|reflexivity]|].
  destruct (sessions s !! sessionKey); [|split; [split|]; discriminate].
  destruct (marshal w _); [|split; [split|]; discriminate].
  unfold writeSnapshot.
  destruct (CreateTemp _ _); [|split; [split|]; discriminate].
  destruct (writeFails _); [split; [split|]; discriminate|].
  repeat match goal with
         | |- context [if ?b then _ else _] => destruct b
         end; simpl; (split; [split|]; discriminate).
Qed.

Lemma Save_refuses_exactly_witness :
  let w := {| disk := ∅; ticks := 0; clock := fun n => Z.of_nat n; saves := 0;
              faults := fun _ => {| rands := [7]; createFails := false;
                                    writeFails := None; chmodFails := false;
                                    syncFails := false; closeFails := false;
                                    renameFails := false; removeFails := false |};
              marshal := fun session => Some "payload" |} in
  let s := {| storage := "data"; sessions := ∅ |} in
  fst (Save " .. " s w) = Some ErrInvalid
  <-> badFilename (sanitizeSessionFilename " .. ").
Proof.
  intros w s. apply (Save_refuses_exactly " .. " s w). discriminate.
Defined.

(** *** Loading the sessions at start-up *)

Lemma parseEntry_Some env (d : gmap string string) name session :
  parseEntry env d name = Some session ->
  Ext name = ".json" /\ readFails env name = false
  /\ TrimSpace (Key session) <> ""
  /\ exists payload, d !! name = Some payload /\ unmarshal env payload = Some session.
Proof.
  unfold parseEntry.
  destruct (String.eqb_spec (Ext name) ".json") as [He|]; [|discriminate].
  destruct (readFails env name); [discriminate|]. simpl.
  destruct (d !! name) as [payload|]; [|discriminate].
  destruct (unmarshal env payload) as [loaded|] eqn:Hu; [|discriminate].
  destruct (String.eqb_spec (TrimSpace (Key loaded)) ""); [discriminate|].
  intros [= ->]. eauto 10.
Qed.

Lemma load_sound env (d : gmap string string) names : forall m k session,
  fold_left (loadEntry env d) names m !! k = Some session ->
  m !! k = Some session
  \/ (Key session = k /\ exists name, parseEntry env d name = Some session).
Proof.
  induction names as [|name names IH]; intros m k session H; [now left|].
  simpl in H. apply IH in H as [H|H]; [|now right].
  unfold loadEntry in H.
  destruct (parseEntry env d name) as [loaded|] eqn:Hp; [|now left].
  destruct (decide (Key loaded = k)) as [<-|Hne].
  - rewrite lookup_insert_eq in H. injection H as <-. right. eauto.
  - rewrite lookup_insert_ne in H by exact Hne. now left.
Qed.

(** X5.  [loadSessions] fails only when the directory cannot be listed:
    files that are not ".json", cannot be read, do not decode or carry a
    blank key are skipped.  Every session it adds is stored under its own
    [Key], which is not blank, and is the decoding of a readable ".json"
    file of the directory. *)
Theorem loadSessions_skips_bad_files env (d : gmap string string) m :
  (readDirFails env = false -> fst (loadSessions env d m) = None)
  /\ (readDirFails env = true -> loadSessions env d m = (Some (ErrSyscall "readdir"), m))
  /\ forall k session,
       snd (loadSessions env d m) !! k = Some session ->
       m !! k = Some session
       \/ (Key session = k /\ TrimSpace k <> ""
           /\ exists name payload,
                Ext name = ".json" /\ readFails env name = false
                /\ d !! name = Some payload
                /\ unmarshal env payload = Some session).
Proof.
  unfold loadSessions. destruct (readDirFails env); simpl.
  - split; [discriminate|]. split; [reflexivity|]. intros k session H. now left.
  - split; [reflexivity|]. split; [discriminate|].
    intros k session H. apply load_sound in H as [H|[Hk [name Hp]]]; [now left|].
    right. apply parseEntry_Some in Hp as (He & Hr & Hb & payload & Hd & Hu).
    subst k. eauto 10.
Qed.

Lemma hasByte_append r suffix c :
  hasByte suffix c = true -> hasByte (r +:+ suffix) c = true.
Proof.
  intros H. induction r as [|b r IH]; [exact H|].
  change (hasByte (String b (r +:+ suffix)) c = true).
  cbn [hasByte]. rewrite IH. apply orb_true_r.
Qed.

Lemma Ext_target base : Ext (base +:+ ".json") = ".json".
Proof.
  induction base as [|c r IH]; [reflexivity|].
  change (Ext (String c (r +:+ ".json")) = ".json"). cbn [Ext].
  rewrite (hasByte_append r ".json" ".") by reflexivity.
  now rewrite andb_false_r.
Qed.

Lemma load_complete env (d : gmap string string) (target : gmap string Session)
    names : forall m name session,
  (forall n loaded, n ∈ names -> parseEntry env d n = Some loaded ->
                    target !! Key loaded = Some loaded) ->
  name ∈ names -> parseEntry env d name = Some session ->
  fold_left (loadEntry env d) names m !! Key session = Some session.
Proof.
  induction names as [|x names IH] using rev_ind; intros m name session Hall Hin Hp.
  - inversion Hin.
  - rewrite fold_left_app. simpl. unfold loadEntry at 1.
    assert (Hsess : target !! Key session = Some session) by eauto.
    destruct (parseEntry env d x) as [loaded|] eqn:Hx.
    + destruct (decide (Key loaded = Key session)) as [E|E].
      * rewrite E, lookup_insert_eq. f_equal.
        assert (Hl : target !! Key loaded = Some loaded)
          by (apply (Hall x); [apply elem_of_app; right; constructor|exact Hx]).
        rewrite E in Hl. congruence.
      * rewrite lookup_insert_ne by exact E.
        apply elem_of_app in Hin as [Hin|Hin].
        -- apply (IH m name); [|exact Hin|exact Hp].
           intros n l Hn. apply Hall. apply elem_of_app. now left.
        -- apply list_elem_of_singleton in Hin. subst x. congruence.
    + apply elem_of_app in Hin as [Hin|Hin].
      * apply (IH m name); [|exact Hin|exact Hp].
        intros n l Hn. apply Hall. apply elem_of_app. now left.
      * apply list_elem_of_singleton in Hin. subst x. congruence.
Qed.

Lemma ReadDir_lists (d : gmap string string) name :
  name ∈ ReadDir d <-> is_Some (d !! name).
Proof.
  unfold ReadDir. rewrite merge_sort_Permutation, list_elem_of_fmap. split.
  - intros ([n payload] & -> & H). apply elem_of_map_to_list in H. simpl. eauto.
  - intros [payload H]. exists (name, payload). split; [reflexivity|].
    now apply elem_of_map_to_list.
Qed.

Lemma persisted_parse env s (d : gmap string string) name loaded :
  persisted env s d -> parseEntry env d name = Some loaded ->
  sessions s !! Key loaded = Some loaded.
Proof.
  intros (H1 & H2 & _) Hp.
  apply parseEntry_Some in Hp as (He & _ & _ & payload & Hd & Hu).
  destruct (H2 name He) as (k & [session Hk] & ->); [eauto|].
  destruct (H1 k session Hk) as (Hkey & _ & payload' & Hd' & Hu').
  rewrite Hd in Hd'. injection Hd' as <-. rewrite Hu in Hu'. injection Hu' as ->.
  now rewrite Hkey.
Qed.

(** X6.  Restart reads back what was saved: when the files hold the store
    and every file can be read, [loadSessions] into an empty map yields
    exactly the sessions of the store, and [NewSessionStore] on the same
    root returns a store with these sessions. *)
Theorem reload_restores_sessions env s w :
  persisted env s (disk w) ->
  (forall name, readFails env name = false) ->
  readDirFails env = false ->
  loadSessions env (disk w) ∅ = (None, sessions s)
  /\ (mkdirFails env = false -> TrimSpace (storage s) <> "" ->
      NewSessionStore env (storage s) w
      = (Some {| storage := TrimSpace (storage s); sessions := sessions s |}, None)).
Proof.
  intros Hper Hread Hdir.
  assert (Hload : loadSessions env (disk w) ∅ = (None, sessions s)).
  { unfold loadSessions. rewrite Hdir. f_equal. apply map_eq. intros k.
    destruct (sessions s !! k) as [session|] eqn:Hk.
    - destruct Hper as (H1 & H2 & H3).
      destruct (H1 k session Hk) as (Hkey & Hnb & payload & Hd & Hu).
      assert (Hp : parseEntry env (disk w) (targetOf k) = Some session).
      { unfold parseEntry. unfold targetOf at 1. rewrite Ext_target. simpl.
        rewrite Hread, Hd, Hu, Hkey.
        now destruct (String.eqb_spec (TrimSpace k) ""). }
      rewrite <- Hkey.
      apply (load_complete env (disk w) (sessions s) _ _ (targetOf k)).
      + intros n loaded _ Hn. now apply (persisted_parse env s (disk w) n).
      + apply ReadDir_lists. eauto.
      + exact Hp.
    - destruct (fold_left _ _ _ !! k) as [session|] eqn:Hf; [|reflexivity].
      apply load_sound in Hf as [Hf|[Hkey [name Hp]]]; [discriminate Hf|].
      apply (persisted_parse env s (disk w)) in Hp; [|exact Hper].
      rewrite Hkey in Hp. congruence. }
  split; [exact Hload|]. intros Hmk Hroot.
  unfold NewSessionStore.
  destruct (String.eqb_spec (TrimSpace (storage s)) ""); [contradiction|].
  now rewrite Hmk, Hload.
Qed.

Lemma reload_restores_sessions_witness :
  let session := {| Key := "global"; Messages := []; Created := 1; Updated := 2 |} in
  let env := {| unmarshal := fun payload => if String.eqb payload "G"
                                            then Some session else None;
                readFails := fun _ => false; mkdirFails := false;
                readDirFails := false |} in
  let s := {| storage := "data"; sessions := {["global" := session]} |} in
  let w := {| disk := {["global.json" := "G"; "notes.txt" := "x"]}; ticks := 0;
              clock := fun n => Z.of_nat n; saves := 0;
              faults := fun _ => {| rands := []; createFails := false;
                                    writeFails := None; chmodFails := false;
                                    syncFails := false; closeFails := false;
                                    renameFails := false; removeFails := false |};
              marshal := fun _ => Some "G" |} in
  loadSessions env (disk w) ∅ = (None, sessions s).
Proof.
  intros session env s w.
  apply (reload_restores_sessions env s w); [|reflexivity|reflexivity].
  split; [|split].
  - intros k loaded H. simpl in H. apply lookup_singleton_Some in H as [<- <-].
    split; [reflexivity|]. split; [discriminate|].
    exists "G". split; reflexivity.
  - intros name He [payload H]. simpl in H.
    apply lookup_insert_Some in H as [[<- _]|[_ H]].
    + exists "global". split; [|reflexivity]. simpl. rewrite lookup_singleton_eq. eauto.
    + apply lookup_singleton_Some in H as [<- _]. discriminate He.
  - intros k1 k2 [x1 H1] [x2 H2] _. simpl in H1, H2.
    apply lookup_singleton_Some in H1 as [<- _].
    apply lookup_singleton_Some in H2 as [<- _]. reflexivity.
Defined.

Lemma Save_success sessionKey s w session :
  storage s <> "" -> sessions s !! sessionKey = Some session ->
  fst (Save sessionKey s w) = None ->
  exists payload,
    marshal w session = Some payload
    /\ disk (snd (Save sessionKey s w)) = <[targetOf sessionKey := payload]> (disk w).
Proof.
  intros Hs Hk. unfold Save, SaveOps.
  destruct (String.eqb_spec (storage s) ""); [contradiction|].
  destruct (invalidFilename _); [discriminate|].
  rewrite Hk, snapshot_eta.
  destruct (marshal w session) as [payload|]; [|discriminate].
  fold (targetOf sessionKey).
  destruct (writeSnapshot _ _ _ _) as [err ops] eqn:Hw. simpl. intros ->.
  apply writeSnapshot_spec in Hw as (tmp & _ & Hfree & ->).
  exists payload. split; [reflexivity|]. now apply rename_commits.
Qed.

Lemma appendMessage_session key msg s w :
  exists session,
    sessions (fst (appendMessage key msg s w)) = <[key := session]> (sessions s)
    /\ Key session = match sessions s !! key with
                     | Some old => Key old
                     | None => key
                     end.
Proof.
  unfold appendMessage.
  destruct (sessions s !! key) as [old|]; simpl; eauto.
Qed.

(** X7.  A successful [AddMessage] keeps the files in step with the store:
    when the files hold the store before, the key's file is shared with no
    other session and the written snapshot decodes to the session, they
    hold the store after.  With X6: what [AddMessage] saved is what a
    restart loads. *)
Theorem AddMessage_keeps_persisted env sessionKey msg s w :
  persisted env s (disk w) ->
  storage s <> "" ->
  let r := AddMessage sessionKey msg s w in
  errorOf r = None ->
  (forall session payload,
     sessions (storeAfter r) !! storeKey sessionKey = Some session ->
     marshal w session = Some payload -> unmarshal env payload = Some session) ->
  (forall k, is_Some (sessions s !! k) ->
             targetOf k = targetOf (storeKey sessionKey) -> k = storeKey sessionKey) ->
  persisted env (storeAfter r) (disk (worldAfter r)).
Proof.
  intros (H1 & H2 & H3) Hst. simpl.
  rewrite AddMessage_unfold. unfold errorOf, storeAfter, worldAfter. simpl.
  set (key := storeKey sessionKey).
  destruct (appendMessage_spec key msg s w) as (Hst1 & _ & Hd & _ & _ & Hm).
  destruct (appendMessage_session key msg s w) as (session & Hs1 & Hkey).
  set (s1 := fst (appendMessage key msg s w)) in *.
  set (w1 := snd (appendMessage key msg s w)) in *.
  intros Herr Hround Hfresh.
  assert (Hk1 : sessions s1 !! key = Some session)
    by (rewrite Hs1; apply lookup_insert_eq).
  destruct (Save_success key s1 w1 session) as (payload & Hp & Hdisk);
    [congruence|exact Hk1|exact Herr|].
  rewrite Hdisk, Hd. rewrite Hm in Hp.
  assert (Hother : forall k, k <> key -> is_Some (sessions s !! k) ->
                             targetOf k <> targetOf key)
    by (intros k Hne Hin E; apply Hne, Hfresh; assumption).
  split; [|split].
  - intros k loaded Hk. rewrite Hs1 in Hk.
    destruct (decide (key = k)) as [<-|Hne].
    + rewrite lookup_insert_eq in Hk. injection Hk as <-.
      split.
      { rewrite Hkey. destruct (sessions s !! key) as [old|] eqn:Ho; [|reflexivity].
        now destruct (H1 key old Ho). }
      split.
      { unfold key. destruct (storeKey_cases sessionKey) as [[_ ->]|[E ->]];
          [discriminate|now rewrite TrimSpace_idem]. }
      exists payload. split; [apply lookup_insert_eq|].
      apply Hround; [exact Hk1|exact Hp].
    + rewrite lookup_insert_ne in Hk by exact Hne.
      destruct (H1 k loaded Hk) as (Hkk & Hnb & payload' & Hd' & Hu').
      split; [exact Hkk|]. split; [exact Hnb|].
      exists payload'. split; [|exact Hu'].
      rewrite lookup_insert_ne; [exact Hd'|].
      intros E. apply (Hother k); [congruence|eauto|congruence].
  - intros name He Hin.
    destruct (decide (targetOf key = name)) as [<-|Hne].
    + exists key. split; [eauto|reflexivity].
    + rewrite lookup_insert_ne in Hin by exact Hne.
      destruct (H2 name He Hin) as (k & Hk & ->).
      exists k. split; [|reflexivity]. rewrite Hs1.
      destruct (decide (key = k)) as [<-|Hk'];
        [rewrite lookup_insert_eq; eauto|now rewrite lookup_insert_ne].
  - intros k1 k2 Hk1' Hk2' E. rewrite Hs1 in Hk1', Hk2'.
    destruct (decide (key = k1)) as [<-|N1], (decide (key = k2)) as [<-|N2].
    + reflexivity.
    + rewrite lookup_insert_ne in Hk2' by exact N2.
      symmetry. apply Hfresh; [exact Hk2'|congruence].
    + rewrite lookup_insert_ne in Hk1' by exact N1.
      apply Hfresh; [exact Hk1'|congruence].
    + rewrite lookup_insert_ne in Hk1' by exact N1.
      rewrite lookup_insert_ne in Hk2' by exact N2. now apply H3.
Qed.

Lemma AddMessage_keeps_persisted_witness :
  let msg := {| Channel := "telegram"; UserID := "7"; ChatID := "7";
                Text := "hello"; Timestamp := 5 |} in
  let session := {| Key := "telegram:7"; Messages := [msg];
                    Created := 0; Updated := 2 |} in
  let env := {| unmarshal := fun payload => if String.eqb payload "P"
                                            then Some session else None;
                readFails := fun _ => false; mkdirFails := false;
                readDirFails := false |} in
  let s := {| storage := "data"; sessions := ∅ |} in
  let w := {| disk := {["notes.txt" := "x"]}; ticks := 0;
              clock := fun n => Z.of_nat n; saves := 0;
              faults := fun _ => {| rands := [7]; createFails := false;
                                    writeFails := None; chmodFails := false;
                                    syncFails := false; closeFails := false;
                                    renameFails := false; removeFails := false |};
              marshal := fun _ => Some "P" |} in
  let r := AddMessage " telegram:7 " msg s w in
  persisted env (storeAfter r) (disk (worldAfter r)).
Proof.
  intros msg session env s w.
  apply (AddMessage_keeps_persisted env " telegram:7 " msg s w).
  - split; [|split].
    + intros k loaded H. simpl in H. rewrite lookup_empty in H. discriminate H.
    + intros name He [payload H]. simpl in H.
      apply lookup_singleton_Some in H as [<- _]. discriminate He.
    + intros k1 k2 [x H]. simpl in H. rewrite lookup_empty in H. discriminate H.
  - discriminate.
  - reflexivity.
  - intros loaded payload H1 H2. vm_compute in H1. injection H1 as <-.
    injection H2 as <-. reflexivity.
  - intros k [x H]. simpl in H. rewrite lookup_empty in H. discriminate H.
Defined.

(** *** The agent: what a reply depends on *)

Lemma AddMessage_dom sessionKey msg s w :
  dom (sessions (storeAfter (AddMessage sessionKey msg s w)))
  = ({[storeKey sessionKey]} ∪ dom (sessions s) : gset string).
Proof.
  rewrite AddMessage_unfold. unfold storeAfter. simpl.
  destruct (appendMessage_spec (storeKey sessionKey) msg s w)
    as (_ & (session & Hs & _) & _).
  rewrite Hs. apply dom_insert_L.
Qed.

Lemma remember_dom msg a w s :
  sessionStore a = Some s ->
  exists s', sessionStore (snd (fst (remember msg a w))) = Some s'
    /\ dom (sessions s')
       = ({["global"]} ∪ {[storeKey (messageSessionKey msg)]} ∪ dom (sessions s)
          : gset string).
Proof.
  intros Hs. unfold remember. simpl. rewrite Hs.
  pose proof (AddMessage_dom (messageSessionKey msg) msg s w) as D1.
  destruct (AddMessage (messageSessionKey msg) msg s w) as [[e1 s1] w1].
  unfold storeAfter in D1. simpl in D1.
  destruct (String.eqb_spec (messageSessionKey msg) "global") as [Eg|Eg]; simpl.
  - exists s1. split; [reflexivity|]. rewrite D1, Eg.
    change (storeKey "global") with "global".
    apply set_eq. intros x. rewrite !elem_of_union. tauto.
  - pose proof (AddMessage_dom "global" msg s1 w1) as D2.
    destruct (AddMessage "global" msg s1 w1) as [[e2 s2] w2].
    unfold storeAfter in D2. simpl in D2.
    exists s2. split; [reflexivity|]. rewrite D2, D1.
    change (storeKey "global") with "global".
    apply set_eq. intros x. rewrite !elem_of_union. tauto.
Qed.

Lemma remember_stats n a w :
  Stats (snd (fst (remember n a w))) = countsWith n a.
Proof.
  destruct (remember_memory n a w) as (Hmem & _).
  unfold Stats, countsWith. f_equal.
  - simpl in Hmem. rewrite Hmem, keepLast_length, length_app. simpl. lia.
  - destruct (sessionStore a) as [s|] eqn:Hs.
    + destruct (remember_dom n a w s Hs) as (s' & Hs' & Hd).
      rewrite Hs'. simpl. unfold SessionCount. now rewrite <- size_dom, Hd.
    + now rewrite (remember_no_store n a w Hs).
  - destruct (sessionStore a) as [s|] eqn:Hs.
    + destruct (remember_store n a w s Hs) as (s' & Hs' & Ht & _).
      rewrite Hs'. simpl. exact Ht.
    + now rewrite (remember_no_store n a w Hs).
Qed.

Lemma countsWith_ext m n a :
  Channel n = Channel m -> UserID n = UserID m -> ChatID n = ChatID m ->
  countsWith n a = countsWith m a.
Proof.
  intros Hc Hu Hi. unfold countsWith.
  now rewrite (messageSessionKey_ext m n Hc Hu Hi).
Qed.

Lemma dispatch_ext n n' size a a' :
  Text n = Text n' -> Channel n = Channel n' ->
  webFetch a = webFetch a' -> browser a = browser a' -> Stats a = Stats a' ->
  dispatch n size a = dispatch n' size a'.
Proof. intros Ht Hc Hf Hb Hs. unfold dispatch. now rewrite Ht, Hc, Hf, Hb, Hs. Qed.

(** [Process] on a message that is not blank: the kept message is
    remembered, then the command is looked up. *)
Lemma Process_nonblank msg a w :
  nonblank msg ->
  exists n w1,
    sameMessage msg n /\ Text n = TrimSpace (Text msg)
    /\ let a' := snd (fst (remember n a w1)) in
       Process msg a w
       = (dispatch n (length (memory a')) a', a', snd (remember n a w1)).
Proof.
  unfold Process, nonblank. intros Hnb.
  destruct (normalize_same msg w) as [Hsame Htext].
  destruct (normalize msg w) as [n w1]. simpl in *.
  exists n, w1. split; [exact Hsame|]. split; [exact Htext|].
  rewrite Htext. destruct (String.eqb_spec (TrimSpace (Text msg)) ""); [contradiction|].
  destruct (remember_memory n a w1) as (_ & Hsz & _).
  destruct (remember n a w1) as [[sz a1] w2]. simpl in *. now rewrite Hsz.
Qed.

Lemma Process_blank msg a w :
  ~ nonblank msg -> Process msg a w = (("", None), a, snd (normalize msg w)).
Proof.
  unfold Process, nonblank. intros Hb.
  destruct (normalize_same msg w) as [_ Htext].
  destruct (normalize msg w) as [n w1]. simpl in *. rewrite Htext.
  destruct (String.eqb_spec (TrimSpace (Text msg)) ""); [reflexivity|contradiction].
Qed.

(** X8.  What [Process] answers, and the counts of the agent after it,
    depend on the message and the agent only: not on the files under the
    storage root, not on the clock, and not on whether the saves of
    [remember] fail. *)
Theorem reply_ignores_storage msg a w w' :
  fst (fst (Process msg a w)) = fst (fst (Process msg a w'))
  /\ Stats (agentAfter (Process msg a w)) = Stats (agentAfter (Process msg a w')).
Proof.
  unfold agentAfter.
  destruct (decide (nonblank msg)) as [Hnb|Hb].
  - destruct (Process_nonblank msg a w Hnb) as (n & w1 & (Hc & Hu & Hi & _) & Ht & HP).
    destruct (Process_nonblank msg a w' Hnb)
      as (n' & w1' & (Hc' & Hu' & Hi' & _) & Ht' & HP').
    simpl in HP, HP'. rewrite HP, HP'. simpl.
    destruct (remember_memory n a w1) as (Hm & _ & _ & Hf & Hb).
    destruct (remember_memory n' a w1') as (Hm' & _ & _ & Hf' & Hb').
    simpl in Hm, Hm', Hf, Hf', Hb, Hb'.
    assert (Hstats : Stats (snd (fst (remember n a w1)))
                     = Stats (snd (fst (remember n' a w1')))).
    { rewrite !remember_stats.
      rewrite (countsWith_ext msg n a Hc Hu Hi).
      now rewrite (countsWith_ext msg n' a Hc' Hu' Hi'). }
    split; [|exact Hstats].
    assert (Hlen : length (memory (snd (fst (remember n a w1))))
                   = length (memory (snd (fst (remember n' a w1'))))).
    { rewrite Hm, Hm', !keepLast_length, !length_app. reflexivity. }
    rewrite Hlen. apply dispatch_ext; congruence.
  - rewrite !Process_blank by exact Hb. split; reflexivity.
Qed.

Lemma fetch_prefix_only l :
  HasPrefix l "/fetch " = true -> HasPrefix l "/status" = false.
Proof.
  unfold HasPrefix. destruct l as [|c0 [|c1 r]]; cbn [prefixb];
    rewrite ?andb_false_r; try discriminate.
  intros H. apply andb_true_iff in H as [_ H]. apply andb_true_iff in H as [H1 _].
  apply Ascii.eqb_eq in H1. subst c1. simpl. apply andb_false_r.
Qed.

Lemma browse_prefix_only l :
  HasPrefix l "/browse " = true ->
  HasPrefix l "/status" = false /\ HasPrefix l "/fetch " = false.
Proof.
  unfold HasPrefix. destruct l as [|c0 [|c1 r]]; cbn [prefixb];
    rewrite ?andb_false_r; try discriminate.
  intros H. apply andb_true_iff in H as [_ H]. apply andb_true_iff in H as [H1 _].
  apply Ascii.eqb_eq in H1. subst c1. simpl. split; apply andb_false_r.
Qed.

Lemma prefix_nonblank text pre :
  pre <> "" -> HasPrefix (ToLower (TrimSpace text)) pre = true -> TrimSpace text <> "".
Proof.
  intros Hpre H E. rewrite E in H. destruct pre; [contradiction|discriminate H].
Qed.

(** X9.  A text that starts with "/status", in any letter case, is
    answered with the counts taken after the message itself is remembered:
    the buffer with one more message, the store with the session of the
    message and the global one, and the message stored once in each. *)
Theorem status_counts_itself msg a w :
  HasPrefix (ToLower (TrimSpace (Text msg))) "/status" = true ->
  fst (fst (Process msg a w)) = (statusReply (countsWith msg a), None)
  /\ Stats (agentAfter (Process msg a w)) = countsWith msg a.
Proof.
  intros Hp.
  assert (Hnb : nonblank msg) by (apply (prefix_nonblank _ "/status"); [discriminate|exact Hp]).
  destruct (Process_nonblank msg a w Hnb) as (n & w1 & (Hc & Hu & Hi & _) & Ht & HP).
  simpl in HP. unfold agentAfter. rewrite HP. simpl.
  rewrite remember_stats, (countsWith_ext msg n a Hc Hu Hi).
  split; [|reflexivity].
  unfold dispatch. rewrite Ht, Hp, remember_stats, (countsWith_ext msg n a Hc Hu Hi).
  reflexivity.
Qed.

Lemma status_counts_itself_witness :
  let w := {| disk := ∅; ticks := 0; clock := fun n => Z.of_nat n; saves := 0;
              faults := fun _ => {| rands := []; createFails := true;
                                    writeFails := None; chmodFails := false;
                                    syncFails := false; closeFails := false;
                                    renameFails := false; removeFails := false |};
              marshal := fun _ => None |} in
  let a := NewAgent "" None None (Some {| storage := "data"; sessions := ∅ |}) in
  let msg := {| Channel := "telegram"; UserID := "1"; ChatID := "7";
                Text := " /Status now "; Timestamp := 5 |} in
  fst (fst (Process msg a w))
  = ("ClawKangsar status: memory=1 sessions=2 stored_messages=2", None).
Proof.
  intros w a msg.
  destruct (status_counts_itself msg a w) as [H _]; [reflexivity|].
  rewrite H. vm_compute. reflexivity.
Defined.

Lemma dispatch_error msg size a reply err :
  dispatch msg size a = (reply, Some err) ->
  reply = ""
  /\ ((HasPrefix (ToLower (Text msg)) "/fetch " = true
       /\ exists fetch out,
            webFetch a = Some fetch
            /\ fetch (TrimSpace (sliceFrom (String.length "/fetch ") (Text msg)))
               = (out, Some err))
      \/ (HasPrefix (ToLower (Text msg)) "/browse " = true
          /\ exists browse out e,
               browser a = Some browse
               /\ browse (TrimSpace (sliceFrom (String.length "/browse ") (Text msg)))
                  = (out, Some e)
               /\ err = ErrWrap "browse failed: " e)).
Proof.
  unfold dispatch.
  destruct (HasPrefix _ "/status"); [discriminate|].
  destruct (HasPrefix _ "/fetch ") eqn:Hf, (webFetch a) as [fetch|] eqn:Hw; simpl;
    repeat match goal with
      | |- context [String.eqb ?x ""] => destruct (String.eqb x "")
      | |- context [match ?tool ?target with (_, _) => _ end] =>
          destruct (tool target) as [? [?|]] eqn:?
      | |- context [if HasPrefix ?x ?y then _ else _] =>
          destruct (HasPrefix x y) eqn:?
      | |- context [match browser a with Some _ => _ | None => _ end] =>
          destruct (browser a) eqn:?
      | |- _ => progress simpl
      end;
    intros H; try discriminate H; injection H as <- <-;
    (split; [reflexivity|]);
    try (left; split; [reflexivity|]; eexists _, _; split; [reflexivity|eassumption]);
    try (right; split; [reflexivity|]; eexists _, _, _;
         split; [reflexivity|split; [eassumption|reflexivity]]).
Qed.

(** X10.  When [Process] returns an error the reply is empty, the message
    is remembered all the same, and the error is the one of a tool: the
    error of the fetch tool as it is, for a "/fetch " command, or the error
    of the browser tool behind "browse failed: ", for a "/browse " command.
    A failing save is never the cause. *)
Theorem Process_error_source msg a w reply err :
  fst (fst (Process msg a w)) = (reply, Some err) ->
  let text := TrimSpace (Text msg) in
  reply = ""
  /\ (exists n, sameMessage msg n
        /\ memory (agentAfter (Process msg a w))
           = keepLast (maxMemory a) (memory a ++ [n]))
  /\ ((HasPrefix (ToLower text) "/fetch " = true
       /\ exists fetch out,
            webFetch a = Some fetch
            /\ fetch (TrimSpace (sliceFrom (String.length "/fetch ") text))
               = (out, Some err))
      \/ (HasPrefix (ToLower text) "/browse " = true
          /\ exists browse out e,
               browser a = Some browse
               /\ browse (TrimSpace (sliceFrom (String.length "/browse ") text))
                  = (out, Some e)
               /\ err = ErrWrap "browse failed: " e)).
Proof.
  intros H. simpl.
  destruct (decide (nonblank msg)) as [Hnb|Hb];
    [|rewrite Process_blank in H by exact Hb; discriminate H].
  destruct (Process_nonblank msg a w Hnb) as (n & w1 & Hsame & Ht & HP).
  simpl in HP. unfold agentAfter. rewrite HP in H |- *. simpl in H |- *.
  destruct (remember_memory n a w1) as (Hm & _ & _ & Hf & Hb). simpl in Hm, Hf, Hb.
  apply dispatch_error in H as [-> H]. rewrite Ht, Hf, Hb in H.
  split; [reflexivity|]. split; [exists n; split; [exact Hsame|exact Hm]|exact H].
Qed.

Lemma Process_error_source_witness :
  let w := {| disk := ∅; ticks := 0; clock := fun n => Z.of_nat n; saves := 0;
              faults := fun _ => {| rands := []; createFails := false;
                                    writeFails := None; chmodFails := false;
                                    syncFails := false; closeFails := false;
                                    renameFails := false; removeFails := false |};
              marshal := fun _ => None |} in
  let a := NewAgent "" (Some (fun target => ("", Some (ErrText "no display"))))
                    None None in
  let msg := {| Channel := "telegram"; UserID := "1"; ChatID := "7";
                Text := "/browse example.com"; Timestamp := 5 |} in
  exists n, sameMessage msg n
    /\ memory (agentAfter (Process msg a w)) = keepLast (maxMemory a) (memory a ++ [n]).
Proof.
  intros w a msg.
  destruct (Process_error_source msg a w ""
              (ErrWrap "browse failed: " (ErrText "no display")))
    as (_ & H & _); [reflexivity|exact H].
Defined.

(** X11.  "/browse " reads the page with the fetch tool first: when that
    returns a text that is not blank, the reply is that text cut at 1200
    bytes, whatever the browser tool is.  When there is no fetch tool,
    or it fails, or its text is blank, the browser tool answers; the error
    of the fetch tool is never reported.  The usage hint is never given:
    the target of a trimmed "/browse " command is not empty. *)
Theorem browse_prefers_fetch msg a w :
  HasPrefix (ToLower (TrimSpace (Text msg))) "/browse " = true ->
  let target :=
    TrimSpace (sliceFrom (String.length "/browse ") (TrimSpace (Text msg))) in
  let reply := fst (fst (Process msg a w)) in
  target <> ""
  /\ (forall fetch out,
        webFetch a = Some fetch -> fetch target = (out, None) -> ~ blank out ->
        reply = (truncate out 1200, None))
  /\ ((forall fetch, webFetch a = Some fetch ->
         snd (fetch target) <> None \/ blank (fst (fetch target))) ->
      reply = match browser a with
              | None => ("Browser tool unavailable.", None)
              | Some browse =>
                  match browse target with
                  | (_, Some err) => ("", Some (ErrWrap "browse failed: " err))
                  | (out, None) => (truncate out 1200, None)
                  end
              end).
Proof.
  intros Hp. simpl.
  assert (Hnb : nonblank msg)
    by (apply (prefix_nonblank _ "/browse "); [discriminate|exact Hp]).
  destruct (command_target_nonblank (Text msg)) as [_ Htarget].
  specialize (Htarget Hp).
  destruct (browse_prefix_only _ Hp) as [Hs Hf].
  destruct (Process_nonblank msg a w Hnb) as (n & w1 & _ & Ht & HP).
  simpl in HP. rewrite HP. simpl.
  destruct (remember_memory n a w1) as (_ & _ & _ & Hwf & Hbr). simpl in Hwf, Hbr.
  unfold dispatch. rewrite Ht, Hs, Hf, Hp, Hwf, Hbr.
  change (String.length "/browse ") with 8 in *.
  destruct (String.eqb_spec (TrimSpace (sliceFrom 8 (TrimSpace (Text msg)))) "")
    as [E|_]; [contradiction|].
  split; [exact Htarget|]. unfold blank. split.
  - intros fetch out -> -> Hout.
    destruct (String.eqb_spec (TrimSpace out) ""); [contradiction|reflexivity].
  - intros Hun. destruct (webFetch a) as [fetch|]; [|reflexivity].
    destruct (Hun fetch eq_refl) as [Herr|Hblank];
      destruct (fetch _) as [out [e|]]; simpl in *;
      try reflexivity; try contradiction.
    rewrite Hblank. reflexivity.
Qed.

Lemma browse_prefers_fetch_witness :
  let w := {| disk := ∅; ticks := 0; clock := fun n => Z.of_nat n; saves := 0;
              faults := fun _ => {| rands := []; createFails := false;
                                    writeFails := None; chmodFails := false;
                                    syncFails := false; closeFails := false;
                                    renameFails := false; removeFails := false |};
              marshal := fun _ => None |} in
  let a := NewAgent "" (Some (fun target => ("from the browser", None)))
                    (Some (fun target => ("from fetch", None))) None in
  let msg := {| Channel := "telegram"; UserID := "1"; ChatID := "7";
                Text := "/Browse example.com"; Timestamp := 5 |} in
  fst (fst (Process msg a w)) = ("from fetch", None).
Proof.
  intros w a msg.
  destruct (browse_prefers_fetch msg a w) as (_ & H & _); [reflexivity|].
  apply (H (fun target => ("from fetch", None)) "from fetch");
    [reflexivity|reflexivity|discriminate].
Defined.

(** *** The browser: idling, closing, browsing *)

Local Arguments sliceTo : simpl never.
Local Arguments Nat.ltb : simpl never.

Lemma step_idleTimeout st call : idleTimeout (fst (step st call)) = idleTimeout (fst st).
Proof.
  destruct st as [b c]. destruct call; simpl.
  - unfold acquireBrowser. destruct (browserCtx b); [reflexivity|]. simpl.
    now destruct (launchFails c (launches c)).
  - reflexivity.
  - unfold KillIfIdle, killLocked. destruct (browserCtx b); [|reflexivity].
    now destruct (_ <? _)%Z.
  - unfold Close, killLocked. simpl. now destruct (browserCtx b).
  - unfold Browse. destruct (normalizeURL rawURL) as [target [err|]]; [reflexivity|].
    unfold acquireBrowser. destruct (browserCtx b); simpl.
    + now destruct (navigate c target) as [body [err|]].
    + destruct (launchFails c (launches c)); simpl; [reflexivity|].
      now destruct (navigate c target) as [body [err|]].
Qed.

Lemma run_idleTimeout calls : forall st,
  idleTimeout (fst (run calls st)) = idleTimeout (fst st).
Proof.
  induction calls as [|call calls IH]; intros st; [reflexivity|].
  simpl. unfold run in IH. now rewrite IH, step_idleTimeout.
Qed.

(** X12.  The idle kill, on a browser made by [NewBrowser] and used by any
    calls since: the idle time is the configured one, or five minutes when
    that is not positive, and [KillIfIdle] kills exactly a live handle last
    used at least that long ago.  It then leaves no process running;
    otherwise it changes nothing. *)
Theorem idle_kill_exact idle calls c0 now :
  running c0 = [] ->
  let st := run calls (NewBrowser idle, c0) in
  let r := KillIfIdle now (fst st) (snd st) in
  idleTimeout (fst st) = (if (idle <=? 0)%Z then 5 * 60 * 1000000000 else idle)%Z
  /\ (0 < idleTimeout (fst st))%Z
  /\ (fst (fst r) = true
      <-> is_Some (browserCtx (fst st))
          /\ (lastUsed (fst st) + idleTimeout (fst st) <= now)%Z)
  /\ (fst (fst r) = true ->
      browserCtx (snd (fst r)) = None /\ running (snd r) = [])
  /\ (fst (fst r) = false -> snd (fst r) = fst st /\ snd r = snd st).
Proof.
  intros Hr. simpl.
  assert (Hc : consistent (run calls (NewBrowser idle, c0)))
    by (apply run_consistent; exact Hr).
  pose proof (run_idleTimeout calls (NewBrowser idle, c0)) as Hi.
  destruct (run calls (NewBrowser idle, c0)) as [b c]. simpl in *.
  split; [exact Hi|]. split.
  { rewrite Hi. unfold defaultIdleTimeout.
    destruct (Z.leb_spec idle 0); lia. }
  unfold KillIfIdle.
  destruct (browserCtx b) as [h|] eqn:Hb.
  - destruct (Z.ltb_spec (now - lastUsed b) (idleTimeout b)) as [Hlt|Hge]; simpl.
    + split; [split; [discriminate|intros [_ H]; lia]|].
      split; [discriminate|tauto].
    + pose proof (killLocked_consistent b c Hc) as Hk.
      unfold killLocked in *. rewrite Hb in *. unfold consistent in Hk. simpl in *.
      split; [split; [intros _; split; [eauto|lia]|reflexivity]|].
      split; [intros _; split; [reflexivity|exact Hk]|discriminate].
  - simpl. split; [split; [discriminate|intros [[x H] _]; discriminate H]|].
    split; [discriminate|tauto].
Qed.

Lemma idle_kill_exact_witness :
  let c0 := {| launches := 0; launchFails := fun _ => None; running := [];
               navigate := fun target => ("page", None) |} in
  let st := run [CallBrowse "example.com" 10 20] (NewBrowser 0, c0) in
  fst (fst (KillIfIdle (20 + 5 * 60 * 1000000000 - 1) (fst st) (snd st))) = false
  /\ fst (fst (KillIfIdle (20 + 5 * 60 * 1000000000) (fst st) (snd st))) = true.
Proof.
  intros c0 st. split.
  - destruct (idle_kill_exact 0 [CallBrowse "example.com" 10 20] c0
                (20 + 5 * 60 * 1000000000 - 1) eq_refl) as (_ & _ & H & _).
    destruct (fst (fst (KillIfIdle _ _ _))); [|reflexivity].
    destruct H as [H _]. destruct (H eq_refl) as [_ H']. vm_compute in H'.
    contradiction H'. reflexivity.
  - destruct (idle_kill_exact 0 [CallBrowse "example.com" 10 20] c0
                (20 + 5 * 60 * 1000000000) eq_refl) as (_ & _ & H & _).
    apply H. split; [vm_compute; eauto|vm_compute; discriminate].
Defined.

(** X13.  A live handle is reused by every [Browse], also by one that
    fails: no process is launched, the handle and the process stay, and a
    failed navigation does not stop the browser.  The time of last use
    becomes the one read after the navigation when the address is
    accepted, and stays when it is refused. *)
Theorem Browse_reuses_handle rawURL now later b c h :
  consistent (b, c) -> browserCtx b = Some h ->
  let r := Browse rawURL now later b c in
  browserCtx (snd (fst r)) = Some h
  /\ running (snd r) = [h]
  /\ launches (snd r) = launches c
  /\ lastUsed (snd (fst r))
     = match normalizeURL rawURL with
       | (_, None) => later
       | (_, Some _) => lastUsed b
       end.
Proof.
  unfold consistent. simpl. intros Hc Hb. rewrite Hb in Hc.
  unfold Browse. destruct (normalizeURL rawURL) as [target [err|]]; simpl.
  { repeat split; assumption. }
  unfold acquireBrowser. rewrite Hb. simpl.
  destruct (navigate c target) as [body [err|]]; simpl; repeat split; assumption.
Qed.

Lemma Browse_reuses_handle_witness :
  let c := {| launches := 1; launchFails := fun _ => None; running := [0];
              navigate := fun target => ("", Some (ErrText "timeout")) |} in
  let b := {| idleTimeout := 5; browserCtx := Some 0; lastUsed := 3;
              watchdog := true |} in
  let r := Browse "example.com" 10 20 b c in
  browserCtx (snd (fst r)) = Some 0
  /\ running (snd r) = [0]
  /\ launches (snd r) = 1
  /\ lastUsed (snd (fst r)) = 20%Z.
Proof.
  intros c b. apply (Browse_reuses_handle "example.com" 10 20 b c 0); reflexivity.
Defined.

Lemma length_sliceTo_le n : forall s, String.length (sliceTo n s) <= n.
Proof.
  induction n as [|n IH]; intros [|c r]; simpl; try lia.
  specialize (IH r). lia.
Qed.

(** X14.  A text [Browse] returns has at most [maxBodySize] (4000) bytes:
    it is the page text of the normalised address, trimmed, and cut at
    that size when longer.  The browser is live afterwards.  With an error
    the text is empty. *)
Theorem Browse_body_bounded rawURL now later b c :
  let r := Browse rawURL now later b c in
  match fst (fst r) with
  | (body, None) =>
      String.length body <= maxBodySize
      /\ is_Some (browserCtx (snd (fst r)))
      /\ lastUsed (snd (fst r)) = later
      /\ exists target page,
           normalizeURL rawURL = (target, None)
           /\ navigate c target = (page, None)
           /\ body = (if maxBodySize <? String.length (TrimSpace page)
                      then sliceTo maxBodySize (TrimSpace page) else TrimSpace page)
  | (body, Some _) => body = ""
  end.
Proof.
  cbv zeta. unfold Browse.
  destruct (normalizeURL rawURL) as [target [err|]]; [reflexivity|].
  assert (Hlen : forall page,
            String.length (if maxBodySize <? String.length (TrimSpace page)
                           then sliceTo maxBodySize (TrimSpace page)
                           else TrimSpace page)
            <= maxBodySize).
  { intros page.
    destruct (Nat.ltb_spec maxBodySize (String.length (TrimSpace page)));
      [apply length_sliceTo_le|lia]. }
  unfold acquireBrowser.
  destruct (browserCtx b) as [h|]; cbn [fst snd spawn touch setHandle].
  - destruct (navigate c target) as [page [err|]] eqn:Hn;
      cbn [fst snd browserCtx lastUsed]; [reflexivity|].
    split; [apply Hlen|]. split; [simpl; eauto|]. split; [reflexivity|].
    exists target, page. split; [reflexivity|]. split; [exact Hn|reflexivity].
  - cbn [launchFails launches navigate].
    destruct (launchFails c (launches c)); cbn [fst snd navigate]; [reflexivity|].
    destruct (navigate c target) as [page [err|]] eqn:Hn;
      cbn [fst snd browserCtx lastUsed]; [reflexivity|].
    split; [apply Hlen|]. split; [simpl; eauto|]. split; [reflexivity|].
    exists target, page. split; [reflexivity|]. split; [exact Hn|reflexivity].
Qed.

(** X15.  [Close] after any calls stops the browser: no handle, no process,
    no watchdog.  A second [Close] changes nothing.  Closing does not
    retire the browser: a later [Browse] of an accepted address launches a
    new process, which no watchdog will stop. *)
Theorem Close_stops_browser idle calls c0 :
  running c0 = [] ->
  let st := run (calls ++ [CallClose]) (NewBrowser idle, c0) in
  browserCtx (fst st) = None
  /\ running (snd st) = []
  /\ watchdog (fst st) = false
  /\ Close (fst st) (snd st) = st
  /\ (forall rawURL now later,
        snd (normalizeURL rawURL) = None ->
        launchFails (snd st) (launches (snd st)) = None ->
        let r := Browse rawURL now later (fst st) (snd st) in
        browserCtx (snd (fst r)) = Some (launches (snd st))
        /\ running (snd r) = [launches (snd st)]
        /\ watchdog (snd (fst r)) = false).
Proof.
  intros Hr. simpl. unfold run. rewrite fold_left_app. simpl.
  fold (run calls (NewBrowser idle, c0)).
  assert (Hc : consistent (run calls (NewBrowser idle, c0)))
    by (apply run_consistent; exact Hr).
  destruct (run calls (NewBrowser idle, c0)) as [b c].
  unfold consistent in Hc. simpl in Hc. cbn [step].
  assert (H : browserCtx (fst (Close b c)) = None
              /\ running (snd (Close b c)) = []
              /\ watchdog (fst (Close b c)) = false).
  { unfold Close, killLocked. simpl.
    destruct (browserCtx b) as [h|] eqn:Hb; simpl.
    - rewrite Hc. split; [reflexivity|]. split; [apply filter_ne_self|reflexivity].
    - repeat split; try reflexivity; assumption. }
  destruct (Close b c) as [b1 c1]. simpl in *.
  destruct H as (Hb1 & Hr1 & Hw1).
  split; [exact Hb1|]. split; [exact Hr1|]. split; [exact Hw1|]. split.
  - unfold Close, killLocked. simpl. rewrite Hb1.
    destruct b1; simpl in *. now rewrite Hb1, Hw1.
  - intros rawURL now later Hu Hl. unfold Browse.
    destruct (normalizeURL rawURL) as [target [err|]]; [discriminate Hu|].
    unfold acquireBrowser. rewrite Hb1. simpl. rewrite Hl. simpl.
    destruct (navigate c1 target) as [page [err|]]; simpl; rewrite Hr1; tauto.
Qed.

Lemma Close_stops_browser_witness :
  let c0 := {| launches := 0; launchFails := fun _ => None; running := [];
               navigate := fun target => ("page", None) |} in
  let st := run ([CallBrowse "example.com" 10 20] ++ [CallClose]) (NewBrowser 0, c0) in
  browserCtx (fst st) = None /\ running (snd st) = [].
Proof.
  intros c0 st.
  destruct (Close_stops_browser 0 [CallBrowse "example.com" 10 20] c0 eq_refl)
    as (H1 & H2 & _).
  split; [exact H1|exact H2].
Defined.

(** *** Fetching: what a fetcher made by [NewWebFetcher] returns *)

Lemma sliceTo_nonempty n s : 0 < n -> s <> "" -> sliceTo n s <> "".
Proof.
  destruct n as [|n]; [lia|]. destruct s as [|c r]; [contradiction|].
  intros _ _. cbn [sliceTo]. discriminate.
Qed.

(** X16.  A fetcher made by [NewWebFetcher] has a positive limit, 4000
    when the configured one is not positive.  A text it returns is not
    empty and has at most that many bytes: it is the text the request gave
    for the normalised address, cut at the limit when longer, and exactly
    one request was made.  With an error the text is empty, and at most
    one request was made. *)
Theorem Fetch_text_bounded t m rawURL net :
  let f := NewWebFetcher t m in
  let r := fetchWith f rawURL net in
  maxChars f = (if (m <=? 0)%Z then 4000 else m)%Z
  /\ match fst r with
     | (text, None) =>
         text <> ""
         /\ (Z.of_nat (String.length text) <= maxChars f)%Z
         /\ exists target page,
              normalizeWebURL rawURL = (target, None)
              /\ http net target = (page, None)
              /\ requests (snd r) = requests net ++ [target]
              /\ text = (if Z.to_nat (maxChars f) <? String.length page
                         then sliceTo (Z.to_nat (maxChars f)) page else page)
     | (text, Some _) =>
         text = ""
         /\ (requests (snd r) = requests net
             \/ exists target,
                  normalizeWebURL rawURL = (target, None)
                  /\ requests (snd r) = requests net ++ [target])
     end.
Proof.
  cbv zeta. split; [reflexivity|].
  assert (Hpos : (0 < maxChars (NewWebFetcher t m))%Z)
    by (simpl; destruct (Z.leb_spec m 0); lia).
  unfold fetchWith, Fetch.
  set (limit := maxChars (NewWebFetcher t m)) in *.
  destruct (normalizeWebURL rawURL) as [target [err|]]; cbn [fst snd].
  { split; [reflexivity|left; reflexivity]. }
  destruct (http net target) as [page [err|]] eqn:Hh; cbn [fst snd].
  { split; [reflexivity|right; exists target; split; reflexivity]. }
  destruct (String.eqb_spec page "") as [->|Hne]; cbn [fst snd requests].
  { split; [reflexivity|right; exists target; split; reflexivity]. }
  split; [|split].
  - destruct (Z.to_nat limit <? String.length page); [|exact Hne].
    apply sliceTo_nonempty; [lia|exact Hne].
  - destruct (Nat.ltb_spec (Z.to_nat limit) (String.length page)) as [Hlt|Hge].
    + pose proof (length_sliceTo_le (Z.to_nat limit) page). lia.
    + lia.
  - exists target, page. repeat split; reflexivity || exact Hh.
Qed.

(** *** Accepted addresses *)

Lemma parse_host_opaque rawURL u :
  GoURL.parse rawURL = Some u -> GoURL.Host u <> "" -> GoURL.Opaque u = "".
Proof.
  unfold GoURL.parse.
  destruct (GoURL.stringContainsCTLByte rawURL); [discriminate|].
  destruct (String.eqb rawURL "*"); [intros [= <-]; reflexivity|].
  destruct (GoURL.getScheme true rawURL) as [| |scheme rest]; [discriminate| |].
  all: match goal with
       | |- context [let '(_, _) := ?x in _] =>
           destruct x as [[rest0 rawQuery] forceQuery]
       end.
  all: match goal with |- context [if ?b then Some _ else _] => destruct b end;
    [intros H; injection H as <-; intros Hh; contradiction|].
  all: match goal with |- context [if ?b then None else _] => destruct b end;
    [discriminate|].
  all: match goal with
       | |- context [let '(_, _) := ?x in _] => destruct x as [authority rest1]
       end.
  all: match goal with
       | |- context [match ?x with Some _ => _ | None => _ end] =>
           destruct x as [[user host]|]
       end; [|discriminate].
  all: match goal with
       | |- context [match ?x with Some _ => _ | None => _ end] => destruct x
       end; [|discriminate].
  all: intros [= <-]; reflexivity.
Qed.

Lemma Parse_host_opaque rawURL u :
  GoURL.Parse rawURL = Some u -> GoURL.Host u <> "" -> GoURL.Opaque u = "".
Proof.
  unfold GoURL.Parse. destruct (Cut rawURL "#") as [[raw frag] found].
  destruct (GoURL.parse raw) as [url|] eqn:Hp; [|discriminate].
  pose proof (parse_host_opaque raw url Hp) as H.
  destruct (String.eqb frag ""); [intros [= <-]; exact H|].
  destruct (GoURL.unescape frag _); [|discriminate].
  intros [= <-]. exact H.
Qed.

Lemma append_assoc (a b c : string) : (a +:+ b) +:+ c = a +:+ (b +:+ c).
Proof.
  induction a as [|d a IH]; [reflexivity|].
  change (String d ((a +:+ b) +:+ c) = String d (a +:+ (b +:+ c))).
  now rewrite IH.
Qed.

Lemma prefixb_app p q x : prefixb q x = true -> prefixb (p +:+ q) (p +:+ x) = true.
Proof.
  intros H. induction p as [|c p IH]; [exact H|].
  change (prefixb (String c (p +:+ q)) (String c (p +:+ x)) = true).
  cbn [prefixb]. now rewrite Ascii.eqb_refl.
Qed.

Lemma prefixb_weaken p a x : prefixb p a = true -> prefixb p (a +:+ x) = true.
Proof.
  revert a. induction p as [|c p IH]; intros a H; [reflexivity|].
  destruct a as [|d a]; [discriminate H|].
  change (String d a +:+ x) with (String d (a +:+ x)).
  cbn [prefixb] in *. apply andb_true_iff in H as [-> H].
  now rewrite IH.
Qed.

(** The text of a parsed address with a scheme and a host starts with the
    scheme and "://". *)
Lemma String_scheme_host u :
  GoURL.Scheme u <> "" -> GoURL.Host u <> "" -> GoURL.Opaque u = "" ->
  HasPrefix (GoURL.String_ u) (GoURL.Scheme u +:+ "://") = true.
Proof.
  intros Hs Hh Ho. unfold HasPrefix, GoURL.String_. rewrite Ho.
  destruct (String.eqb_spec (GoURL.Scheme u) "") as [E|_]; [contradiction|].
  destruct (String.eqb_spec (GoURL.Host u) "") as [E|_]; [contradiction|].
  cbn [negb orb andb String.eqb].
  rewrite andb_false_r. cbn [orb andb].
  do 2 match goal with
       | |- prefixb _ (?a +:+ ?x) = true => apply (prefixb_weaken _ a x)
       end.
  rewrite (append_assoc (GoURL.Scheme u) ":"). apply prefixb_app. reflexivity.
Qed.

(** X17.  An address [normalizeWebURL] or [normalizeURL] accepts comes out
    starting with "http://" or "https://": no request and no navigation
    ever goes to another scheme or to an address without "//". *)
Theorem accepted_address_is_http rawURL out :
  normalizeWebURL rawURL = (out, None) \/ normalizeURL rawURL = (out, None) ->
  HasPrefix out "http://" = true \/ HasPrefix out "https://" = true.
Proof.
  intros H.
  assert (H' : normalizeWebURL rawURL = (out, None))
    by (destruct H as [H|H]; exact H).
  clear H.
  apply normalizeWebURL_accepts in H' as (_ & u & Hp & Hs & Hh & ->).
  pose proof (Parse_host_opaque _ u Hp Hh) as Ho.
  destruct Hs as [Hs|Hs]; [left|right];
    pose proof (String_scheme_host u) as H; rewrite Hs in H;
    apply H; try discriminate; assumption.
Qed.

Lemma accepted_address_is_http_witness :
  HasPrefix "https://example.com/a%20b?q=1" "http://" = true
  \/ HasPrefix "https://example.com/a%20b?q=1" "https://" = true.
Proof.
  apply (accepted_address_is_http " example.com/a%20b?q=1 ").
  left. vm_compute. reflexivity.
Defined.

(** *** The Telegram gateway *)

Lemma isAllowed_iff g userID :
  Telegram.isAllowed g userID = true <-> userID ∈ Telegram.allowList g.
Proof.
  unfold Telegram.isAllowed.
  destruct (Nat.eqb_spec (size (Telegram.allowList g)) 0) as [E|E].
  - apply size_empty_inv in E. split; [discriminate|].
    intros H. apply E in H. now apply not_elem_of_empty in H.
  - apply bool_decide_eq_true.
Qed.

(** X18.  The allow list decides alone who is served, so an empty list
    serves nobody.  A sender outside it gets "Unauthorized." in the chat the
    update came from, and nothing else happens: the message is not
    processed, not remembered and not stored. *)
Theorem telegram_allow_list g m a w :
  (Telegram.isAllowed g (Telegram.fromID m) = true
   <-> Telegram.fromID m ∈ Telegram.allowList g)
  /\ (Telegram.fromID m ∉ Telegram.allowList g ->
      Telegram.handleUpdate g (Some m) a w
      = ([(Telegram.chatID m, "Unauthorized.")], a, w))
  /\ (Telegram.allowList g = ∅ ->
      Telegram.handleUpdate g (Some m) a w
      = ([(Telegram.chatID m, "Unauthorized.")], a, w)).
Proof.
  pose proof (isAllowed_iff g (Telegram.fromID m)) as Hiff.
  split; [exact Hiff|].
  assert (H : Telegram.fromID m ∉ Telegram.allowList g ->
              Telegram.handleUpdate g (Some m) a w
              = ([(Telegram.chatID m, "Unauthorized.")], a, w)).
  { intros Hno. unfold Telegram.handleUpdate.
    destruct (Telegram.isAllowed g (Telegram.fromID m)); [|reflexivity].
    exfalso. apply Hno, Hiff. reflexivity. }
  split; [exact H|].
  intros E. apply H. rewrite E. apply not_elem_of_empty.
Qed.

(** X19.  Whatever the update, the gateway sends at most one message, to
    the chat the update came from, and never a blank one.  It is
    "Unauthorized." for a sender outside the allow list; for one inside it,
    the reply of [Process] to the trimmed text, or "Request failed." when
    [Process] returns an error, whose text the user never sees. *)
Theorem telegram_sends g update a w chat reply :
  In (chat, reply) (fst (fst (Telegram.handleUpdate g update a w))) ->
  exists m,
    update = Some m /\ chat = Telegram.chatID m
    /\ fst (fst (Telegram.handleUpdate g update a w)) = [(chat, reply)]
    /\ ~ blank reply
    /\ (((Telegram.fromID m ∉ Telegram.allowList g) /\ reply = "Unauthorized.")
        \/ (Telegram.fromID m ∈ Telegram.allowList g
            /\ ~ blank (Telegram.text m)
            /\ (let p := Process (Telegram.inbound m (fst (time_Now w))) a
                                 (snd (time_Now w)) in
                Telegram.handleUpdate g update a w
                = ([(chat, reply)], agentAfter p, snd p)
                /\ match fst (fst p) with
                   | (_, Some _) => reply = "Request failed."
                   | (text, None) => reply = text
                   end))).
Proof.
  destruct update as [m|]; [|intros []].
  intros H. exists m. revert H.
  pose proof (isAllowed_iff g (Telegram.fromID m)) as Hiff.
  unfold Telegram.handleUpdate, blank, agentAfter. cbv zeta.
  destruct (Telegram.isAllowed g (Telegram.fromID m)); cbn [negb].
  - destruct (String.eqb_spec (TrimSpace (Telegram.text m)) "") as [E|E]; [intros []|].
    destruct (time_Now w) as [now w1]. cbn [fst snd].
    destruct (Process (Telegram.inbound m now) a w1) as [[[text err] a1] w2].
    cbn [fst snd].
    set (out := match err with Some _ => "Request failed." | None => text end).
    destruct (String.eqb_spec (TrimSpace out) "") as [Eo|Eo]; [intros []|].
    cbn [fst snd]. intros [H|[]]. injection H as <- <-.
    split; [reflexivity|]. split; [reflexivity|]. split; [reflexivity|].
    split; [exact Eo|]. right. split; [apply Hiff; reflexivity|].
    split; [exact E|]. split; [reflexivity|]. subst out. now destruct err.
  - cbn [fst snd]. intros [H|[]]. injection H as <- <-.
    split; [reflexivity|]. split; [reflexivity|]. split; [reflexivity|].
    split; [discriminate|]. left. split; [|reflexivity].
    intros H. apply Hiff in H. discriminate H.
Qed.

Lemma telegram_sends_witness :
  let w := {| disk := ∅; ticks := 0; clock := fun n => Z.of_nat n; saves := 0;
              faults := fun _ => {| rands := []; createFails := false;
                                    writeFails := None; chmodFails := false;
                                    syncFails := false; closeFails := false;
                                    renameFails := false; removeFails := false |};
              marshal := fun _ => None |} in
  let a := NewAgent "" None (Some (fun target => ("", Some (ErrText "dns")))) None in
  let g := {| Telegram.allowList := {[7%Z]} |} in
  let m := {| Telegram.fromID := 7; Telegram.chatID := 9;
              Telegram.text := "/fetch example.com" |} in
  exists m', Some m = Some m' /\ 9%Z = Telegram.chatID m'
    /\ fst (fst (Telegram.handleUpdate g (Some m) a w)) = [(9%Z, "Request failed.")].
Proof.
  intros w a g m.
  destruct (telegram_sends g (Some m) a w 9 "Request failed.")
    as (m' & H1 & H2 & H3 & _); [vm_compute; left; reflexivity|].
  exists m'. split; [exact H1|]. split; [exact H2|exact H3].
Defined.

(** *** The session file of a Telegram chat *)

Lemma strip_plain backwards (l : list ascii) :
  Forall (fun c => ~ spacey c) l -> strip backwards l = l.
Proof.
  unfold spacey. intros H.
  destruct l as [|c1 r1]; [reflexivity|].
  apply Forall_cons in H as [H1 H]. cbn [strip].
  destruct (isSpace1 c1) eqn:E1; [tauto|].
  destruct r1 as [|c2 r2]; [reflexivity|].
  apply Forall_cons in H as [H2 H].
  destruct (if backwards then isSpace2 c2 c1 else isSpace2 c1 c2) eqn:E2.
  { exfalso. destruct backwards; apply isSpace2_high in E2; tauto. }
  destruct r2 as [|c3 r3]; [reflexivity|].
  apply Forall_cons in H as [H3 H].
  destruct (if backwards then isSpace3 c3 c2 c1 else isSpace3 c1 c2 c3) eqn:E3;
    [|reflexivity].
  exfalso. destruct backwards; apply isSpace3_high in E3; tauto.
Qed.

Lemma TrimSpace_plain s :
  Forall (fun c => ~ spacey c) (list_ascii_of_string s) -> TrimSpace s = s.
Proof.
  intros H. unfold TrimSpace, trimRight, trimLeft.
  rewrite (strip_plain false _ H).
  rewrite (strip_plain true) by (apply Forall_rev; exact H).
  now rewrite rev_involutive, string_of_list_ascii_of_string.
Qed.

Lemma decimalByte_plain c :
  decimalByte c ->
  ~ spacey c /\ c <> ":"%char /\ hasByte "/\" c = false /\ c <> "."%char.
Proof.
  unfold decimalByte. cbn [hasByte]. rewrite !orb_true_iff, !Ascii.eqb_eq.
  intros H.
  repeat (destruct H as [->|H];
          [split; [intros [H|H]; [discriminate H|vm_compute in H; now apply H]|];
           repeat split; discriminate || reflexivity|]).
  discriminate H.
Qed.

Lemma string_of_uint_bytes d :
  Forall decimalByte (list_ascii_of_string (NilEmpty.string_of_uint d)).
Proof.
  induction d; cbn [NilEmpty.string_of_uint list_ascii_of_string];
    constructor; try assumption; reflexivity.
Qed.

Lemma FormatInt_bytes n :
  Forall decimalByte (list_ascii_of_string (Telegram.FormatInt n))
  /\ Telegram.FormatInt n <> "".
Proof.
  unfold Telegram.FormatInt.
  destruct n as [|p|p]; cbn [Z.to_int NilEmpty.string_of_int].
  - split; [repeat constructor|discriminate].
  - split; [apply string_of_uint_bytes|].
    pose proof (DecimalPos.Unsigned.to_uint_nonnil p) as H.
    destruct (Pos.to_uint p); [contradiction|discriminate..].
  - split; [|discriminate].
    cbn [list_ascii_of_string]. constructor; [reflexivity|apply string_of_uint_bytes].
Qed.

Lemma FormatInt_inj n n' : Telegram.FormatInt n = Telegram.FormatInt n' -> n = n'.
Proof.
  unfold Telegram.FormatInt. intros H.
  apply DecimalZ.to_int_inj.
  pose proof (NilEmpty.isi (Z.to_int n)) as H1.
  pose proof (NilEmpty.isi (Z.to_int n')) as H2.
  rewrite H in H1. congruence.
Qed.

Lemma append_inj_l (p a b : string) : p +:+ a = p +:+ b -> a = b.
Proof.
  induction p as [|c p IH]; [tauto|].
  change (String c (p +:+ a) = String c (p +:+ b) -> a = b).
  intros [= H]. exact (IH H).
Qed.

Lemma append_inj_r (a b q : string) :
  String.length a = String.length b -> a +:+ q = b +:+ q -> a = b.
Proof.
  revert b. induction a as [|c a IH]; intros [|d b] Hl; try discriminate Hl;
    [reflexivity|].
  change (String c (a +:+ q) = String d (b +:+ q) -> String c a = String d b).
  intros [= -> H]. f_equal. apply IH; [now injection Hl|exact H].
Qed.

Lemma replace_colon_plain s :
  ~ hasColon s -> ReplaceAll s ":" "_" = s.
Proof.
  unfold hasColon. rewrite replace_colon. intros H.
  rewrite <- (string_of_list_ascii_of_string s) at 2. f_equal.
  induction (list_ascii_of_string s) as [|c l IH]; [reflexivity|].
  cbn [map]. rewrite IH by (intros Hin; apply H; now right).
  destruct (Ascii.eqb_spec c ":") as [->|_]; [|reflexivity].
  exfalso. apply H. now left.
Qed.

Lemma replace_colon_app a b :
  ReplaceAll (a +:+ b) ":" "_" = ReplaceAll a ":" "_" +:+ ReplaceAll b ":" "_".
Proof.
  rewrite !replace_colon, list_ascii_app, map_app.
  induction (map _ (list_ascii_of_string a)) as [|c l IH]; [reflexivity|].
  cbn [app string_of_list_ascii]. now rewrite IH.
Qed.

Lemma telegram_key m now :
  messageSessionKey (Telegram.inbound m now)
  = "telegram:" +:+ Telegram.FormatInt (Telegram.chatID m).
Proof.
  unfold messageSessionKey, Telegram.inbound. cbn [Channel ChatID].
  destruct (FormatInt_bytes (Telegram.chatID m)) as [Hb Hne].
  rewrite (TrimSpace_plain (Telegram.FormatInt _))
    by (eapply Forall_impl; [exact Hb|]; intros c Hc; now apply decimalByte_plain).
  destruct (String.eqb_spec (Telegram.FormatInt (Telegram.chatID m)) "");
    [contradiction|].
  reflexivity.
Qed.

Lemma telegram_key_plain n :
  Forall (fun c => ~ spacey c)
         (list_ascii_of_string ("telegram:" +:+ Telegram.FormatInt n)).
Proof.
  rewrite list_ascii_app. apply Forall_app. split.
  - repeat constructor;
      (intros [H|H]; [discriminate H|vm_compute in H; now apply H]).
  - destruct (FormatInt_bytes n) as [Hb _].
    eapply Forall_impl; [exact Hb|]. intros c Hc. now apply decimalByte_plain.
Qed.

Lemma telegram_key_stored n :
  storeKey ("telegram:" +:+ Telegram.FormatInt n)
  = "telegram:" +:+ Telegram.FormatInt n.
Proof.
  unfold storeKey. rewrite (TrimSpace_plain _ (telegram_key_plain n)). reflexivity.
Qed.

Lemma telegram_filename n :
  sanitizeSessionFilename ("telegram:" +:+ Telegram.FormatInt n)
  = "telegram_" +:+ Telegram.FormatInt n.
Proof.
  unfold sanitizeSessionFilename.
  rewrite (TrimSpace_plain _ (telegram_key_plain n)), replace_colon_app.
  rewrite (replace_colon_plain (Telegram.FormatInt n)); [reflexivity|].
  unfold hasColon. destruct (FormatInt_bytes n) as [Hb _].
  rewrite List.Forall_forall in Hb. intros Hin.
  apply Hb, decimalByte_plain in Hin. tauto.
Qed.

(** X20.  Every Telegram chat has a session file of its own: the session
    key of a Telegram message is "telegram:" and the chat number, it is
    stored under that key as it is, its file is "telegram_<chat>.json",
    which is none of the names [Save] refuses, and two chats never share a
    file. *)
Theorem telegram_session_file m now :
  let key := messageSessionKey (Telegram.inbound m now) in
  key = "telegram:" +:+ Telegram.FormatInt (Telegram.chatID m)
  /\ storeKey key = key
  /\ targetOf key = "telegram_" +:+ Telegram.FormatInt (Telegram.chatID m) +:+ ".json"
  /\ ~ badFilename (sanitizeSessionFilename key)
  /\ (forall m' now',
        targetOf (messageSessionKey (Telegram.inbound m' now')) = targetOf key ->
        Telegram.chatID m' = Telegram.chatID m).
Proof.
  cbv zeta. rewrite telegram_key. split; [reflexivity|].
  split; [apply telegram_key_stored|].
  split.
  { unfold targetOf. rewrite telegram_filename. apply append_assoc. }
  split.
  - rewrite telegram_filename. unfold badFilename.
    intros [H|[H|[H|H]]]; try discriminate H.
    apply ContainsAny_In in H as (c & Hin & Hc).
    rewrite list_ascii_app, in_app_iff in Hin. destruct Hin as [Hin|Hin].
    + cbn in Hin. repeat (destruct Hin as [<-|Hin]; [discriminate Hc|]). exact Hin.
    + destruct (FormatInt_bytes (Telegram.chatID m)) as [Hb _].
      rewrite List.Forall_forall in Hb.
      apply Hb, decimalByte_plain in Hin. destruct Hin as (_ & _ & Hs & _).
      congruence.
  - intros m' now'. rewrite telegram_key. unfold targetOf. rewrite !telegram_filename.
    intros H. apply FormatInt_inj.
    assert (H' : "telegram_" +:+ Telegram.FormatInt (Telegram.chatID m')
                 = "telegram_" +:+ Telegram.FormatInt (Telegram.chatID m)).
    { apply (append_inj_r _ _ ".json"); [|exact H].
      apply (f_equal String.length) in H. rewrite !length_append in H.
      rewrite !length_append. lia. }
    exact (append_inj_l _ _ _ H').
Qed.

(** *** The WhatsApp gateway *)

(** X21.  The WhatsApp gateway answers only messages of others that carry
    a text: the conversation text when it is not blank, otherwise the
    extended text, trimmed in both cases.  It sends at most one message,
    to the chat of the event, trimmed and not empty: the reply of
    [Process], or "Request failed." when [Process] returns an error. *)
Theorem whatsapp_sends rawEvent a w chat reply :
  In (chat, reply) (fst (fst (WhatsApp.handleEvent rawEvent a w))) ->
  exists event message,
    rawEvent = Some event /\ WhatsApp.IsFromMe event = false
    /\ WhatsApp.EventMessage event = Some message
    /\ chat = WhatsApp.Chat event
    /\ reply <> "" /\ TrimSpace reply = reply
    /\ (let text := Text (WhatsApp.inbound event) in
        text <> "" /\ TrimSpace text = text
        /\ (~ blank (WhatsApp.Conversation message) ->
            text = TrimSpace (WhatsApp.Conversation message))
        /\ (blank (WhatsApp.Conversation message) ->
            exists extended, WhatsApp.ExtendedText message = Some extended
                             /\ text = TrimSpace extended))
    /\ (let p := Process (WhatsApp.inbound event) a w in
        WhatsApp.handleEvent rawEvent a w = ([(chat, reply)], agentAfter p, snd p)
        /\ match fst (fst p) with
           | (_, Some _) => reply = "Request failed."
           | (text, None) => reply = TrimSpace text
           end).
Proof.
  destruct rawEvent as [event|]; [|intros []].
  intros H. exists event. revert H.
  unfold WhatsApp.handleEvent, agentAfter. cbv zeta.
  destruct (WhatsApp.IsFromMe event); [intros []|].
  destruct (String.eqb_spec (WhatsApp.extractText (WhatsApp.EventMessage event)) "")
    as [E|E]; [intros []|].
  assert (Htext : exists message,
            WhatsApp.EventMessage event = Some message
            /\ TrimSpace (WhatsApp.extractText (WhatsApp.EventMessage event))
               = WhatsApp.extractText (WhatsApp.EventMessage event)
            /\ (~ blank (WhatsApp.Conversation message) ->
                WhatsApp.extractText (WhatsApp.EventMessage event)
                = TrimSpace (WhatsApp.Conversation message))
            /\ (blank (WhatsApp.Conversation message) ->
                exists extended,
                  WhatsApp.ExtendedText message = Some extended
                  /\ WhatsApp.extractText (WhatsApp.EventMessage event)
                     = TrimSpace extended)).
  { revert E. unfold WhatsApp.extractText, blank.
    destruct (WhatsApp.EventMessage event) as [message|]; [|contradiction].
    intros E. exists message. split; [reflexivity|].
    destruct (String.eqb_spec (TrimSpace (WhatsApp.Conversation message)) "")
      as [Ec|Ec]; cbn [negb] in *.
    - destruct (WhatsApp.ExtendedText message) as [extended|]; [|contradiction].
      destruct (String.eqb_spec (TrimSpace extended) ""); cbn [negb] in *;
        [contradiction|].
      split; [apply TrimSpace_idem|]. split; [contradiction|]. eauto.
    - split; [apply TrimSpace_idem|]. split; [reflexivity|contradiction]. }
  destruct Htext as (message & Hm & Htrim & Hconv & Hext).
  destruct (Process (WhatsApp.inbound event) a w) as [[[text err] a1] w1].
  cbn [fst snd].
  set (out := match err with Some _ => "Request failed." | None => text end).
  destruct (String.eqb_spec (TrimSpace out) "") as [Eo|Eo]; [intros []|].
  cbn [fst snd]. intros [H|[]]. injection H as <- <-.
  exists message. split; [reflexivity|]. split; [reflexivity|].
  split; [exact Hm|]. split; [reflexivity|]. split; [exact Eo|].
  split; [apply TrimSpace_idem|].
  split.
  - cbn [WhatsApp.inbound Text]. repeat split; assumption.
  - split; [reflexivity|]. subst out. destruct err; reflexivity.
Qed.

Lemma whatsapp_sends_witness :
  let w := {| disk := ∅; ticks := 0; clock := fun n => Z.of_nat n; saves := 0;
              faults := fun _ => {| rands := []; createFails := false;
                                    writeFails := None; chmodFails := false;
                                    syncFails := false; closeFails := false;
                                    renameFails := false; removeFails := false |};
              marshal := fun _ => None |} in
  let a := NewAgent "" None (Some (fun target => (" page ", None))) None in
  let event := {| WhatsApp.IsFromMe := false; WhatsApp.Sender := "60123@s.whatsapp.net";
                  WhatsApp.Chat := "60123@s.whatsapp.net";
                  WhatsApp.EventTimestamp := 5;
                  WhatsApp.EventMessage :=
                    Some {| WhatsApp.Conversation := "  ";
                            WhatsApp.ExtendedText := Some " /fetch example.com " |} |} in
  WhatsApp.handleEvent (Some event) a w
  = ([("60123@s.whatsapp.net", "page")],
     agentAfter (Process (WhatsApp.inbound event) a w),
     snd (Process (WhatsApp.inbound event) a w)).
Proof.
  intros w a event.
  destruct (whatsapp_sends (Some event) a w "60123@s.whatsapp.net" "page")
    as (event' & message & H1 & _ & _ & _ & _ & _ & _ & H & _);
    [vm_compute; left; reflexivity|].
  injection H1 as <-. exact H.
Defined.

(** *** The status tracker and the readiness probe *)

Lemma countIf_zero test (g : gmap string StatusTracker.gatewayRuntime) :
  StatusTracker.countIf test g = 0
  <-> forall k v, g !! k = Some v -> test v = false.
Proof.
  unfold StatusTracker.countIf.
  apply (map_fold_weak_ind
           (fun n (m : gmap string StatusTracker.gatewayRuntime) =>
              n = 0 <-> forall k v, m !! k = Some v -> test v = false)).
  - split; [intros _ k v H; rewrite lookup_empty in H; discriminate H|reflexivity].
  - intros i x m r Hi IH. split.
    + intros H k v Hk. destruct (test x) eqn:Ex; [discriminate H|].
      destruct (decide (i = k)) as [->|Hne].
      * rewrite lookup_insert_eq in Hk. congruence.
      * rewrite lookup_insert_ne in Hk by exact Hne.
        exact (proj1 IH H k v Hk).
    + intros H. rewrite (H i x) by apply lookup_insert_eq.
      apply IH. intros k v Hk. apply (H k v).
      rewrite lookup_insert_ne; [exact Hk|]. intros ->. congruence.
Qed.

Lemma countIf_some test (g : gmap string StatusTracker.gatewayRuntime) :
  StatusTracker.countIf test g <> 0
  <-> exists k v, g !! k = Some v /\ test v = true.
Proof.
  rewrite countIf_zero. split.
  - intros H.
    destruct (decide (map_Forall (fun _ v => test v = false) g)) as [Hall|Hex].
    + exfalso. apply H. exact Hall.
    + apply map_not_Forall in Hex; [|intros; apply _].
      destruct Hex as (k & v & Hk & Hv). exists k, v. split; [exact Hk|].
      now destruct (test v).
  - intros (k & v & Hk & Hv) H. rewrite (H k v Hk) in Hv. discriminate Hv.
Qed.

Lemma change_configured s c :
  (forall k v, StatusTracker.gateways s !! k = Some v -> StatusTracker.Configured v = true) ->
  forall k v, StatusTracker.gateways (StatusTracker.change s c) !! k = Some v ->
              StatusTracker.Configured v = true.
Proof.
  intros H k v.
  assert (Hstate : forall name,
            StatusTracker.Configured (StatusTracker.stateOf s name) = true).
  { intros name. unfold StatusTracker.stateOf.
    destruct (StatusTracker.gateways s !! name) eqn:E; [eauto|reflexivity]. }
  destruct c as [name running now|name [text|] now];
    cbn [StatusTracker.change StatusTracker.setRunning StatusTracker.setError
         StatusTracker.withGateways StatusTracker.gateways]; [| |apply H].
  all: destruct (decide (name = k)) as [->|Hne];
    [rewrite lookup_insert_eq; intros [= <-]; apply Hstate
    |rewrite lookup_insert_ne by exact Hne; apply H].
Qed.

Lemma changes_configured cs : forall s,
  (forall k v, StatusTracker.gateways s !! k = Some v -> StatusTracker.Configured v = true) ->
  forall k v, StatusTracker.gateways (StatusTracker.changes cs s) !! k = Some v ->
              StatusTracker.Configured v = true.
Proof.
  induction cs as [|c cs IH]; intros s H; [exact H|].
  apply IH, change_configured, H.
Qed.

Lemma newStatusTracker_gateways app version runners w :
  let s := fst (StatusTracker.newStatusTracker app version runners w) in
  (forall k v, StatusTracker.gateways s !! k = Some v ->
               In k runners /\ StatusTracker.Configured v = true
               /\ StatusTracker.Running v = false)
  /\ (forall k, In k runners -> is_Some (StatusTracker.gateways s !! k)).
Proof.
  unfold StatusTracker.newStatusTracker.
  set (f := fun (st : gmap string StatusTracker.gatewayRuntime * World) name => _).
  assert (H : forall names acc w0,
            let r := fst (fold_left f names (acc, w0)) in
            (forall k v, r !! k = Some v ->
               (acc !! k = Some v \/ In k names)
               /\ (In k names -> StatusTracker.Configured v = true
                                 /\ StatusTracker.Running v = false))
            /\ (forall k, In k names \/ is_Some (acc !! k) -> is_Some (r !! k))).
  { induction names as [|name names IH]; intros acc w0.
    - simpl. split; [intros k v Hk; split; [tauto|intros []]|intros k [[]|Hk]; exact Hk].
    - cbn [fold_left]. unfold f at 2. cbn [fst snd time_Now].
      match goal with |- context [fold_left f names (?acc', ?w')] =>
        destruct (IH acc' w') as [IH1 IH2] end.
      split.
      + intros k v Hk. destruct (IH1 k v Hk) as [Hor Hin].
        destruct (decide (name = k)) as [->|Hne].
        * split; [right; now left|]. intros _.
          destruct Hor as [Hacc|Hn]; [|auto].
          rewrite lookup_insert_eq in Hacc. injection Hacc as <-. split; reflexivity.
        * rewrite lookup_insert_ne in Hor by exact Hne.
          split; [destruct Hor; [tauto|right; now right]|].
          intros [->|Hn]; [contradiction|auto].
      + intros k Hk. apply IH2.
        destruct (decide (name = k)) as [->|Hne];
          [right; rewrite lookup_insert_eq; eauto|].
        rewrite lookup_insert_ne by exact Hne.
        destruct Hk as [[->|Hk]|Hk]; [contradiction|tauto|tauto]. }
  specialize (H runners ∅ w). cbv zeta in H.
  destruct (fold_left f runners (∅, w)) as [g w1]. cbn [fst snd time_Now] in *.
  destruct H as [H1 H2]. split.
  - intros k v Hk. destruct (H1 k v Hk) as [[Hacc|Hin] Hc].
    + rewrite lookup_empty in Hacc. discriminate Hacc.
    + split; [exact Hin|]. apply Hc, Hin.
  - intros k Hk. apply H2. now left.
Qed.

Lemma ready_iff s :
  StatusTracker.ready s = true
  <-> (forall k v, StatusTracker.gateways s !! k = Some v ->
                   StatusTracker.Configured v = false)
      \/ exists k v, StatusTracker.gateways s !! k = Some v
                     /\ StatusTracker.Running v = true.
Proof.
  unfold StatusTracker.ready. rewrite <- countIf_zero, <- countIf_some.
  destruct (Nat.eqb_spec
              (StatusTracker.countIf StatusTracker.Configured (StatusTracker.gateways s)) 0)
    as [E|E].
  - tauto.
  - rewrite Nat.ltb_lt. lia.
Qed.

(** X22.  For a tracker built by [newStatusTracker] and changed by any
    [setRunning] and [setError] calls, every gateway counts as configured,
    so the service is ready exactly when it has no gateway at all or at
    least one gateway is running, and the readiness probe answers 503
    exactly when there are gateways and none runs.  At start, with a
    runner, the service is not ready. *)
Theorem ready_means_running app version runners w cs :
  let s := StatusTracker.changes cs
             (fst (StatusTracker.newStatusTracker app version runners w)) in
  (forall k v, StatusTracker.gateways s !! k = Some v ->
               StatusTracker.Configured v = true)
  /\ (StatusTracker.ready s = true
      <-> StatusTracker.gateways s = ∅
          \/ exists k v, StatusTracker.gateways s !! k = Some v
                         /\ StatusTracker.Running v = true)
  /\ (StatusTracker.handleReady (Some (StatusTracker.ready s)) = (503, "not_ready")
      <-> StatusTracker.gateways s <> ∅
          /\ forall k v, StatusTracker.gateways s !! k = Some v ->
                         StatusTracker.Running v = false)
  /\ (cs = [] -> runners <> [] -> StatusTracker.ready s = false).
Proof.
  cbv zeta.
  destruct (newStatusTracker_gateways app version runners w) as [Hnew Hin].
  cbv zeta in Hnew, Hin.
  set (s0 := fst (StatusTracker.newStatusTracker app version runners w)) in *.
  assert (Hconf : forall k v,
            StatusTracker.gateways (StatusTracker.changes cs s0) !! k = Some v ->
            StatusTracker.Configured v = true).
  { apply changes_configured. intros k v Hk. now destruct (Hnew k v Hk). }
  set (s := StatusTracker.changes cs s0) in *.
  assert (Hready : StatusTracker.ready s = true
                   <-> StatusTracker.gateways s = ∅
                       \/ exists k v, StatusTracker.gateways s !! k = Some v
                                      /\ StatusTracker.Running v = true).
  { rewrite ready_iff. split; (intros [H|H]; [left|right; exact H]).
    - apply map_empty. intros k.
      destruct (StatusTracker.gateways s !! k) as [v|] eqn:Hk; [|reflexivity].
      pose proof (H k v Hk). pose proof (Hconf k v Hk). congruence.
    - intros k v Hk. rewrite H, lookup_empty in Hk. discriminate Hk. }
  split; [exact Hconf|]. split; [exact Hready|]. split.
  - unfold StatusTracker.handleReady.
    destruct (StatusTracker.ready s) eqn:Er.
    + split; [discriminate|]. intros [Hne Hall].
      destruct Hready as [Hready _]. destruct (Hready eq_refl) as [H|(k & v & Hk & Hv)];
        [contradiction|]. rewrite (Hall k v Hk) in Hv. discriminate Hv.
    + split; [intros _|reflexivity].
      split.
      * intros E. destruct Hready as [_ Hready].
        discriminate (Hready (or_introl E)).
      * intros k v Hk. destruct (StatusTracker.Running v) eqn:Ev; [|reflexivity].
        destruct Hready as [_ Hready].
        assert (H : false = true); [|discriminate H].
        apply Hready. right. eauto.
  - intros -> Hr. subst s. cbn [StatusTracker.changes fold_left] in *.
    destruct (StatusTracker.ready s0) eqn:Er; [|reflexivity].
    destruct Hready as [Hready _]. destruct (Hready eq_refl) as [H|(k & v & Hk & Hv)].
    + destruct runners as [|name rest]; [contradiction|].
      destruct (Hin name) as [v Hv]; [now left|].
      rewrite H, lookup_empty in Hv. discriminate Hv.
    + destruct (Hnew k v Hk) as (_ & _ & Hrun). congruence.
Qed.

Lemma ready_means_running_witness :
  let w := {| disk := ∅; ticks := 0; clock := fun n => Z.of_nat n; saves := 0;
              faults := fun _ => {| rands := []; createFails := false;
                                    writeFails := None; chmodFails := false;
                                    syncFails := false; closeFails := false;
                                    renameFails := false; removeFails := false |};
              marshal := fun _ => None |} in
  StatusTracker.ready
    (StatusTracker.changes []
       (fst (StatusTracker.newStatusTracker "clawkangsar" "dev" ["telegram"] w)))
  = false.
Proof.
  intros w.
  destruct (ready_means_running "clawkangsar" "dev" ["telegram"] w [])
    as (_ & _ & _ & H).
  apply H; [reflexivity|discriminate].
Defined.

Lemma stateOf_setRunning name running now s :
  StatusTracker.stateOf (StatusTracker.setRunning name running now s) name
  = {| StatusTracker.Configured :=
         StatusTracker.Configured (StatusTracker.stateOf s name);
       StatusTracker.Running := running;
       StatusTracker.LastError :=
         if running then "" else StatusTracker.LastError (StatusTracker.stateOf s name);
       StatusTracker.LastChange := now |}.
Proof.
  unfold StatusTracker.stateOf at 1, StatusTracker.setRunning.
  cbn [StatusTracker.withGateways StatusTracker.gateways].
  now rewrite lookup_insert_eq.
Qed.

(** X23.  One run of a gateway, as [main] records it: afterwards the
    gateway is marked stopped; its last error is the error the run ended
    with, or none when it ended without one, whatever error an earlier run
    left, since the start clears it; the other gateways are untouched. *)
Theorem runner_run_recorded name result t0 t1 t2 s :
  let s' := StatusTracker.changes (StatusTracker.runnerChanges name result t0 t1 t2) s in
  StatusTracker.gateways s' !! name
  = Some {| StatusTracker.Configured :=
              StatusTracker.Configured (StatusTracker.stateOf s name);
            StatusTracker.Running := false;
            StatusTracker.LastError := match result with Some err => err | None => "" end;
            StatusTracker.LastChange := match result with Some _ => t2 | None => t1 end |}
  /\ (forall other, other <> name ->
        StatusTracker.gateways s' !! other = StatusTracker.gateways s !! other)
  /\ ((forall other v, other <> name -> StatusTracker.gateways s !! other = Some v ->
         StatusTracker.Running v = false) ->
      StatusTracker.Configured (StatusTracker.stateOf s name) = true ->
      StatusTracker.ready s' = false).
Proof.
  cbv zeta.
  assert (H1 : StatusTracker.gateways
                 (StatusTracker.changes (StatusTracker.runnerChanges name result t0 t1 t2) s)
               !! name
               = Some {| StatusTracker.Configured :=
                           StatusTracker.Configured (StatusTracker.stateOf s name);
                         StatusTracker.Running := false;
                         StatusTracker.LastError :=
                           match result with Some err => err | None => "" end;
                         StatusTracker.LastChange :=
                           match result with Some _ => t2 | None => t1 end |}).
  { destruct result as [err|];
      cbn [StatusTracker.runnerChanges StatusTracker.changes fold_left
           StatusTracker.change].
    - unfold StatusTracker.setError.
      cbn [StatusTracker.withGateways StatusTracker.gateways].
      rewrite lookup_insert_eq, !stateOf_setRunning. reflexivity.
    - unfold StatusTracker.setRunning at 1.
      cbn [StatusTracker.withGateways StatusTracker.gateways].
      rewrite lookup_insert_eq, !stateOf_setRunning. reflexivity. }
  assert (H2 : forall other, other <> name ->
            StatusTracker.gateways
              (StatusTracker.changes (StatusTracker.runnerChanges name result t0 t1 t2) s)
            !! other = StatusTracker.gateways s !! other).
  { intros other Hne. destruct result as [err|];
      cbn [StatusTracker.runnerChanges StatusTracker.changes fold_left
           StatusTracker.change StatusTracker.setRunning StatusTracker.setError
           StatusTracker.withGateways StatusTracker.gateways];
      now rewrite !lookup_insert_ne by congruence. }
  split; [exact H1|]. split; [exact H2|].
  intros Hothers Hconf.
  destruct (StatusTracker.ready _) eqn:Er; [|reflexivity].
  apply ready_iff in Er as [Hnone|(k & v & Hk & Hv)].
  - specialize (Hnone name _ H1). cbn in Hnone. congruence.
  - destruct (decide (k = name)) as [->|Hne].
    + rewrite H1 in Hk. injection Hk as <-. discriminate Hv.
    + rewrite H2 in Hk by exact Hne. rewrite (Hothers k v Hne Hk) in Hv.
      discriminate Hv.
Qed.

(** *** The configuration *)

Lemma orDefault_nonempty value fallback :
  fallback <> "" -> Config.orDefault value fallback <> ""
  /\ Config.orDefault (Config.orDefault value fallback) fallback
     = Config.orDefault value fallback.
Proof.
  intros Hf. unfold Config.orDefault.
  destruct (String.eqb_spec value "") as [->|Hv].
  - split; [exact Hf|]. now destruct (String.eqb_spec fallback "").
  - split; [exact Hv|]. now destruct (String.eqb_spec value "").
Qed.

Lemma positiveOr_positive value fallback :
  (0 < fallback)%Z ->
  (0 < Config.positiveOr value fallback)%Z
  /\ Config.positiveOr (Config.positiveOr value fallback) fallback
     = Config.positiveOr value fallback.
Proof.
  intros Hf. unfold Config.positiveOr.
  destruct (Z.leb_spec value 0).
  - split; [exact Hf|]. destruct (Z.leb_spec fallback 0); [lia|reflexivity].
  - split; [lia|]. destruct (Z.leb_spec value 0); [lia|reflexivity].
Qed.

Lemma Normalize_idem c : Config.Normalize (Config.Normalize c) = Config.Normalize c.
Proof.
  unfold Config.Normalize.
  cbn [Config.LogLevel Config.SystemPrompt Config.WhatsApp Config.Telegram
       Config.Browser Config.Storage Config.Health Config.Tools
       Config.waEnabled Config.SessionDSN Config.IdleTimeoutSeconds
       Config.SessionDir Config.hEnabled Config.Host Config.Port
       Config.WebFetchTimeoutSeconds Config.WebFetchMaxChars].
  repeat match goal with
    | |- context [Config.orDefault (Config.orDefault ?v ?f) ?f] =>
        rewrite (proj2 (orDefault_nonempty v f ltac:(discriminate)))
    | |- context [Config.positiveOr (Config.positiveOr ?v ?f) ?f] =>
        rewrite (proj2 (positiveOr_positive v f ltac:(reflexivity)))
    end.
  reflexivity.
Qed.

(** X24.  A configuration [Load] returns is complete whatever the file
    holds: every text setting but the Telegram token is not empty and
    every number is positive, so normalising it again changes nothing;
    without a file it is the default configuration.  The prompt of an
    agent made from it is not blank.  With an error no configuration is
    returned. *)
Theorem Load_normalised file decode :
  match Config.Load file decode with
  | (Some c, None) =>
      Config.Normalize c = c
      /\ Config.LogLevel c <> "" /\ Config.SystemPrompt c <> ""
      /\ Config.SessionDSN (Config.WhatsApp c) <> ""
      /\ Config.SessionDir (Config.Storage c) <> ""
      /\ Config.Host (Config.Health c) <> ""
      /\ (0 < Config.IdleTimeoutSeconds (Config.Browser c))%Z
      /\ (0 < Config.Port (Config.Health c))%Z
      /\ (0 < Config.WebFetchTimeoutSeconds (Config.Tools c))%Z
      /\ (0 < Config.WebFetchMaxChars (Config.Tools c))%Z
      /\ (file = Config.NotExist -> c = Config.Default)
      /\ (forall browser webFetch sessions,
            ~ blank (systemPrompt (NewAgent (Config.SystemPrompt c)
                                            browser webFetch sessions)))
  | (None, Some _) => file <> Config.NotExist
  | _ => False
  end.
Proof.
  assert (Hprompt : forall prompt browser webFetch sessions,
            ~ blank (systemPrompt (NewAgent prompt browser webFetch sessions))).
  { intros prompt browser webFetch sessions. unfold NewAgent, blank.
    cbn [systemPrompt].
    destruct (String.eqb_spec (TrimSpace prompt) "") as [E|E]; [|exact E].
    vm_compute. discriminate. }
  unfold Config.Load. destruct file as [|err|payload].
  - repeat match goal with |- _ /\ _ => split end;
      try discriminate; try reflexivity; apply Hprompt.
  - discriminate.
  - destruct (decode payload Config.Default) as [c|]; [|discriminate].
    split; [apply Normalize_idem|].
    unfold Config.Normalize.
    cbn [Config.LogLevel Config.SystemPrompt Config.WhatsApp Config.Telegram
         Config.Browser Config.Storage Config.Health Config.Tools
         Config.waEnabled Config.SessionDSN Config.IdleTimeoutSeconds
         Config.SessionDir Config.hEnabled Config.Host Config.Port
         Config.WebFetchTimeoutSeconds Config.WebFetchMaxChars].
    repeat match goal with
      | |- _ /\ _ => split
      | |- Config.orDefault _ _ <> "" => apply orDefault_nonempty; discriminate
      | |- (0 < Config.positiveOr _ _)%Z => apply positiveOr_positive; reflexivity
      end.
    + discriminate.
    + intros browser webFetch sessions. apply Hprompt.
Qed.

(** *** From the gateway to the store *)

(** X25.  A Telegram message of an allowed sender reaches the store: it
    is appended, with the channel "telegram", the numbers of sender and
    chat and the trimmed text, to the history of "telegram:<chat>" and to
    the global history, to no other history, and to the buffer of the
    agent, whatever the command in it and whether or not a reply is
    sent. *)
Theorem telegram_message_stored g m a w s :
  Telegram.fromID m ∈ Telegram.allowList g ->
  ~ blank (Telegram.text m) ->
  sessionStore a = Some s ->
  let key := "telegram:" +:+ Telegram.FormatInt (Telegram.chatID m) in
  let a' := snd (fst (Telegram.handleUpdate g (Some m) a w)) in
  exists s' n,
    sessionStore a' = Some s'
    /\ Channel n = "telegram"
    /\ UserID n = Telegram.FormatInt (Telegram.fromID m)
    /\ ChatID n = Telegram.FormatInt (Telegram.chatID m)
    /\ Text n = TrimSpace (Telegram.text m)
    /\ History key s' = History key s ++ [n]
    /\ History "global" s' = History "global" s ++ [n]
    /\ (forall k, storeKey k <> "global" -> storeKey k <> key ->
                  History k s' = History k s)
    /\ memory a' = keepLast (maxMemory a) (memory a ++ [n]).
Proof.
  intros Hallow Htext Hs. cbv zeta.
  unfold Telegram.handleUpdate, blank in *.
  rewrite (proj2 (isAllowed_iff g (Telegram.fromID m)) Hallow). cbn [negb].
  destruct (String.eqb_spec (TrimSpace (Telegram.text m)) ""); [contradiction|].
  destruct (time_Now w) as [now w1].
  assert (Hnb : nonblank (Telegram.inbound m now)).
  { unfold nonblank, Telegram.inbound. cbn [Text]. now rewrite TrimSpace_idem. }
  destruct (Process_nonblank (Telegram.inbound m now) a w1 Hnb)
    as (x & w2 & (Hc & Hu & Hi & _) & Ht & HP).
  cbv zeta in HP. rewrite HP.
  set (a1 := snd (fst (remember x a w2))) in *.
  assert (Hagent : forall (sent : list (Z * string)) reply,
            snd (fst (if String.eqb (TrimSpace reply) ""
                      then ([], a1, snd (remember x a w2))
                      else (sent, a1, snd (remember x a w2)))) = a1)
    by (intros sent reply; now destruct (String.eqb _ _)).
  destruct (dispatch x (length (memory a1)) a1) as [reply err].
  rewrite Hagent. clear Hagent.
  destruct (remember_store x a w2 s Hs) as (s' & Hs' & _ & Hh).
  destruct (remember_memory x a w2) as (Hm & _). cbv zeta in Hm.
  assert (Hkey : messageSessionKey x
                 = "telegram:" +:+ Telegram.FormatInt (Telegram.chatID m)).
  { rewrite (messageSessionKey_ext (Telegram.inbound m now) x Hc Hu Hi).
    apply telegram_key. }
  exists s', x. split; [exact Hs'|].
  split; [exact Hc|]. split; [exact Hu|]. split; [exact Hi|].
  split.
  { rewrite Ht. unfold Telegram.inbound. cbn [Text]. apply TrimSpace_idem. }
  unfold reaches in Hh. rewrite Hkey, telegram_key_stored in Hh.
  split; [|split; [|split; [|exact Hm]]].
  - rewrite Hh, telegram_key_stored.
    destruct (decide _) as [_|Hno]; [reflexivity|]. exfalso. apply Hno. now right.
  - rewrite Hh. change (storeKey "global") with "global".
    destruct (decide _) as [_|Hno]; [reflexivity|]. exfalso. apply Hno. now left.
  - intros k Hg Hk. rewrite Hh.
    destruct (decide _) as [[Hyes|Hyes]|_]; [contradiction..|apply app_nil_r].
Qed.

Lemma telegram_message_stored_witness :
  let w := {| disk := ∅; ticks := 0; clock := fun n => Z.of_nat n; saves := 0;
              faults := fun _ => {| rands := []; createFails := true;
                                    writeFails := None; chmodFails := false;
                                    syncFails := false; closeFails := false;
                                    renameFails := false; removeFails := false |};
              marshal := fun _ => None |} in
  let s := {| storage := "data"; sessions := ∅ |} in
  let a := NewAgent "" None None (Some s) in
  let g := {| Telegram.allowList := {[7%Z]} |} in
  let m := {| Telegram.fromID := 7; Telegram.chatID := -9;
              Telegram.text := " hello " |} in
  let a' := snd (fst (Telegram.handleUpdate g (Some m) a w)) in
  exists s' n,
    sessionStore a' = Some s'
    /\ Text n = "hello"
    /\ History "telegram:-9" s' = [n]
    /\ History "global" s' = [n].
Proof.
  intros w s a g m a'.
  destruct (telegram_message_stored g m a w s)
    as (s' & n & H1 & _ & _ & _ & H2 & H3 & H4 & _);
    [apply (bool_decide_unpack _); vm_compute; exact I
    |vm_compute; discriminate|reflexivity|].
  exists s', n. split; [exact H1|]. split; [exact H2|]. split; [exact H3|exact H4].
Defined.

(** *** Sessions that no key reaches *)

(** X26.  A session stored under a key with white space around it, as
    [loadSessions] stores one whose file gives such a [Key], is out of
    reach: [History] and [AddMessage] look up trimmed keys only, so no key
    names it and no [AddMessage] changes it; the counts include it all the
    same. *)
Theorem untrimmed_key_is_orphan s k session :
  sessions s !! k = Some session -> TrimSpace k <> k ->
  (forall q, storeKey q <> k)
  /\ (forall q msg w,
        sessions (storeAfter (AddMessage q msg s w)) !! k = Some session)
  /\ 0 < SessionCount s
  /\ length (Messages session) <= TotalMessageCount s.
Proof.
  intros Hk Hne.
  assert (Hq : forall q, storeKey q <> k).
  { intros q E. apply Hne. rewrite <- E.
    destruct (storeKey_cases q) as [[_ ->]|[_ ->]]; [reflexivity|apply TrimSpace_idem]. }
  split; [exact Hq|]. split; [|split].
  - intros q msg w. rewrite AddMessage_unfold. unfold storeAfter. simpl.
    destruct (appendMessage_spec (storeKey q) msg s w) as (_ & (x & -> & _) & _).
    rewrite lookup_insert_ne by apply Hq. exact Hk.
  - unfold SessionCount.
    destruct (decide (size (sessions s) = 0)) as [E|E]; [|lia].
    apply map_size_empty_iff in E. rewrite E, lookup_empty in Hk. discriminate Hk.
  - unfold TotalMessageCount.
    rewrite (map_fold_delete_L _ _ k session (sessions s));
      [lia|intros; apply total_comm|exact Hk].
Qed.

Lemma untrimmed_key_is_orphan_witness :
  let session := {| Key := " a "; Messages := []; Created := 1; Updated := 2 |} in
  let env := {| unmarshal := fun payload => Some session;
                readFails := fun _ => false; mkdirFails := false;
                readDirFails := false |} in
  let d : gmap string string := {["x.json" := "P"]} in
  let s := {| storage := "data"; sessions := snd (loadSessions env d ∅) |} in
  History " a " s = [] /\ 0 < SessionCount s.
Proof.
  intros session env d s.
  destruct (untrimmed_key_is_orphan s " a " session) as (Hq & _ & Hc & _);
    [vm_compute; reflexivity|vm_compute; discriminate|].
  split; [|exact Hc].
  unfold History.
  destruct (sessions s !! storeKey " a ") as [x|] eqn:E; [|reflexivity].
  exfalso. apply (Hq " a ").
  assert (Hs : sessions s = {[" a " := session]}) by (vm_compute; reflexivity).
  rewrite Hs in E. apply lookup_singleton_Some in E as [E _]. now symmetry.
Defined.

(** ** Part IX.  [Save]: when it writes, and which keys it refuses *)

(** *** A [Save] without a failing call *)

Lemma writeSnapshot_noFault_iff f (d : gmap string string) payload target :
  fst (writeSnapshot f d payload target) = None <-> noFault f d.
Proof.
  unfold writeSnapshot, CreateTemp, noFault.
  destruct (createFails f); [split; [discriminate|intros [H _]; discriminate H]|].
  destruct (List.find _ _) as [r|] eqn:E; cbn [option_map].
  - apply List.find_some in E as [Hin Hfree]. apply bool_decide_eq_true in Hfree.
    destruct (writeFails f) as [n|];
      [split; [discriminate|intros (_ & _ & H & _); discriminate H]|].
    destruct (chmodFails f);
      [split; [discriminate|intros (_ & _ & _ & H & _); discriminate H]|].
    destruct (syncFails f);
      [split; [discriminate|intros (_ & _ & _ & _ & H & _); discriminate H]|].
    destruct (closeFails f);
      [split; [discriminate|intros (_ & _ & _ & _ & _ & H & _); discriminate H]|].
    destruct (renameFails f);
      [split; [discriminate|intros (_ & _ & _ & _ & _ & _ & H); discriminate H]|].
    split; [intros _|reflexivity]. repeat split; eauto.
  - split; [discriminate|]. intros (_ & (r & Hin & Hfree) & _).
    pose proof (List.find_none _ _ E r Hin) as H.
    apply bool_decide_eq_false in H. contradiction.
Qed.

Lemma writeSnapshot_noFault f (d : gmap string string) payload target :
  noFault f d ->
  exists tmp,
    d !! tmp = None
    /\ writeSnapshot f d payload target
       = (None, [OpCreate tmp; OpWrite tmp payload; OpChmod tmp; OpSync tmp;
                 OpClose tmp; OpRename tmp target]).
Proof.
  intros H. apply (writeSnapshot_noFault_iff f d payload target) in H.
  destruct (writeSnapshot f d payload target) as [err ops] eqn:Hw.
  cbn [fst] in H. subst err.
  apply writeSnapshot_spec in Hw as (tmp & _ & Hfree & ->). eauto.
Qed.

(** On a store with a storage root, for a key that names a file and has a
    session that encodes, [Save] reaches the file system; it returns nil
    exactly when no call fails, and the target then holds the payload. *)
Lemma Save_writes sessionKey s w session payload :
  storage s <> "" ->
  invalidFilename (sanitizeSessionFilename sessionKey) = false ->
  sessions s !! sessionKey = Some session ->
  marshal w session = Some payload ->
  (exists ops, SaveOps sessionKey s w = (fst (Save sessionKey s w), Some ops))
  /\ (fst (Save sessionKey s w) = None <-> noFault (faults w (saves w)) (disk w))
  /\ (noFault (faults w (saves w)) (disk w) ->
      exists tmp,
        disk w !! tmp = None
        /\ SaveOps sessionKey s w
           = (None, Some [OpCreate tmp; OpWrite tmp payload; OpChmod tmp;
                          OpSync tmp; OpClose tmp;
                          OpRename tmp (targetOf sessionKey)])
        /\ Save sessionKey s w
           = (None, afterSave w (<[targetOf sessionKey := payload]> (disk w)))).
Proof.
  intros Hs Hv Hk Hm. unfold Save, SaveOps.
  destruct (String.eqb_spec (storage s) ""); [contradiction|].
  rewrite Hv, Hk, snapshot_eta, Hm. fold (targetOf sessionKey).
  pose proof (writeSnapshot_noFault_iff (faults w (saves w)) (disk w) payload
                (targetOf sessionKey)) as Hiff.
  pose proof (writeSnapshot_noFault (faults w (saves w)) (disk w) payload
                (targetOf sessionKey)) as Hok.
  destruct (writeSnapshot _ _ _ _) as [err ops]. cbn [fst snd] in *.
  split; [eauto|]. split; [exact Hiff|].
  intros Hn. destruct (Hok Hn) as (tmp & Hfree & Heq).
  injection Heq as -> ->. exists tmp. split; [exact Hfree|].
  split; [reflexivity|]. now rewrite rename_commits.
Qed.

(** C1.  [Save] on a store with a storage root writes the snapshot of the
    session (key, timestamps, all messages, as [json.MarshalIndent] encodes
    it) through a temporary file: create, write the whole payload, chmod,
    sync, close, then rename over the target.  The target file is the same
    as before the call after every proper prefix of the file operations
    (the process killed there) and after a [Save] that returns an error; it
    holds the whole new payload after a [Save] that returns nil.  When
    [Save] returns before creating the file the world is untouched.
    [AddMessage] changes no file before it calls this [Save].  The write
    does happen: for a key that names a file and has a session that
    encodes, [Save] reaches the file system, returns nil exactly when no
    call fails, and then has run the six operations on a fresh temporary
    file and left the payload in the target. *)
Theorem Save_atomic_rename sessionKey s w :
  (forall msg,
     let s1 := fst (appendMessage (storeKey sessionKey) msg s w) in
     let w1 := snd (appendMessage (storeKey sessionKey) msg s w) in
     disk w1 = disk w
     /\ AddMessage sessionKey msg s w
        = (fst (Save (storeKey sessionKey) s1 w1), s1,
           snd (Save (storeKey sessionKey) s1 w1)))
  /\
  match SaveOps sessionKey s w with
  | (err, None) => Save sessionKey s w = (err, w)
  | (err, Some ops) =>
      exists session payload,
        storage s <> ""
        /\ sessions s !! sessionKey = Some session
        /\ marshal w session = Some payload
        /\ Save sessionKey s w = (err, afterSave w (applyOps (disk w) ops))
        /\ (forall n, n < length ops ->
            applyOps (disk w) (take n ops) !! targetOf sessionKey
            = disk w !! targetOf sessionKey)
        /\ match err with
           | Some _ =>
               applyOps (disk w) ops !! targetOf sessionKey
               = disk w !! targetOf sessionKey
           | None =>
               exists tmp,
                 disk w !! tmp = None
                 /\ ops = [OpCreate tmp; OpWrite tmp payload; OpChmod tmp;
                           OpSync tmp; OpClose tmp;
                           OpRename tmp (targetOf sessionKey)]
                 /\ applyOps (disk w) ops = <[targetOf sessionKey := payload]> (disk w)
           end
  end
  /\
  (forall session payload,
     storage s <> "" ->
     invalidFilename (sanitizeSessionFilename sessionKey) = false ->
     sessions s !! sessionKey = Some session ->
     marshal w session = Some payload ->
     (exists ops, SaveOps sessionKey s w = (fst (Save sessionKey s w), Some ops))
     /\ (fst (Save sessionKey s w) = None
         <-> noFault (faults w (saves w)) (disk w))
     /\ (noFault (faults w (saves w)) (disk w) ->
         exists tmp,
           disk w !! tmp = None
           /\ SaveOps sessionKey s w
              = (None, Some [OpCreate tmp; OpWrite tmp payload; OpChmod tmp;
                             OpSync tmp; OpClose tmp;
                             OpRename tmp (targetOf sessionKey)])
           /\ Save sessionKey s w
              = (None, afterSave w (<[targetOf sessionKey := payload]> (disk w))))).
Proof.
  split.
  { intros msg. simpl. split; [apply appendMessage_spec|apply AddMessage_unfold]. }
  split; [|intros session payload; apply Save_writes].
  unfold Save. unfold SaveOps.
  destruct (String.eqb_spec (storage s) "") as [Hs|Hs]; [reflexivity|].
  destruct (invalidFilename _); [reflexivity|].
  destruct (sessions s !! sessionKey) as [session|] eqn:Hk; [|reflexivity].
  rewrite snapshot_eta.
  destruct (marshal w session) as [payload|] eqn:Hm; [|reflexivity].
  fold (targetOf sessionKey).
  destruct (writeSnapshot _ _ _ _) as [err ops] eqn:Hw.
  exists session, payload. repeat (split; [easy|]).
  apply writeSnapshot_spec in Hw. unfold targetOf in *.
  destruct err as [e|].
  - split; [|now apply applyOps_onTemp].
    intros n _. now apply applyOps_onTemp, Forall_take.
  - destruct Hw as (tmp & Hr & Hfree & ->). split.
    + intros n Hn. simpl in Hn.
      apply applyOps_onTemp.
      change [OpCreate tmp; OpWrite tmp payload; OpChmod tmp; OpSync tmp;
              OpClose tmp; OpRename tmp (sanitizeSessionFilename sessionKey +:+ ".json")]
        with ([OpCreate tmp; OpWrite tmp payload; OpChmod tmp; OpSync tmp;
               OpClose tmp]
              ++ [OpRename tmp (sanitizeSessionFilename sessionKey +:+ ".json")]).
      rewrite take_app_le by (simpl; lia).
      apply Forall_take. repeat (constructor; [exact Hr|]). constructor.
    + exists tmp. split; [exact Hfree|]. split; [reflexivity|].
      now apply rename_commits.
Qed.

Lemma Save_atomic_rename_witness :
  let session := {| Key := "telegram:42"; Messages := []; Created := 1;
                    Updated := 2 |} in
  let s := {| storage := "data"; sessions := {["telegram:42" := session]} |} in
  let w := {| disk := {["telegram_42.json" := "old"; "notes.txt" := "x"]};
              ticks := 0; clock := fun n => Z.of_nat n; saves := 0;
              faults := fun _ => {| rands := [7]; createFails := false;
                                    writeFails := None; chmodFails := false;
                                    syncFails := false; closeFails := false;
                                    renameFails := false; removeFails := false |};
              marshal := fun _ => Some "new" |} in
  Save "telegram:42" s w
  = (None, afterSave w (<["telegram_42.json" := "new"]> (disk w))).
Proof.
  intros session s w.
  destruct (Save_atomic_rename "telegram:42" s w) as (_ & _ & H).
  destruct (H session "new") as (_ & _ & Hw);
    [discriminate|reflexivity|reflexivity|reflexivity|].
  destruct Hw as (tmp & _ & _ & Hsave); [|exact Hsave].
  repeat split; try reflexivity. exists 7. split; [now left|reflexivity].
Defined.

(** *** Colons are replaced, not refused *)

Lemma TrimSpace_sub c s :
  In c (list_ascii_of_string (TrimSpace s)) -> In c (list_ascii_of_string s).
Proof.
  intros H. destruct (TrimSpace_decomp s) as (pre & post & -> & _).
  rewrite !in_app_iff. tauto.
Qed.

Lemma sanitize_bytes key :
  sanitizeSessionFilename key
  = string_of_list_ascii
      (map colonToUnderscore (list_ascii_of_string (TrimSpace key))).
Proof. unfold sanitizeSessionFilename. apply replace_colon. Qed.

(** A key with a colon is refused for a path separator only. *)
Lemma colon_key_refused_iff key :
  hasColon key ->
  (invalidFilename (sanitizeSessionFilename key) = true
   <-> ContainsAny key "/\" = true).
Proof.
  intros Hc. split.
  - intros H. apply invalidFilename_iff in H.
    assert (Hu : In "_"%char (list_ascii_of_string (sanitizeSessionFilename key))).
    { rewrite sanitize_bytes, string_of_list_ascii_inj_In, in_map_iff.
      exists ":"%char. split; [reflexivity|].
      now apply TrimSpace_keeps; [apply colon_not_spacey|]. }
    destruct H as [H|[H|[H|H]]].
    + rewrite H in Hu. destruct Hu.
    + rewrite H in Hu. cbn in Hu. destruct Hu as [Hu|[]]. discriminate Hu.
    + rewrite H in Hu. cbn in Hu. destruct Hu as [Hu|[Hu|[]]]; discriminate Hu.
    + apply ContainsAny_In in H as (c & Hin & Hsep).
      apply ContainsAny_In. exists c. split; [|exact Hsep].
      rewrite sanitize_bytes, string_of_list_ascii_inj_In, in_map_iff in Hin.
      destruct Hin as (c0 & Hc0 & Hin). apply TrimSpace_sub.
      unfold colonToUnderscore in Hc0.
      destruct (Ascii.eqb c0 ":"); [subst c; discriminate Hsep|now subst c0].
  - intros H. apply ContainsAny_In in H as (c & Hin & Hsep).
    destruct (separator_plain c Hsep) as [Hs Hne].
    unfold invalidFilename. rewrite !orb_true_iff. right.
    apply ContainsAny_In. exists c. split; [|exact Hsep].
    now apply sanitize_keeps.
Qed.

Lemma sanitize_storeKey_colon key :
  hasColon key ->
  sanitizeSessionFilename (storeKey key) = sanitizeSessionFilename key.
Proof.
  intros Hc. destruct (storeKey_colon key Hc) as [-> _].
  unfold sanitizeSessionFilename. now rewrite TrimSpace_idem.
Qed.

Lemma Save_ErrInvalid sessionKey s w :
  fst (Save sessionKey s w) = Some ErrInvalid ->
  invalidFilename (sanitizeSessionFilename sessionKey) = true.
Proof.
  unfold Save, SaveOps.
  destruct (String.eqb (storage s) ""); [discriminate|].
  destruct (invalidFilename _); [reflexivity|].
  destruct (sessions s !! sessionKey); [|discriminate].
  destruct (marshal w _); [|discriminate].
  unfold writeSnapshot.
  destruct (CreateTemp _ _); [|discriminate].
  destruct (writeFails _); [discriminate|].
  repeat match goal with
         | |- context [if ?b then _ else _] => destruct b
         end; discriminate.
Qed.

(** [AddMessage] accepts a key with a colon and no path separator, and its
    file is the key trimmed with an underscore for each colon. *)
Lemma AddMessage_colon_key key msg s w :
  hasColon key -> ContainsAny key "/\" = false -> storage s <> "" ->
  let r := AddMessage key msg s w in
  errorOf r <> Some ErrInvalid
  /\ (forall session payload,
        noFault (faults w (saves w)) (disk w) ->
        sessions (storeAfter r) !! storeKey key = Some session ->
        marshal w session = Some payload ->
        errorOf r = None
        /\ disk (worldAfter r) = <[targetOf key := payload]> (disk w)).
Proof.
  intros Hc Hsep Hs. cbv zeta.
  rewrite AddMessage_unfold. unfold errorOf, storeAfter, worldAfter. cbn [fst snd].
  destruct (appendMessage_spec (storeKey key) msg s w)
    as (Hst & _ & Hd & Hsv & Hf & Hm).
  set (s1 := fst (appendMessage (storeKey key) msg s w)) in *.
  set (w1 := snd (appendMessage (storeKey key) msg s w)) in *.
  assert (Hv : invalidFilename (sanitizeSessionFilename (storeKey key)) = false).
  { rewrite (sanitize_storeKey_colon key Hc).
    destruct (invalidFilename _) eqn:E; [|reflexivity].
    apply (colon_key_refused_iff key Hc) in E. congruence. }
  split.
  - intros E. apply Save_ErrInvalid in E. congruence.
  - intros session payload Hn Hk Hp.
    destruct (Save_writes (storeKey key) s1 w1 session payload)
      as (_ & _ & Hw); [congruence|exact Hv|exact Hk|congruence|].
    destruct Hw as (tmp & _ & _ & Hsave); [rewrite Hf, Hsv, Hd; exact Hn|].
    rewrite Hsave. cbn [fst snd afterSave disk]. split; [reflexivity|].
    rewrite Hd. unfold targetOf. now rewrite (sanitize_storeKey_colon key Hc).
Qed.

(** C8 (amended).  For a session key with a path separator, or that trims
    to "." or "..", [AddMessage] on a store with a storage root returns
    [os.ErrInvalid] and leaves every file as it was, but only after the
    append: the message is in the history of the key, in a session created
    for it when there was none; a memory-only store returns no error.
    Colons are replaced, not refused: the file name of a key is the key
    trimmed with an underscore in place of each colon and every other byte
    kept, so it never holds a colon; a key with a colon is refused for a
    path separator only; and [AddMessage] with a key that has a colon and
    no separator never returns [os.ErrInvalid] and, when no call fails,
    writes the file of that name. *)
Theorem AddMessage_invalid_key sessionKey msg s w :
  unsafeKey sessionKey ->
  let r := AddMessage sessionKey msg s w in
  errorOf r = (if String.eqb (storage s) "" then None else Some ErrInvalid)
  /\ disk (worldAfter r) = disk w
  /\ History sessionKey (storeAfter r) = History sessionKey s ++ [msg]
  /\ (sessions s !! storeKey sessionKey = None ->
      SessionCount (storeAfter r) = S (SessionCount s))
  /\ TotalMessageCount (storeAfter r) = S (TotalMessageCount s)
  /\ (forall key, ~ hasColon (sanitizeSessionFilename key))
  /\ (forall key,
        sanitizeSessionFilename key
        = string_of_list_ascii
            (map colonToUnderscore (list_ascii_of_string (TrimSpace key))))
  /\ (forall key,
        hasColon key ->
        (invalidFilename (sanitizeSessionFilename key) = true
         <-> ContainsAny key "/\" = true))
  /\ (forall key msg' s' w',
        hasColon key -> ContainsAny key "/\" = false -> storage s' <> "" ->
        let r' := AddMessage key msg' s' w' in
        errorOf r' <> Some ErrInvalid
        /\ (forall session payload,
              noFault (faults w' (saves w')) (disk w') ->
              sessions (storeAfter r') !! storeKey key = Some session ->
              marshal w' session = Some payload ->
              errorOf r' = None
              /\ disk (worldAfter r') = <[targetOf key := payload]> (disk w'))).
Proof.
  intros Hu. apply unsafeKey_invalid in Hu. simpl.
  split; [|split; [|split; [|split; [|split; [apply AddMessage_total|]]]]].
  - rewrite AddMessage_unfold. unfold errorOf. simpl.
    destruct (appendMessage_spec (storeKey sessionKey) msg s w) as (Hst & _).
    unfold Save, SaveOps. rewrite Hst, Hu.
    now destruct (String.eqb (storage s) "").
  - rewrite AddMessage_unfold. unfold worldAfter. simpl.
    destruct (appendMessage_spec (storeKey sessionKey) msg s w)
      as (Hst & _ & Hd & _).
    unfold Save, SaveOps. rewrite Hst, Hu.
    now destruct (String.eqb (storage s) "").
  - rewrite History_AddMessage. now destruct (decide _).
  - intros Hnone. rewrite AddMessage_unfold. unfold storeAfter, SessionCount. simpl.
    destruct (appendMessage_spec (storeKey sessionKey) msg s w)
      as (_ & (session & Hs & _) & _).
    rewrite Hs. now apply map_size_insert_None.
  - split; [apply sanitize_no_colon|]. split; [apply sanitize_bytes|].
    split; [apply colon_key_refused_iff|].
    intros key msg' s' w'. apply AddMessage_colon_key.
Qed.

Lemma AddMessage_invalid_key_witness :
  let s := {| storage := "data"; sessions := ∅ |} in
  let w := {| disk := ∅; ticks := 0; clock := fun n => Z.of_nat n; saves := 0;
              faults := fun _ => {| rands := [7]; createFails := false;
                                    writeFails := None; chmodFails := false;
                                    syncFails := false; closeFails := false;
                                    renameFails := false; removeFails := false |};
              marshal := fun session => Some (Key session) |} in
  let msg := {| Channel := "a/b"; UserID := ""; ChatID := "1"; Text := "hi";
                Timestamp := 1 |} in
  errorOf (AddMessage "a/b:1" msg s w) = Some ErrInvalid
  /\ errorOf (AddMessage " telegram:42 " msg s w) = None
  /\ disk (worldAfter (AddMessage " telegram:42 " msg s w))
     = <["telegram_42.json" := "telegram:42"]> (disk w).
Proof.
  intros s w msg.
  destruct (AddMessage_invalid_key "a/b:1" msg s w) as (H1 & _ & _ & _ & _ & _ & _ & _ & H);
    [left; reflexivity|].
  split; [exact H1|].
  destruct (H " telegram:42 " msg s w) as (_ & Hw);
    [vm_compute; tauto|reflexivity|discriminate|].
  apply (Hw {| Key := "telegram:42"; Messages := [msg]; Created := 0; Updated := 2 |}
            "telegram:42");
    [|vm_compute; reflexivity|reflexivity].
  repeat split; try reflexivity. exists 7. split; [now left|reflexivity].
Defined.
